(** * DELOS oracle backend: a shallow embedding of the synchronisation pipeline

    The development follows the Python sources file by file:
    - [Py]: the fragments of the Python runtime the sources rely on
      (exceptions, [int] printing, binary64 floats, [round], [float(str)],
      [datetime.strptime], [statistics.mean] and [statistics.stdev]);
    - [BcbClient]: backend/bcb_client.py;
    - [DataStore]: backend/services/data_store.py;
    - [AnomalyDetector]: backend/services/anomaly_detector.py;
    - [Env]: the outside world (HTTP, chain, clock) and the effect monad;
    - [OracleUpdater]: backend/oracle_updater.py;
    - [Scheduler]: backend/scheduler.py.

    Python [int] is [Z]; Python [float] is the kernel's binary64 [float];
    [str] is [string]; a function that may raise returns [Exn + A]. *)

From Stdlib Require Import ZArith List String Ascii Bool Lia Floats DecimalString.
Import ListNotations.

Set Warnings "-inexact-float".

Open Scope string_scope.
Open Scope list_scope.
Open Scope Z_scope.

(* ================================================================== *)
(** * The Python runtime fragments used by the sources *)
(* ================================================================== *)

Module Py.

(** Exception classes that occur in the sources.  The four [BCB...] classes
    derive from [BCBClientError]; all derive from [Exception]. *)
Inductive ExnClass :=
| BCBAPIError | BCBParseError | BCBNoDataError | BCBValidationError
| KeyError | TypeError | ValueError | OverflowError | AttributeError
| StatisticsError | ContractLogicError | FileNotFoundError | RuntimeError.

Record Exn := mkExn { exn_class : ExnClass; exn_msg : string }.

Definition is_BCBClientError (e : Exn) : bool :=
  match exn_class e with
  | BCBAPIError | BCBParseError | BCBNoDataError | BCBValidationError => true
  | _ => false
  end.

Definition is_class (c : ExnClass) (e : Exn) : bool :=
  match c, exn_class e with
  | BCBAPIError, BCBAPIError | BCBParseError, BCBParseError
  | BCBNoDataError, BCBNoDataError | BCBValidationError, BCBValidationError
  | KeyError, KeyError | TypeError, TypeError | ValueError, ValueError
  | OverflowError, OverflowError | AttributeError, AttributeError
  | StatisticsError, StatisticsError | ContractLogicError, ContractLogicError
  | FileNotFoundError, FileNotFoundError | RuntimeError, RuntimeError => true
  | _, _ => false
  end.

(** [statistics.StatisticsError] is a subclass of [ValueError]. *)
Definition is_ValueError (e : Exn) : bool :=
  is_class ValueError e || is_class StatisticsError e.

(** A computation that returns or raises. *)
Definition result (A : Type) : Type := Exn + A.

Definition ret {A} (a : A) : result A := inr a.
Definition raise {A} (c : ExnClass) (msg : string) : result A := inl (mkExn c msg).
Definition bind {A B} (m : result A) (k : A -> result B) : result B :=
  match m with
  | inl e => inl e
  | inr a => k a
  end.

(** [str(n)] for an [int]. *)
Definition str_of_int (n : Z) : string := NilZero.string_of_int (Z.to_int n).

End Py.

Declare Scope py_scope.
Delimit Scope py_scope with py.
Notation "x <- m ;; k" := (Py.bind m (fun x => k))
  (at level 100, m at next level, right associativity) : py_scope.
Notation "' p <- m ;; k" := (Py.bind m (fun p => k))
  (at level 100, p pattern, m at next level, right associativity) : py_scope.

(* ================================================================== *)
(** * Python floats: IEEE 754 binary64 *)
(* ================================================================== *)

Module PyFloat.
Import Py.

(** The sign applied to a magnitude. *)
Definition signed (s : bool) (n : Z) : Z := if s then - n else n.

(** [rne_shift m e]: the integer nearest to [m * 2^e], ties going to the
    even integer ([m >= 0]). *)
Definition rne_shift (m e : Z) : Z :=
  if 0 <=? e then m * 2 ^ e
  else
    let d := 2 ^ (- e) in
    let q := m / d in
    let r := m mod d in
    match (2 * r ?= d) with
    | Lt => q
    | Gt => q + 1
    | Eq => if Z.even q then q else q + 1
    end.

(** [round(x)] with one argument: the nearest [int], ties to even; NaN and
    infinities raise. *)
Definition py_round (x : float) : result Z :=
  match Prim2SF x with
  | S754_nan => raise ValueError "cannot convert float NaN to integer"
  | S754_infinity _ => raise OverflowError "cannot convert float infinity to integer"
  | S754_zero _ => ret 0
  | S754_finite s m e => ret (signed s (rne_shift (Z.pos m) e))
  end.

(** [p / q] for two [int]s with [q > 0]: the binary64 value nearest to the
    exact quotient (ties to even), or an infinity when it is out of range. *)
Definition nearest_ratio (p q : Z) : float :=
  match p, q with
  | Z0, _ => 0%float
  | Z.pos a, Z.pos b => SF2Prim (SFdiv prec emax (S754_finite false a 0) (S754_finite false b 0))
  | Z.neg a, Z.pos b => SF2Prim (SFdiv prec emax (S754_finite true a 0) (S754_finite false b 0))
  | _, _ => nan
  end.

Definition is_finite (x : float) : bool :=
  match Prim2SF x with
  | S754_zero _ | S754_finite _ _ _ => true
  | _ => false
  end.

(** True division [p / q] of two [int]s. *)
Definition int_truediv (p q : Z) : result float :=
  if q =? 0 then raise RuntimeError "division by zero"
  else
    let x := if 0 <? q then nearest_ratio p q else nearest_ratio (- p) (- q) in
    if is_finite x then ret x
    else raise OverflowError "integer division result too large for a float".

(** [float(n)] for an [int]. *)
Definition float_of_int (n : Z) : result float :=
  match n with
  | Z0 => ret 0%float
  | _ => let x := nearest_ratio n 1 in
         if is_finite x then ret x
         else raise OverflowError "int too large to convert to float"
  end.

(** The exact value of a finite float as [num * 2^(-1074)]: every finite
    binary64 value is an integer multiple of [2^(-1074)]. *)
Definition scaled_int (x : float) : option Z :=
  match Prim2SF x with
  | S754_zero _ => Some 0
  | S754_finite s m e => Some (signed s (Z.pos m * 2 ^ (e + 1074)))
  | _ => None
  end.

(** [nearest_even x n]: the integer [n] is at most one half away from the
    finite float [x], and exactly one half away only if it is even.  Both
    sides are counted in units of [2^(-1074)]. *)
Definition nearest_even (x : float) (n : Z) : Prop :=
  match scaled_int x with
  | Some X => 2 * Z.abs (n * 2 ^ 1074 - X) <= 2 ^ 1074 /\
              (2 * Z.abs (n * 2 ^ 1074 - X) = 2 ^ 1074 -> Z.even n = true)
  | None => False
  end.

(** ** The rounding of a binary64 operation

    [shifted M k mrs]: the record [mrs] is what is left of the mantissa [M]
    after [k] one-bit right shifts: the quotient, the last bit shifted out
    (round bit) and whether any bit before it was set (sticky bit). *)
Definition shifted (M k : Z) (mrs : shr_record) : Prop :=
  shr_m mrs = M / 2 ^ k /\
  shr_r mrs = (2 ^ k <=? 2 * (M mod 2 ^ k)) /\
  shr_s mrs = negb ((2 * (M mod 2 ^ k)) mod 2 ^ k =? 0).

(** The float a rounded mantissa [m2] and exponent [e2] end as: an infinity
    once the exponent is past the largest one. *)
Definition final_float (sx : bool) (m2 e2 : Z) : spec_float :=
  match m2 with
  | Z0 => S754_zero sx
  | Z.pos m => if e2 <=? 971 then S754_finite sx m e2 else S754_infinity sx
  | Z.neg _ => S754_nan
  end.

(** ** [float(str)] *)

Definition is_digit (c : ascii) : bool :=
  let n := N_of_ascii c in ((48 <=? n) && (n <=? 57))%N.

Definition digit_val (c : ascii) : Z := Z.of_N (N_of_ascii c) - 48.

(** ASCII white space as [str.strip] sees it. *)
Definition is_space (c : ascii) : bool :=
  let n := N_of_ascii c in
  ((n =? 32) || ((9 <=? n) && (n <=? 13)) || ((28 <=? n) && (n <=? 31)))%N.

Definition lower (c : ascii) : ascii :=
  let n := N_of_ascii c in
  if ((65 <=? n) && (n <=? 90))%N then ascii_of_N (n + 32) else c.

Fixpoint lstrip (l : list ascii) : list ascii :=
  match l with
  | c :: r => if is_space c then lstrip r else l
  | [] => []
  end.

Definition strip (l : list ascii) : list ascii := rev (lstrip (rev (lstrip l))).

(** Underscores may only stand between two digits; they are then dropped. *)
Fixpoint drop_underscores (prev : option ascii) (l : list ascii) : option (list ascii) :=
  match l with
  | [] => match prev with
          | Some "_"%char => None
          | _ => Some []
          end
  | "_"%char :: r =>
      match prev with
      | Some p => if is_digit p then drop_underscores (Some "_"%char) r else None
      | None => None
      end
  | c :: r =>
      match prev with
      | Some "_"%char =>
          if is_digit c then option_map (cons c) (drop_underscores (Some c) r) else None
      | _ => option_map (cons c) (drop_underscores (Some c) r)
      end
  end.

(** Leading digits of [l] as a number, their count, and the rest. *)
Fixpoint take_digits (acc : Z) (n : Z) (l : list ascii) : Z * Z * list ascii :=
  match l with
  | c :: r => if is_digit c then take_digits (10 * acc + digit_val c) (n + 1) r
              else (acc, n, l)
  | [] => (acc, n, [])
  end.

Definition take_sign (l : list ascii) : bool * list ascii :=
  match l with
  | "-"%char :: r => (true, r)
  | "+"%char :: r => (false, r)
  | _ => (false, l)
  end.

(** The exponent part: empty, or [e] or [E], an optional sign and digits. *)
Definition parse_exponent (l : list ascii) : option Z :=
  match l with
  | [] => Some 0
  | c :: r =>
      if (lower c =? "e")%char then
        let '(s, r1) := take_sign r in
        let '(v, n, r2) := take_digits 0 0 r1 in
        match r2 with
        | [] => if 0 <? n then Some (signed s v) else None
        | _ => None
        end
      else None
  end.

(** A decimal literal [digits [. digits] [exponent]] as [(D, E)], standing
    for [D * 10^E]. *)
Definition parse_decimal (l : list ascii) : option (Z * Z) :=
  let '(ip, ni, r1) := take_digits 0 0 l in
  let '(m, nf, r2) :=
    match r1 with
    | "."%char :: r => let '(v, n, r') := take_digits ip 0 r in (v, n, r')
    | _ => (ip, 0, r1)
    end in
  if 0 <? ni + nf then
    match parse_exponent r2 with
    | Some ex => Some (m, ex - nf)
    | None => None
    end
  else None.

Definition decimal_value (s : bool) (d e : Z) : float :=
  let x := if 0 <=? e then nearest_ratio (d * 10 ^ e) 1
           else nearest_ratio d (10 ^ (- e)) in
  if s then (- x)%float else x.

Definition could_not_convert (s : string) : Exn :=
  mkExn ValueError (String.append "could not convert string to float: " s).

(** [float(s)] for a [str]: white space is stripped, the text is [inf],
    [infinity] or [nan] in any case, or a decimal literal, each with an
    optional sign; the literal is rounded to the nearest binary64 value. *)
Definition float_of_string (s : string) : result float :=
  match drop_underscores None (list_ascii_of_string s) with
  | None => inl (could_not_convert s)
  | Some l =>
      let '(sg, body) := take_sign (strip l) in
      let low := string_of_list_ascii (map lower body) in
      if String.eqb low "inf" || String.eqb low "infinity" then
        ret (if sg then neg_infinity else infinity)
      else if String.eqb low "nan" then ret nan
      else match parse_decimal body with
           | Some (d, e) => ret (decimal_value sg d e)
           | None => inl (could_not_convert s)
           end
  end.

(** [s.replace(old, new)] for one-character [old] and [new]. *)
Fixpoint replace_char (old new : ascii) (s : string) : string :=
  match s with
  | EmptyString => EmptyString
  | String c r => String (if (c =? old)%char then new else c) (replace_char old new r)
  end.

End PyFloat.

(* ================================================================== *)
(** * backend/bcb_client.py: constants, parsing, scaling, validation *)
(* ================================================================== *)

Module BcbClient.
Import Py PyFloat.
Local Open Scope py_scope.

Definition CHAINLINK_DECIMALS : Z := 8.
Definition CHAINLINK_PRECISION : Z := 10 ^ CHAINLINK_DECIMALS.

Inductive RateType := IPCA | CDI | SELIC | PTAX | IGPM | TR.

(** [rate_type.value] *)
Definition value (r : RateType) : string :=
  match r with
  | IPCA => "IPCA" | CDI => "CDI" | SELIC => "SELIC"
  | PTAX => "PTAX" | IGPM => "IGPM" | TR => "TR"
  end.

(** [list(RateType)]: the members in definition order. *)
Definition all_rate_types : list RateType := [IPCA; CDI; SELIC; PTAX; IGPM; TR].

Record RateConfig := {
  bcb_series : Z;
  description : string;
  decimals : Z;
  heartbeat_seconds : Z;
  min_value : Z;
  max_value : Z;
  is_percentage : bool;
  update_frequency : string
}.

Definition RATE_CONFIGS (r : RateType) : RateConfig :=
  match r with
  | IPCA => {| bcb_series := 433;
               description := "IPCA - Brazilian Consumer Price Index (Monthly YoY %)";
               decimals := CHAINLINK_DECIMALS;
               heartbeat_seconds := 35 * 24 * 3600;
               min_value := -1000000000;
               max_value := 10000000000;
               is_percentage := true;
               update_frequency := "monthly" |}
  | CDI => {| bcb_series := 12;
              description := "CDI - Interbank Deposit Rate (Annualized %)";
              decimals := CHAINLINK_DECIMALS;
              heartbeat_seconds := 2 * 24 * 3600;
              min_value := 0;
              max_value := 5000000000;
              is_percentage := true;
              update_frequency := "daily" |}
  | SELIC => {| bcb_series := 432;
                description := "SELIC - Central Bank Target Rate (%)";
                decimals := CHAINLINK_DECIMALS;
                heartbeat_seconds := 2 * 24 * 3600;
                min_value := 0;
                max_value := 5000000000;
                is_percentage := true;
                update_frequency := "daily" |}
  | PTAX => {| bcb_series := 1;
               description := "PTAX - Official USD/BRL Exchange Rate";
               decimals := CHAINLINK_DECIMALS;
               heartbeat_seconds := 2 * 24 * 3600;
               min_value := 100000000;
               max_value := 1500000000;
               is_percentage := false;
               update_frequency := "daily" |}
  | IGPM => {| bcb_series := 189;
               description := "IGP-M - General Market Price Index (Monthly %)";
               decimals := CHAINLINK_DECIMALS;
               heartbeat_seconds := 35 * 24 * 3600;
               min_value := -1000000000;
               max_value := 10000000000;
               is_percentage := true;
               update_frequency := "monthly" |}
  | TR => {| bcb_series := 226;
             description := "TR - Reference Rate (%)";
             decimals := CHAINLINK_DECIMALS;
             heartbeat_seconds := 2 * 24 * 3600;
             min_value := 0;
             max_value := 5000000000;
             is_percentage := true;
             update_frequency := "daily" |}
  end.

(** A [datetime] at midnight, as [strptime] with a date-only format builds it. *)
Record datetime := { dt_year : Z; dt_month : Z; dt_day : Z }.

Record RateData := {
  rate_type : RateType;
  answer : Z;
  raw_value : float;
  rd_decimals : Z;
  real_world_date : Z;
  real_world_date_str : string;
  timestamp : datetime;
  source : string;
  rd_description : string
}.

(** [answer_as_basis_points]: floor division by [10 ** 6]. *)
Definition answer_as_basis_points (rd : RateData) : Z := answer rd / 10 ^ 6.

(** [answer_as_percentage]: [self.answer / CHAINLINK_PRECISION]. *)
Definition answer_as_percentage (rd : RateData) : result float :=
  int_truediv (answer rd) CHAINLINK_PRECISION.

(** The client object: [__init__(timeout, validate)]. *)
Record BCBClient := { timeout : float; validate : bool }.

Definition TIMEOUT : float := 30%float.

(** [BCBClient()] with its defaults. *)
Definition new_BCBClient : BCBClient := {| timeout := TIMEOUT; validate := true |}.

(** ** [datetime.strptime(s, "%d/%m/%Y")] *)

Fixpoint split_on (sep : ascii) (cur : list ascii) (l : list ascii) : list (list ascii) :=
  match l with
  | [] => [rev cur]
  | c :: r => if (c =? sep)%char then rev cur :: split_on sep [] r
              else split_on sep (c :: cur) r
  end.

Definition nonzero_digit (c : ascii) : bool := is_digit c && negb (c =? "0")%char.

(** [%d]: [3[0-1]|[1-2]\d|0[1-9]|[1-9]| [1-9]] *)
Definition day_token (l : list ascii) : option Z :=
  match l with
  | [a] => if nonzero_digit a then Some (digit_val a) else None
  | [a; b] =>
      if (a =? "3")%char && ((b =? "0")%char || (b =? "1")%char) then Some (30 + digit_val b)
      else if ((a =? "1")%char || (a =? "2")%char) && is_digit b
           then Some (10 * digit_val a + digit_val b)
      else if ((a =? "0")%char || (a =? " ")%char) && nonzero_digit b then Some (digit_val b)
      else None
  | _ => None
  end.

(** [%m]: [1[0-2]|0[1-9]|[1-9]] *)
Definition month_token (l : list ascii) : option Z :=
  match l with
  | [a] => if nonzero_digit a then Some (digit_val a) else None
  | [a; b] =>
      if (a =? "1")%char && ((b =? "0")%char || (b =? "1")%char || (b =? "2")%char)
      then Some (10 + digit_val b)
      else if (a =? "0")%char && nonzero_digit b then Some (digit_val b)
      else None
  | _ => None
  end.

(** [%Y]: four digits. *)
Definition year_token (l : list ascii) : option Z :=
  match l with
  | [a; b; c; d] =>
      if is_digit a && is_digit b && is_digit c && is_digit d
      then Some (1000 * digit_val a + 100 * digit_val b + 10 * digit_val c + digit_val d)
      else None
  | _ => None
  end.

Definition is_leap (y : Z) : bool :=
  ((y mod 4 =? 0) && negb (y mod 100 =? 0)) || (y mod 400 =? 0).

Definition days_in_month (y m : Z) : Z :=
  if m =? 2 then (if is_leap y then 29 else 28)
  else if (m =? 4) || (m =? 6) || (m =? 9) || (m =? 11) then 30
  else 31.

Definition strptime_dmy (s : string) : result datetime :=
  match split_on "/"%char [] (list_ascii_of_string s) with
  | [d; m; y] =>
      match day_token d, month_token m, year_token y with
      | Some dd, Some mm, Some yy =>
          if (1 <=? yy) && (dd <=? days_in_month yy mm)
          then ret {| dt_year := yy; dt_month := mm; dt_day := dd |}
          else raise ValueError "day is out of range for month"
      | _, _, _ => raise ValueError "time data does not match format '%d/%m/%Y'"
      end
  | _ => raise ValueError "time data does not match format '%d/%m/%Y'"
  end.

(** [int(dt.strftime("%Y%m%d"))] *)
Definition yyyymmdd (dt : datetime) : Z :=
  dt_year dt * 10000 + dt_month dt * 100 + dt_day dt.

(** A JSON value as the client meets it: a [str], or any other value, given
    by the text [str()] renders it as. *)
Inductive PyValue :=
| PyStr (s : string)
| PyNonStr (rendered : string).

Definition py_str (v : PyValue) : string :=
  match v with PyStr s => s | PyNonStr s => s end.

(** One element of the response: a [dict], or something that is none. *)
Inductive Item :=
| ItemDict (fields : list (string * PyValue))
| ItemNotDict.

Fixpoint lookup (k : string) (fields : list (string * PyValue)) : option PyValue :=
  match fields with
  | [] => None
  | (k', v) :: r => if String.eqb k k' then Some v else lookup k r
  end.

(** [item[key]] *)
Definition getitem (item : Item) (key : string) : result PyValue :=
  match item with
  | ItemDict fields =>
      match lookup key fields with
      | Some v => ret v
      | None => raise KeyError key
      end
  | ItemNotDict => raise TypeError "object is not subscriptable by str"
  end.

(** [_parse_bcb_date]: only [ValueError] is turned into [BCBParseError]; a
    [TypeError] of [strptime] on a non-string passes through. *)
Definition _parse_bcb_date (date_str : PyValue) : result (Z * datetime) :=
  match date_str with
  | PyNonStr _ => raise TypeError "strptime() argument 1 must be str"
  | PyStr s =>
      match strptime_dmy s with
      | inr dt => ret (yyyymmdd dt, dt)
      | inl e =>
          if is_ValueError e
          then raise BCBParseError
                 (String.append "Invalid date format '"
                    (String.append s (String.append "': " (exn_msg e))))
          else inl e
      end
  end.

(** [_scale_to_chainlink]: [int(round(value * CHAINLINK_PRECISION))]; the
    product is a binary64 product with [float(10 ** 8)]. *)
Definition _scale_to_chainlink (v : float) : result Z :=
  py_round (v * 100000000)%float.

(** [_validate_value]: the circuit breaker.  The message leaves out the
    float renderings. *)
Definition _validate_value (self : BCBClient) (rt : RateType)
    (scaled_value : Z) (raw_value : float) : result unit :=
  if negb (validate self) then ret tt
  else
    let config := RATE_CONFIGS rt in
    if scaled_value <? min_value config then
      raise BCBValidationError (String.append (value rt) " value below minimum")
    else if max_value config <? scaled_value then
      raise BCBValidationError (String.append (value rt) " value above maximum")
    else ret tt.

(** The date of an [item]: [self._parse_bcb_date(item["data"])]. *)
Definition parse_date (item : Item) : result (PyValue * Z * datetime) :=
  d <- getitem item "data" ;;
  ' (date_int, dt) <- _parse_bcb_date d ;;
  ret (d, date_int, dt).

(** The value of an [item]: [float(str(item["valor"]).replace(",", "."))]. *)
Definition parse_value (item : Item) : result float :=
  v <- getitem item "valor" ;;
  float_of_string (replace_char ","%char "."%char (py_str v)).

(** The body of the [try] in [_process_response], for one [item]. *)
Definition process_item (self : BCBClient) (rt : RateType) (item : Item) : result RateData :=
  let config := RATE_CONFIGS rt in
  ' (d, date_int, dt) <- parse_date item ;;
  raw_value <- parse_value item ;;
  scaled_value <- _scale_to_chainlink raw_value ;;
  _ <- _validate_value self rt scaled_value raw_value ;;
  ret {| rate_type := rt;
         answer := scaled_value;
         raw_value := raw_value;
         rd_decimals := CHAINLINK_DECIMALS;
         real_world_date := date_int;
         real_world_date_str := py_str d;
         timestamp := dt;
         source := String.append "BCB-" (str_of_int (bcb_series config));
         rd_description := description config |}.

(** What the [except] clauses of the loop do with an exception. *)
Inductive Handling := Reraise | Skip | Propagate.

Definition handle (e : Exn) : Handling :=
  if is_class BCBValidationError e then Reraise
  else if is_class BCBParseError e then Skip
  else if is_class KeyError e || is_class TypeError e || is_ValueError e then Skip
  else Propagate.

(** The [for item in data] loop, [results] being the list built so far. *)
Fixpoint process_loop (self : BCBClient) (rt : RateType) (data : list Item)
    (results : list RateData) : result (list RateData) :=
  match data with
  | [] => ret results
  | item :: rest =>
      match process_item self rt item with
      | inr rd => process_loop self rt rest (results ++ [rd])
      | inl e =>
          match handle e with
          | Skip => process_loop self rt rest results
          | Reraise | Propagate => inl e
          end
      end
  end.

(** [results.sort(key=lambda x: x.real_world_date, reverse=True)]: a stable
    sort, dates descending, equal dates keeping their order. *)
Fixpoint insert_desc (x : RateData) (l : list RateData) : list RateData :=
  match l with
  | [] => [x]
  | y :: r => if real_world_date x <? real_world_date y then y :: insert_desc x r
              else x :: y :: r
  end.

Definition sort_desc (l : list RateData) : list RateData := fold_right insert_desc [] l.

Definition _process_response (self : BCBClient) (data : list Item) (rt : RateType)
  : result (list RateData) :=
  results <- process_loop self rt data [] ;;
  ret (sort_desc results).

(** [_build_url] *)
Definition BASE_URL (series : Z) : string :=
  String.append "https://api.bcb.gov.br/dados/serie/bcdata.sgs."
    (String.append (str_of_int series) "/dados").

Definition _build_url (rt : RateType) (count : option Z)
    (start_date end_date : option string) : string :=
  let base := BASE_URL (bcb_series (RATE_CONFIGS rt)) in
  let dated :=
    match start_date, end_date with
    | Some s, Some e =>
        if negb (String.eqb s "") && negb (String.eqb e "")
        then Some (String.append base
                     (String.append "?formato=json&dataInicial="
                        (String.append s (String.append "&dataFinal=" e))))
        else None
    | _, _ => None
    end in
  let plain :=
    match dated with
    | Some u => u
    | None => String.append base "?formato=json"
    end in
  match count with
  | Some n =>
      if n =? 0 then plain
      else String.append base
             (String.append "/ultimos/" (String.append (str_of_int n) "?formato=json"))
  | None => plain
  end.

(** [dt.strftime("%d/%m/%Y")] for a [datetime] as Python builds them (a
    calendar date, the year in 1..9999): day and month on two digits, the
    year as the C library's [%Y] writes it, without padding. *)
Definition two_digits (n : Z) : string :=
  if n <? 10 then String.append "0" (str_of_int n) else str_of_int n.

Definition strftime_dmy (dt : datetime) : string :=
  String.append (two_digits (dt_day dt))
    (String.append "/"
       (String.append (two_digits (dt_month dt))
          (String.append "/" (str_of_int (dt_year dt))))).

(** A calendar date, as every [datetime] object is one. *)
Definition valid_date (dt : datetime) : Prop :=
  1 <= dt_year dt <= 9999 /\ 1 <= dt_month dt <= 12 /\
  1 <= dt_day dt <= days_in_month (dt_year dt) (dt_month dt).

(** The order of two dates on the calendar. *)
Definition earlier (a b : datetime) : Prop :=
  dt_year a < dt_year b \/
  (dt_year a = dt_year b /\
   (dt_month a < dt_month b \/ (dt_month a = dt_month b /\ dt_day a < dt_day b))).

(** The records of a response that the loop of [_process_response] turns
    into a [RateData], in the order of the response. *)
Definition processed (self : BCBClient) (rt : RateType) (data : list Item) : list RateData :=
  flat_map (fun item => match process_item self rt item with
                        | inr rd => [rd]
                        | inl _ => []
                        end) data.

(** Dates descending along a list. *)
Fixpoint descending (l : list RateData) : Prop :=
  match l with
  | [] => True
  | x :: r => (forall y, In y r -> real_world_date y <= real_world_date x) /\ descending r
  end.

(** A [RateData] whose fields agree with one another and with the rate
    type it was asked for: the answer is the scaled raw value, the date
    integer and the timestamp are what the date text parses to, and the
    source names the series of the rate type. *)
Definition consistent (rt : RateType) (rd : RateData) : Prop :=
  rate_type rd = rt /\
  rd_decimals rd = 8 /\
  source rd = String.append "BCB-" (str_of_int (bcb_series (RATE_CONFIGS rt))) /\
  rd_description rd = description (RATE_CONFIGS rt) /\
  _scale_to_chainlink (raw_value rd) = inr (answer rd) /\
  _parse_bcb_date (PyStr (real_world_date_str rd)) = inr (real_world_date rd, timestamp rd).

(** The answer lies within the circuit-breaker bounds of the rate type. *)
Definition within_bounds (rt : RateType) (rd : RateData) : Prop :=
  min_value (RATE_CONFIGS rt) <= answer rd <= max_value (RATE_CONFIGS rt).

End BcbClient.

(* ================================================================== *)
(** * backend/services/data_store.py *)
(* ================================================================== *)

(** The SQLite file is a record of its four tables, each a list of rows in
    rowid order, with the AUTOINCREMENT counter of each.  DATETIME columns
    hold epoch seconds; [CURRENT_TIMESTAMP] and [datetime.now()] are the
    [now] the caller passes in. *)
Module DataStore.

Record StoredRate := {
  id : Z;
  rate_type : string;
  answer : Z;
  raw_value : float;
  real_world_date : Z;
  bcb_timestamp : BcbClient.datetime;
  fetch_timestamp : Z;
  source : string
}.

Record OracleUpdate := {
  ou_id : Z;
  ou_rate_type : string;
  tx_hash : option string;
  block_number : option Z;
  gas_used : option Z;
  ou_status : string;
  ou_error_message : option string;
  ou_timestamp : Z
}.

Record Anomaly := {
  an_id : Z;
  an_rate_type : string;
  detected_at : Z;
  anomaly_type : string;
  current_value : float;
  expected_range_low : float;
  expected_range_high : float;
  std_devs : float;
  message : string
}.

Record SchedulerRun := {
  run_id : Z;
  job_id : string;
  started_at : Z;
  ended_at : option Z;
  status : string;
  rates_processed : Z;
  rates_updated : Z;
  error_message : option string
}.

Record DB := {
  rates : list StoredRate;
  rates_seq : Z;
  oracle_updates : list OracleUpdate;
  oracle_updates_seq : Z;
  anomalies : list Anomaly;
  anomalies_seq : Z;
  scheduler_runs : list SchedulerRun;
  scheduler_runs_seq : Z
}.

(** The database after [initialize] on a fresh file. *)
Definition empty_db : DB :=
  {| rates := []; rates_seq := 0;
     oracle_updates := []; oracle_updates_seq := 0;
     anomalies := []; anomalies_seq := 0;
     scheduler_runs := []; scheduler_runs_seq := 0 |}.

(** The columns of [UNIQUE(rate_type, real_world_date)]. *)
Definition same_key (t : string) (d : Z) (r : StoredRate) : bool :=
  String.eqb (rate_type r) t && (real_world_date r =? d).

(** [store_rate]: [INSERT OR REPLACE INTO rates ...].  The rows that collide
    on the unique key are deleted, then the new row is inserted under a
    fresh id; the id is returned ([cursor.lastrowid]). *)
Definition store_rate (rate_data : BcbClient.RateData) (now : Z) (db : DB) : DB * Z :=
  let t := BcbClient.value (BcbClient.rate_type rate_data) in
  let d := BcbClient.real_world_date rate_data in
  let new_id := rates_seq db + 1 in
  let row := {| id := new_id;
                rate_type := t;
                answer := BcbClient.answer rate_data;
                raw_value := BcbClient.raw_value rate_data;
                real_world_date := d;
                bcb_timestamp := BcbClient.timestamp rate_data;
                fetch_timestamp := now;
                source := BcbClient.source rate_data |} in
  ({| rates := filter (fun r => negb (same_key t d r)) (rates db) ++ [row];
      rates_seq := new_id;
      oracle_updates := oracle_updates db;
      oracle_updates_seq := oracle_updates_seq db;
      anomalies := anomalies db;
      anomalies_seq := anomalies_seq db;
      scheduler_runs := scheduler_runs db;
      scheduler_runs_seq := scheduler_runs_seq db |}, new_id).

Fixpoint insert_by_date (x : StoredRate) (l : list StoredRate) : list StoredRate :=
  match l with
  | [] => [x]
  | y :: r => if real_world_date x <? real_world_date y then y :: insert_by_date x r
              else x :: y :: r
  end.

(** [get_rate_history]: the rows of one rate type fetched within the last
    [days] days, reference dates descending. *)
Definition get_rate_history (t : string) (days : Z) (now : Z) (db : DB) : list StoredRate :=
  let cutoff_date := now - days * 86400 in
  fold_right insert_by_date []
    (filter (fun r => String.eqb (rate_type r) t && (cutoff_date <=? fetch_timestamp r))
       (rates db)).


(** [log_oracle_update] *)
Definition log_oracle_update (t : string) (tx : option string) (block gas : option Z)
    (st : string) (err : option string) (now : Z) (db : DB) : DB * Z :=
  let new_id := oracle_updates_seq db + 1 in
  let row := {| ou_id := new_id; ou_rate_type := t; tx_hash := tx;
                block_number := block; gas_used := gas; ou_status := st;
                ou_error_message := err; ou_timestamp := now |} in
  ({| rates := rates db; rates_seq := rates_seq db;
      oracle_updates := oracle_updates db ++ [row];
      oracle_updates_seq := new_id;
      anomalies := anomalies db; anomalies_seq := anomalies_seq db;
      scheduler_runs := scheduler_runs db;
      scheduler_runs_seq := scheduler_runs_seq db |}, new_id).

(** [log_anomaly] *)
Definition log_anomaly (t : string) (kind : string) (cur low high devs : float)
    (msg : string) (now : Z) (db : DB) : DB * Z :=
  let new_id := anomalies_seq db + 1 in
  let row := {| an_id := new_id; an_rate_type := t; detected_at := now;
                anomaly_type := kind; current_value := cur;
                expected_range_low := low; expected_range_high := high;
                std_devs := devs; message := msg |} in
  ({| rates := rates db; rates_seq := rates_seq db;
      oracle_updates := oracle_updates db;
      oracle_updates_seq := oracle_updates_seq db;
      anomalies := anomalies db ++ [row]; anomalies_seq := new_id;
      scheduler_runs := scheduler_runs db;
      scheduler_runs_seq := scheduler_runs_seq db |}, new_id).

(** [log_scheduler_run]: the counts take the column defaults. *)
Definition log_scheduler_run (job : string) (started : Z) (st : string) (db : DB) : DB * Z :=
  let new_id := scheduler_runs_seq db + 1 in
  let row := {| run_id := new_id; job_id := job; started_at := started;
                ended_at := None; status := st; rates_processed := 0;
                rates_updated := 0; error_message := None |} in
  ({| rates := rates db; rates_seq := rates_seq db;
      oracle_updates := oracle_updates db;
      oracle_updates_seq := oracle_updates_seq db;
      anomalies := anomalies db; anomalies_seq := anomalies_seq db;
      scheduler_runs := scheduler_runs db ++ [row];
      scheduler_runs_seq := new_id |}, new_id).

Definition is_open (job : string) (r : SchedulerRun) : bool :=
  String.eqb (job_id r) job &&
  match ended_at r with None => true | Some _ => false end.

(** The row [WHERE job_id = ? AND ended_at IS NULL ORDER BY started_at DESC
    LIMIT 1] selects: the open run of the job that started last (the first
    such row in rowid order when several started at once). *)
Fixpoint latest_open (job : string) (best : option SchedulerRun) (l : list SchedulerRun)
  : option SchedulerRun :=
  match l with
  | [] => best
  | r :: rest =>
      if is_open job r then
        match best with
        | Some b => if started_at b <? started_at r then latest_open job (Some r) rest
                    else latest_open job best rest
        | None => latest_open job (Some r) rest
        end
      else latest_open job best rest
  end.

(** [update_scheduler_run] *)
Definition update_scheduler_run (job : string) (ended : Z) (st : string)
    (processed updated : Z) (err : option string) (db : DB) : DB :=
  match latest_open job None (scheduler_runs db) with
  | None => db
  | Some target =>
      {| rates := rates db; rates_seq := rates_seq db;
         oracle_updates := oracle_updates db;
         oracle_updates_seq := oracle_updates_seq db;
         anomalies := anomalies db; anomalies_seq := anomalies_seq db;
         scheduler_runs :=
           map (fun r => if run_id r =? run_id target
                         then {| run_id := run_id r; job_id := job_id r;
                                 started_at := started_at r; ended_at := Some ended;
                                 status := st; rates_processed := processed;
                                 rates_updated := updated; error_message := err |}
                         else r)
               (scheduler_runs db);
         scheduler_runs_seq := scheduler_runs_seq db |}
  end.

(** The unique key of a row of [rates]. *)
Definition key (r : StoredRate) : string * Z := (rate_type r, real_world_date r).


(** The writes the store offers, as data: a history of the database file is
    a list of them, each with the time it ran at. *)
Inductive Op :=
| OpStoreRate (rate_data : BcbClient.RateData)
| OpLogOracleUpdate (t : string) (tx : option string) (block gas : option Z)
    (st : string) (err : option string)
| OpLogAnomaly (t kind : string) (cur low high devs : float) (msg : string)
| OpLogSchedulerRun (job : string) (st : string)
| OpUpdateSchedulerRun (job : string) (st : string) (processed updated : Z)
    (err : option string).

Definition apply_op (now : Z) (op : Op) (d : DB) : DB :=
  match op with
  | OpStoreRate rate_data => fst (store_rate rate_data now d)
  | OpLogOracleUpdate t tx block gas st err =>
      fst (log_oracle_update t tx block gas st err now d)
  | OpLogAnomaly t kind cur low high devs msg =>
      fst (log_anomaly t kind cur low high devs msg now d)
  | OpLogSchedulerRun job st => fst (log_scheduler_run job now st d)
  | OpUpdateSchedulerRun job st processed updated err =>
      update_scheduler_run job now st processed updated err d
  end.

Definition run_ops (ops : list (Z * Op)) (d : DB) : DB :=
  fold_left (fun acc top => apply_op (fst top) (snd top) acc) ops d.

(** A database file as the store's own writes can have made it, starting
    from a fresh file. *)
Definition reachable (d : DB) : Prop := exists ops, d = run_ops ops empty_db.



(** The ids of each table are pairwise distinct and at most the table's
    AUTOINCREMENT counter. *)
Definition numbered (d : DB) : Prop :=
  (NoDup (map id (rates d)) /\ forall r, In r (rates d) -> id r <= rates_seq d) /\
  (NoDup (map ou_id (oracle_updates d)) /\
   forall r, In r (oracle_updates d) -> ou_id r <= oracle_updates_seq d) /\
  (NoDup (map an_id (anomalies d)) /\
   forall r, In r (anomalies d) -> an_id r <= anomalies_seq d) /\
  (NoDup (map run_id (scheduler_runs d)) /\
   forall r, In r (scheduler_runs d) -> run_id r <= scheduler_runs_seq d).

(** The number of runs of a job that are still open. *)
Definition open_runs (job : string) (d : DB) : nat :=
  List.length (filter (is_open job) (scheduler_runs d)).

(** What the store keeps of the tables it only appends to. *)
Definition extends (d d' : DB) : Prop :=
  (exists more, oracle_updates d' = oracle_updates d ++ more) /\
  (exists more, anomalies d' = anomalies d ++ more) /\
  (exists more, map run_id (scheduler_runs d') = map run_id (scheduler_runs d) ++ more).

End DataStore.

(* ================================================================== *)
(** * [statistics.mean] and [statistics.stdev] on lists of floats *)
(* ================================================================== *)

(** The library sums the data exactly, as fractions, and rounds once at the
    end (CPython 3.11 and later).  A finite float is an integer multiple of
    [2^(-1074)]; the sums below are sums of those integers. *)
Module Statistics.
Import Py PyFloat.
Local Open Scope py_scope.

Definition all_finite (data : list float) : bool := forallb is_finite data.

(** The sum of the data, in units of [2^(-1074)]. *)
Definition exact_sum (data : list float) : Z :=
  fold_right (fun x acc => match scaled_int x with Some v => v + acc | None => acc end) 0 data.

(** The sum of their squares, in units of [2^(-2148)]. *)
Definition exact_sum_sq (data : list float) : Z :=
  fold_right (fun x acc => match scaled_int x with Some v => v * v + acc | None => acc end) 0 data.

(** The float sum of the entries that are not finite, which decides the
    result when there is one. *)
Definition special_sum (data : list float) : option float :=
  fold_left (fun acc x =>
               if is_finite x then acc
               else match acc with
                    | None => Some x
                    | Some s => Some (s + x)%float
                    end) data None.

(** [statistics.mean(data)] *)
Definition mean (data : list float) : result float :=
  let n := Z.of_nat (List.length data) in
  if n <? 1 then raise StatisticsError "mean requires at least one data point"
  else match special_sum data with
       | Some total => nf <- float_of_int n ;; ret (total / nf)%float
       | None => int_truediv (exact_sum data) (n * 2 ^ 1074)
       end.

Definition bit_length (n : Z) : Z := if n =? 0 then 0 else Z.log2 (Z.abs n) + 1.

(** [_integer_sqrt_of_frac_rto]: the square root of [n/m] rounded to odd. *)
Definition _integer_sqrt_of_frac_rto (n m : Z) : Z :=
  let a := Z.sqrt (n / m) in
  Z.lor a (if a * a * m =? n then 0 else 1).

(** [_float_sqrt_of_frac]: the square root of [n/m] as a float. *)
Definition _float_sqrt_of_frac (n m : Z) : result float :=
  let q := (bit_length n - bit_length m - 109) / 2 in
  if 0 <=? q then
    int_truediv (Z.shiftl (_integer_sqrt_of_frac_rto n (Z.shiftl m (2 * q))) q) 1
  else
    int_truediv (_integer_sqrt_of_frac_rto (Z.shiftl n (- 2 * q)) m) (Z.shiftl 1 (- q)).

(** [statistics.stdev(data)]: the square root of the sample variance
    [(n * sum(x^2) - sum(x)^2) / (n * (n - 1))], the fraction in lowest
    terms. *)
Definition stdev (data : list float) : result float :=
  let n := Z.of_nat (List.length data) in
  if n <? 2 then raise StatisticsError "stdev requires at least two data points"
  else if negb (all_finite data) then raise ValueError "inf or nan encountered in data"
  else
    let sx := exact_sum data in
    let sxx := exact_sum_sq data in
    let num := n * sxx - sx * sx in
    let den := n * (n - 1) * 2 ^ 2148 in
    let g := Z.gcd num den in
    _float_sqrt_of_frac (num / g) (den / g).

End Statistics.

(* ================================================================== *)
(** * backend/services/anomaly_detector.py *)
(* ================================================================== *)

Module AnomalyDetector.
Import Py PyFloat.
Local Open Scope py_scope.

Record AnomalyResult := {
  is_anomaly : bool;
  anomaly_type : option string;
  current_value : float;
  mean : float;
  std_dev : float;
  z_score : float;
  message : string
}.

(** The detector: [__init__(std_threshold, lookback_days, velocity_threshold,
    min_history_size)]. *)
Record AnomalyDetector := {
  std_threshold : float;
  lookback_days : Z;
  velocity_threshold : float;
  min_history_size : Z
}.

(** The constructor's defaults. *)
Definition default_detector : AnomalyDetector :=
  {| std_threshold := 3%float; lookback_days := 30;
     velocity_threshold := 0.5%float; min_history_size := 5 |}.

(** [detect_value_anomaly].  The messages leave out the float renderings. *)
Definition detect_value_anomaly (self : AnomalyDetector) (current : float)
    (historical_values : list float) : result AnomalyResult :=
  let len := Z.of_nat (List.length historical_values) in
  if len <? min_history_size self then
    ret {| is_anomaly := false;
           anomaly_type := None;
           current_value := current;
           mean := current;
           std_dev := 0%float;
           z_score := 0%float;
           message := String.append "Insufficient history ("
                        (String.append (str_of_int len)
                           (String.append " < "
                              (String.append (str_of_int (min_history_size self)) ")"))) |}
  else
    mu <- Statistics.mean historical_values ;;
    sd <- Statistics.stdev historical_values ;;
    if (sd =? 0)%float then
      let anomalous := negb (current =? mu)%float in
      let z := if anomalous then infinity else 0%float in
      ret {| is_anomaly := anomalous;
             anomaly_type := if anomalous then Some "value_spike" else None;
             current_value := current;
             mean := mu;
             std_dev := 0%float;
             z_score := if negb (z =? infinity)%float then z else 999%float;
             message := "Value differs from constant" |}
    else
      let z := (abs (current - mu) / sd)%float in
      let anomalous := (std_threshold self <? z)%float in
      let direction := if (mu <? current)%float then "above" else "below" in
      ret {| is_anomaly := anomalous;
             anomaly_type := if anomalous then Some "value_spike" else None;
             current_value := current;
             mean := mu;
             std_dev := sd;
             z_score := z;
             message := String.append "Value is std devs " (String.append direction " mean") |}.

(** [detect_velocity_anomaly] *)
Definition detect_velocity_anomaly (self : AnomalyDetector) (current previous : float)
    (time_delta_hours : float) : AnomalyResult :=
  if (previous =? 0)%float then
    if (current =? 0)%float then
      {| is_anomaly := false;
         anomaly_type := None;
         current_value := current;
         mean := previous;
         std_dev := 0%float;
         z_score := 0%float;
         message := "Both values are zero" |}
    else
      {| is_anomaly := true;
         anomaly_type := Some "velocity";
         current_value := current;
         mean := previous;
         std_dev := 0%float;
         z_score := 999%float;
         message := "Value changed from 0" |}
  else
    let change_rate := (abs (current - previous) / abs previous)%float in
    let daily_change :=
      if (0 <? time_delta_hours)%float then (change_rate * (24 / time_delta_hours))%float
      else change_rate in
    let anomalous := (velocity_threshold self <? daily_change)%float in
    let velocity_ratio :=
      if (0 <? velocity_threshold self)%float then (daily_change / velocity_threshold self)%float
      else 0%float in
    let direction := if (previous <? current)%float then "increase" else "decrease" in
    {| is_anomaly := anomalous;
       anomaly_type := if anomalous then Some "velocity" else None;
       current_value := current;
       mean := previous;
       std_dev := 0%float;
       z_score := velocity_ratio;
       message := String.append "Daily " (String.append direction
                    (if anomalous then " rate exceeds threshold"
                     else " rate within threshold")) |}.

(** The [severity] property of a result. *)
Definition severity (r : AnomalyResult) : string :=
  if negb (is_anomaly r) then "normal"
  else if (5 <? z_score r)%float then "critical"
  else if (4 <? z_score r)%float then "high"
  else "medium".

End AnomalyDetector.

(* ================================================================== *)
(** * The outside world and the effect monad *)
(* ================================================================== *)

Module Env.
Import Py.

(** What one HTTP GET of the client yields. *)
Inductive HttpOutcome :=
| HttpOk (data : list BcbClient.Item)            (* a 2xx answer with a JSON body *)
| HttpStatusError (code : Z) (text : string)     (* [raise_for_status] raised *)
| HttpRequestError (msg : string)                (* the transport failed *)
| HttpInvalidJson (msg : string).                (* [response.json()] raised *)

(** What [contract.functions.getRate(rate_type).call()] yields. *)
Inductive CallOutcome :=
| Returned (answer timestamp real_world_date : Z)
| Reverted (msg : string)                        (* [ContractLogicError] *)
| CallRaised (e : Exn).                          (* any other failure of the call *)

(** The arguments of [batchUpdateRates]. *)
Record BatchPayload := {
  rate_types : list string;
  answers : list Z;
  dates : list Z;
  sources : list string
}.

Record Log := { topics : list string }.

Record Receipt := {
  receipt_status : Z;
  logs : list Log;
  blockNumber : Z;
  gasUsed : Z
}.

(** What building, signing, sending and awaiting the batch transaction
    yields. *)
Inductive TxOutcome :=
| TxNotSent (e : Exn)                            (* raised before the send *)
| TxSentNoReceipt (tx_hash : string) (e : Exn)   (* sent, the wait raised *)
| TxMined (tx_hash : string) (receipt : Receipt).

(** The behaviour of everything outside the process.  Each call to the
    outside advances [tick]; what a call yields may depend on it. *)
Record Outside := {
  http : nat -> string -> HttpOutcome;
  getRate : nat -> string -> CallOutcome;
  batch_tx : nat -> BatchPayload -> TxOutcome;
  clock : nat -> Z;
  updater_init : option Exn       (* what [OracleUpdater()] raises, if anything *)
}.

(** The state a run changes: the call counter, the database file and the
    batches handed to the chain, oldest first. *)
Record State := {
  tick : nat;
  db : DataStore.DB;
  sent : list BatchPayload
}.

(** Computations over a state [S] that read the outside and may raise; the
    state reached when an exception is raised is kept. *)
Definition M (S A : Type) : Type := Outside -> S -> result A * S.

Definition mret {S A} (a : A) : M S A := fun _ s => (inr a, s).
Definition mraise {S A} (e : Exn) : M S A := fun _ s => (inl e, s).
Definition mbind {S A B} (m : M S A) (k : A -> M S B) : M S B :=
  fun o s => match m o s with
             | (inr a, s') => k a o s'
             | (inl e, s') => (inl e, s')
             end.

(** [try: m except <handles>: h e]; exceptions the clause does not name
    propagate. *)
Definition try_except {S A} (m : M S A) (handles : Exn -> bool) (h : Exn -> M S A) : M S A :=
  fun o s => match m o s with
             | (inr a, s') => (inr a, s')
             | (inl e, s') => if handles e then h e o s' else (inl e, s')
             end.

Definition lift_result {S A} (r : result A) : M S A := fun _ s => (r, s).
Definition get {S} : M S S := fun _ s => (inr s, s).
Definition modify {S} (f : S -> S) : M S unit := fun _ s => (inr tt, f s).

(** Run a computation on a component of the state. *)
Definition zoom {S T A} (proj : S -> T) (upd : T -> S -> S) (m : M T A) : M S A :=
  fun o s => let '(r, t') := m o (proj s) in (r, upd t' s).

Definition set_db (d : DataStore.DB) (s : State) : State :=
  {| tick := tick s; db := d; sent := sent s |}.

Definition set_tick (n : nat) (s : State) : State :=
  {| tick := n; db := db s; sent := sent s |}.

(** Run a computation of the HTTP client in the whole state. *)
Definition in_http {A} (m : M nat A) : M State A := zoom tick set_tick m.

Definition next_tick (s : State) : State :=
  {| tick := S (tick s); db := db s; sent := sent s |}.

Definition record_sent (p : BatchPayload) (s : State) : State :=
  {| tick := tick s; db := db s; sent := sent s ++ [p] |}.

(** [datetime.now()] *)
Definition now : M State Z := fun o s => (inr (clock o (tick s)), s).

(** A data-store call: it reads the clock and rewrites the database. *)
Definition db_call {A} (f : Z -> DataStore.DB -> DataStore.DB * A) : M State A :=
  fun o s => let '(d, a) := f (clock o (tick s)) (db s) in (inr a, set_db d s).

Definition db_query {A} (f : Z -> DataStore.DB -> A) : M State A :=
  fun o s => (inr (f (clock o (tick s)) (db s)), s).

(** [keeps R m]: whatever [m] returns or raises, the state it ends in is
    related by [R] to the state it started in. *)
Definition keeps {S : Type} (R : S -> S -> Prop) {A} (m : M S A) : Prop :=
  forall o s, R s (snd (m o s)).

End Env.

Declare Scope m_scope.
Delimit Scope m_scope with M.
Notation "x <- m ;; k" := (Env.mbind m (fun x => k))
  (at level 100, m at next level, right associativity) : m_scope.
Notation "' p <- m ;; k" := (Env.mbind m (fun p => k))
  (at level 100, p pattern, m at next level, right associativity) : m_scope.

(* ================================================================== *)
(** * backend/bcb_client.py: requests and the public fetch operations *)
(* ================================================================== *)

Module BcbFetch.
Import Py BcbClient Env.
Local Open Scope m_scope.

(** [_request].  The client only talks to the HTTP API: its state is the
    call counter. *)
Definition _request (url : string) : M nat (list Item) :=
  fun o n =>
    match http o n url with
    | HttpOk data =>
        match data with
        | [] => (raise BCBNoDataError (String.append "Empty response from BCB API: " url), S n)
        | _ => (ret data, S n)
        end
    | HttpStatusError code text =>
        (raise BCBAPIError
           (String.append "BCB API HTTP "
              (String.append (str_of_int code) (String.append ": " text))), S n)
    | HttpRequestError msg =>
        (raise BCBAPIError (String.append "BCB API request failed: " msg), S n)
    | HttpInvalidJson msg =>
        (raise BCBParseError (String.append "Invalid JSON from BCB API: " msg), S n)
    end.

(** [fetch_latest] *)
Definition fetch_latest (self : BCBClient) (rt : RateType) : M nat RateData :=
  let url := _build_url rt (Some 1) None None in
  data <- _request url ;;
  results <- lift_result (_process_response self data rt) ;;
  match results with
  | [] => mraise (mkExn BCBNoDataError (String.append "No valid data for " (value rt)))
  | r :: _ => mret r
  end.

(** [fetch_history] *)
Definition fetch_history (self : BCBClient) (rt : RateType) (count : Z)
  : M nat (list RateData) :=
  let url := _build_url rt (Some count) None None in
  data <- _request url ;;
  lift_result (_process_response self data rt).

(** A [dict] keyed by rate type, in insertion order. *)
Definition RateDict : Type := list (RateType * RateData).

Definition RateType_eqb (a b : RateType) : bool :=
  match a, b with
  | IPCA, IPCA | CDI, CDI | SELIC, SELIC | PTAX, PTAX | IGPM, IGPM | TR, TR => true
  | _, _ => false
  end.

(** [d[k] = v]: an existing key keeps its place. *)
Fixpoint dict_set (k : RateType) (v : RateData) (d : RateDict) : RateDict :=
  match d with
  | [] => [(k, v)]
  | (k', v') :: r => if RateType_eqb k k' then (k, v) :: r else (k', v') :: dict_set k v r
  end.

Definition dict_values (d : RateDict) : list RateData := map snd d.
Definition dict_keys (d : RateDict) : list RateType := map fst d.

(** The loop of [fetch_all_latest] over the rate types still to visit. *)
Fixpoint fetch_all_loop (self : BCBClient) (todo : list RateType) (results : RateDict)
  : M nat RateDict :=
  match todo with
  | [] => mret results
  | rt :: rest =>
      results' <- try_except
                    (r <- fetch_latest self rt ;; mret (dict_set rt r results))
                    is_BCBClientError
                    (fun _ => mret results) ;;
      fetch_all_loop self rest results'
  end.

(** [fetch_all_latest] *)
Definition fetch_all_latest (self : BCBClient) : M nat RateDict :=
  fetch_all_loop self all_rate_types [].

(** The names the body of [class BCBClient] binds; looking up any other
    attribute on a client raises [AttributeError]. *)
Definition BCBClient_attributes : list string :=
  ["BASE_URL"; "TIMEOUT"; "__init__"; "__aenter__"; "__aexit__"; "_get_client";
   "close"; "_build_url"; "_parse_bcb_date"; "_scale_to_chainlink";
   "_validate_value"; "_process_response"; "_request"; "fetch_latest";
   "fetch_history"; "fetch_date_range"; "fetch_all_latest"; "health_check";
   "get_rate_config"; "get_all_rate_configs"; "timeout"; "validate"; "_client"].

Definition hasattr (name : string) : bool :=
  existsb (String.eqb name) BCBClient_attributes.

(** [fetch_date_range] *)
Definition fetch_date_range (self : BCBClient) (rt : RateType)
    (start_date end_date : datetime) : M nat (list RateData) :=
  let start_str := strftime_dmy start_date in
  let end_str := strftime_dmy end_date in
  let url := _build_url rt None (Some start_str) (Some end_str) in
  data <- _request url ;;
  lift_result (_process_response self data rt).

(** [health_check] *)
Definition health_check (self : BCBClient) : M nat bool :=
  try_except (_ <- fetch_latest self CDI ;; mret true)
    is_BCBClientError
    (fun _ => mret false).

End BcbFetch.

(* ================================================================== *)
(** * backend/oracle_updater.py *)
(* ================================================================== *)

Module OracleUpdater.
Import Py PyFloat BcbClient Env BcbFetch.
Local Open Scope m_scope.

Definition PRECISION : Z := 10 ^ CHAINLINK_DECIMALS.

(** The [details] dictionaries the updater builds. *)
Inductive Details :=
| DetailsReason (reason : string)
| DetailsSkipped (skipped : list string)
| DetailsBatch (updated skipped : list string) (url : string).

Record UpdateResult := {
  success : bool;
  rates_updated : Z;
  rates_skipped : Z;
  tx_hash : option string;
  block : option Z;
  gas_used : option Z;
  error : option string;
  details : option Details
}.

(** [UpdateResult(success=False, error=msg)], the other fields at their
    defaults. *)
Definition failure (msg : string) : UpdateResult :=
  {| success := false; rates_updated := 0; rates_skipped := 0; tx_hash := None;
     block := None; gas_used := None; error := Some msg; details := None |}.

(** The dictionary [get_current_rate] returns. *)
Record CurrentRate := {
  cr_rate_type : string;
  cr_answer : Z;
  cr_timestamp : Z;
  cr_real_world_date : Z;
  value_percent : float
}.

(** [get_current_rate]: [None] on [ContractLogicError], any other exception
    passes through. *)
Definition get_current_rate (rate_type : string) : M State (option CurrentRate) :=
  fun o s =>
    let s' := next_tick s in
    match getRate o (tick s) rate_type with
    | Returned a t d =>
        match int_truediv a PRECISION with
        | inr vp => (inr (Some {| cr_rate_type := rate_type; cr_answer := a;
                                  cr_timestamp := t; cr_real_world_date := d;
                                  value_percent := vp |}), s')
        | inl e => (inl e, s')
        end
    | Reverted _ => (inr None, s')
    | CallRaised e => (inl e, s')
    end.

(** The decision of [check_needs_update] once the current rate is read. *)
Definition needs_update (current : option CurrentRate) (rate_data : RateData)
  : bool * string :=
  match current with
  | None => (true, "no_existing_data")
  | Some cur =>
      let d := real_world_date rate_data in
      let c := cr_real_world_date cur in
      if c =? d then
        (false, String.append "same_date:" (str_of_int d))
      else if d <? c then
        (false, String.append "bcb_data_older:"
                  (String.append (str_of_int d) (String.append "<" (str_of_int c))))
      else
        (true, String.append "new_date:"
                 (String.append (str_of_int c) (String.append "->" (str_of_int d))))
  end.

(** [check_needs_update] *)
Definition check_needs_update (rate_data : RateData) : M State (bool * string) :=
  current <- get_current_rate (value (rate_type rate_data)) ;;
  mret (needs_update current rate_data).

(** The pre-check loop of [sync_all_rates]. *)
Fixpoint precheck (force : bool) (rates : list RateData)
    (to_update : list RateData) (to_skip : list (string * string))
  : M State (list RateData * list (string * string)) :=
  match rates with
  | [] => mret (to_update, to_skip)
  | rate_data :: rest =>
      ' (needed, reason) <- check_needs_update rate_data ;;
      if needed || force
      then precheck force rest (to_update ++ [rate_data]) to_skip
      else precheck force rest to_update
             (to_skip ++ [(value (rate_type rate_data), reason)])
  end.

(** The four parallel lists of the batch call, over every fetched rate. *)
Definition batch_payload (rates : list RateData) : BatchPayload :=
  {| rate_types := map (fun r => value (rate_type r)) rates;
     answers := map answer rates;
     dates := map real_world_date rates;
     sources := map source rates |}.

(** [[log for log in receipt["logs"] if len(log["topics"]) > 0]] *)
Definition rate_updated_events (receipt : Receipt) : list Log :=
  filter (fun l => 0 <? Z.of_nat (List.length (topics l))) (logs receipt).

Definition len {A} (l : list A) : Z := Z.of_nat (List.length l).

(** The [try] block of [sync_all_rates]: the transaction and the result
    built from its receipt.  [actual_updated] is computed and not used. *)
Definition send_batch (rates : list RateData) (to_update : list RateData)
    (to_skip : list (string * string)) : M State UpdateResult :=
  fun o s =>
    let payload := batch_payload rates in
    let s' := next_tick s in
    match batch_tx o (tick s) payload with
    | TxNotSent e => (inr (failure (exn_msg e)), s')
    | TxSentNoReceipt _ e => (inr (failure (exn_msg e)), record_sent payload s')
    | TxMined h receipt =>
        let ok := receipt_status receipt =? 1 in
        let actual_updated := len (rate_updated_events receipt) in
        (inr {| success := ok;
                rates_updated := if ok then len to_update else 0;
                rates_skipped := len to_skip;
                tx_hash := Some h;
                block := Some (blockNumber receipt);
                gas_used := Some (gasUsed receipt);
                error := if ok then None else Some "Transaction reverted";
                details := Some (DetailsBatch
                                   (map (fun r => value (rate_type r)) to_update)
                                   (map fst to_skip)
                                   (String.append "https://sepolia.arbiscan.io/tx/" h)) |},
         record_sent payload s')
    end.

(** [sync_all_rates] *)
Definition sync_all_rates (force : bool) : M State UpdateResult :=
  rates <- in_http (fetch_all_latest new_BCBClient) ;;
  match rates with
  | [] => mret (failure "No rates fetched from BCB")
  | _ =>
      ' (to_update, to_skip) <- precheck force (dict_values rates) [] [] ;;
      match to_update with
      | [] => mret {| success := true; rates_updated := 0;
                      rates_skipped := len to_skip; tx_hash := None;
                      block := None; gas_used := None; error := None;
                      details := Some (DetailsSkipped (map fst to_skip)) |}
      | _ => send_batch (dict_values rates) to_update to_skip
      end
  end.

(** [OracleUpdater()]: the constructor reads the environment and the ABI
    file and may raise. *)
Definition new_OracleUpdater : M State unit :=
  fun o s => match updater_init o with
             | Some e => (inl e, s)
             | None => (inr tt, s)
             end.

(** [d[k] = v] on a [dict] with [str] keys: an existing key keeps its
    place. *)
Fixpoint str_dict_set {A} (k : string) (v : A) (d : list (string * A)) : list (string * A) :=
  match d with
  | [] => [(k, v)]
  | (k', v') :: r => if String.eqb k k' then (k, v) :: r else (k', v') :: str_dict_set k v r
  end.

(** The loop of [get_all_current_rates]; a rate the contract does not hold
    ([None]) is left out. *)
Fixpoint current_rates_loop (todo : list RateType) (results : list (string * CurrentRate))
  : M State (list (string * CurrentRate)) :=
  match todo with
  | [] => mret results
  | rt :: rest =>
      rate <- get_current_rate (value rt) ;;
      match rate with
      | Some r => current_rates_loop rest (str_dict_set (value rt) r results)
      | None => current_rates_loop rest results
      end
  end.

(** [get_all_current_rates] *)
Definition get_all_current_rates : M State (list (string * CurrentRate)) :=
  current_rates_loop all_rate_types [].

(** [UpdateResult(success=True, rates_updated=0, rates_skipped=1,
    details={"reason": reason})] *)
Definition skipped_one (reason : string) : UpdateResult :=
  {| success := true; rates_updated := 0; rates_skipped := 1; tx_hash := None;
     block := None; gas_used := None; error := None;
     details := Some (DetailsReason reason) |}.

Section SingleUpdate.

(** What building, signing, sending and awaiting the [updateRate]
    transaction yields, at a given call count, for its four arguments. *)
Variable update_tx : nat -> string -> Z -> Z -> string -> TxOutcome.

(** [_send_single_update]: every exception of the [try] block becomes a
    failed result. *)
Definition _send_single_update (rate_data : RateData) : M State UpdateResult :=
  fun o s =>
    let s' := next_tick s in
    match update_tx (tick s) (value (rate_type rate_data)) (answer rate_data)
            (real_world_date rate_data) (source rate_data) with
    | TxNotSent e => (inr (failure (exn_msg e)), s')
    | TxSentNoReceipt _ e => (inr (failure (exn_msg e)), s')
    | TxMined h receipt =>
        let ok := receipt_status receipt =? 1 in
        (inr {| success := ok;
                rates_updated := if ok then 1 else 0;
                rates_skipped := 0;
                tx_hash := Some h;
                block := Some (blockNumber receipt);
                gas_used := Some (gasUsed receipt);
                error := if ok then None else Some "Transaction reverted";
                details := None |}, s')
    end.

(** [sync_rate] *)
Definition sync_rate (rt : RateType) (force : bool) : M State UpdateResult :=
  rate_data <- in_http (fetch_latest new_BCBClient rt) ;;
  if negb force then
    ' (needed, reason) <- check_needs_update rate_data ;;
    if negb needed then mret (skipped_one reason)
    else _send_single_update rate_data
  else _send_single_update rate_data.

End SingleUpdate.

End OracleUpdater.

(* ================================================================== *)
(** * backend/scheduler.py *)
(* ================================================================== *)

Module Scheduler.
Import Py PyFloat BcbClient Env BcbFetch.
Local Open Scope m_scope.

(** The fields of [config.Settings] the scheduler reads. *)
Record Settings := {
  bcb_max_retries : Z;
  bcb_retry_base_delay : float;
  bcb_retry_max_delay : float;
  anomaly_std_threshold : float;
  anomaly_lookback_days : Z;
  anomaly_velocity_threshold : float
}.

Definition default_settings : Settings :=
  {| bcb_max_retries := 3;
     bcb_retry_base_delay := 1%float;
     bcb_retry_max_delay := 60%float;
     anomaly_std_threshold := 3%float;
     anomaly_lookback_days := 30;
     anomaly_velocity_threshold := 0.5%float |}.

Record RateScheduler := {
  settings : Settings;
  anomaly_detector : AnomalyDetector.AnomalyDetector
}.

(** [RateScheduler(settings)]: the detector is built from the settings, its
    [min_history_size] at the default. *)
Definition new_RateScheduler (st : Settings) : RateScheduler :=
  {| settings := st;
     anomaly_detector :=
       {| AnomalyDetector.std_threshold := anomaly_std_threshold st;
          AnomalyDetector.lookback_days := anomaly_lookback_days st;
          AnomalyDetector.velocity_threshold := anomaly_velocity_threshold st;
          AnomalyDetector.min_history_size := 5 |} |}.

Definition DAILY_RATES : list RateType := [CDI; SELIC; PTAX; TR].
Definition MONTHLY_RATES : list RateType := [IPCA; IGPM].

(** The [results] dictionary of [_update_rates]. *)
Record Results := {
  success : bool;
  rates_updated : Z;
  rates_skipped : Z;
  rates_failed : Z;
  anomalies_detected : Z;
  tx_hash : option string;
  error : option string
}.

Definition initial_results : Results :=
  {| success := false; rates_updated := 0; rates_skipped := 0; rates_failed := 0;
     anomalies_detected := 0; tx_hash := None; error := None |}.

Definition incr_rates_failed (r : Results) : Results :=
  {| success := success r; rates_updated := rates_updated r;
     rates_skipped := rates_skipped r; rates_failed := rates_failed r + 1;
     anomalies_detected := anomalies_detected r; tx_hash := tx_hash r;
     error := error r |}.

Definition incr_anomalies_detected (r : Results) : Results :=
  {| success := success r; rates_updated := rates_updated r;
     rates_skipped := rates_skipped r; rates_failed := rates_failed r;
     anomalies_detected := anomalies_detected r + 1; tx_hash := tx_hash r;
     error := error r |}.

Definition set_error (msg : string) (r : Results) : Results :=
  {| success := success r; rates_updated := rates_updated r;
     rates_skipped := rates_skipped r; rates_failed := rates_failed r;
     anomalies_detected := anomalies_detected r; tx_hash := tx_hash r;
     error := Some msg |}.

(** The assignments from [oracle_result]; [error] is copied when truthy. *)
Definition set_oracle_result (u : OracleUpdater.UpdateResult) (r : Results) : Results :=
  {| success := OracleUpdater.success u;
     rates_updated := OracleUpdater.rates_updated u;
     rates_skipped := OracleUpdater.rates_skipped u;
     rates_failed := rates_failed r;
     anomalies_detected := anomalies_detected r;
     tx_hash := OracleUpdater.tx_hash u;
     error := match OracleUpdater.error u with
              | Some msg => if String.eqb msg "" then error r else Some msg
              | None => error r
              end |}.

(** The state of one run: the [results] dictionary and the world. *)
Record Run := { results : Results; world : State }.

Definition in_world {A} (m : M State A) : M Run A :=
  zoom world (fun w r => {| results := results r; world := w |}) m.

Definition update_results (f : Results -> Results) : M Run unit :=
  modify (fun r => {| results := f (results r); world := world r |}).

(** The class of the client the scheduler instantiates, as far as the
    attribute [fetch_with_retry] goes: the method, when the class has one. *)
Record ClientClass := {
  fetch_with_retry :
    option (BCBClient -> RateType -> Z -> float -> float -> M nat RateData)
}.

(** [class BCBClient] of backend/bcb_client.py defines no [fetch_with_retry]. *)
Definition BCBClient_class : ClientClass := {| fetch_with_retry := None |}.

(** [bcb.fetch_with_retry(rate_type, max_retries=..., base_delay=...,
    max_delay=...)] *)
Definition call_fetch_with_retry (cls : ClientClass) (bcb : BCBClient) (rt : RateType)
    (max_retries : Z) (base_delay max_delay : float) : M nat RateData :=
  match fetch_with_retry cls with
  | Some method => method bcb rt max_retries base_delay max_delay
  | None => mraise (mkExn AttributeError
                      "'BCBClient' object has no attribute 'fetch_with_retry'")
  end.

(** The fetch loop: a [BCBClientError] counts the rate as failed, any other
    exception leaves the loop. *)
Fixpoint fetch_loop (cls : ClientClass) (self : RateScheduler) (bcb : BCBClient)
    (todo : list RateType) (fetched_rates : RateDict) : M Run RateDict :=
  match todo with
  | [] => mret fetched_rates
  | rt :: rest =>
      fetched' <- try_except
                    (rate_data <- in_world (in_http
                                    (call_fetch_with_retry cls bcb rt
                                       (bcb_max_retries (settings self))
                                       (bcb_retry_base_delay (settings self))
                                       (bcb_retry_max_delay (settings self)))) ;;
                     mret (dict_set rt rate_data fetched_rates))
                    is_BCBClientError
                    (fun _ => _ <- update_results incr_rates_failed ;; mret fetched_rates) ;;
      fetch_loop cls self bcb rest fetched'
  end.

(** One round of the anomaly-and-store loop. *)
Definition check_and_store (self : RateScheduler) (rt : RateType) (rate_data : RateData)
  : M Run unit :=
  history <- in_world (db_query (DataStore.get_rate_history (value rt)
                                   (anomaly_lookback_days (settings self)))) ;;
  let historical_values := map DataStore.raw_value history in
  _ <- match historical_values with
       | [] => mret tt
       | _ =>
           anomaly_result <- lift_result
                               (AnomalyDetector.detect_value_anomaly
                                  (anomaly_detector self) (raw_value rate_data)
                                  historical_values) ;;
           if AnomalyDetector.is_anomaly anomaly_result then
             _ <- update_results incr_anomalies_detected ;;
             match AnomalyDetector.anomaly_type anomaly_result with
             | None => mraise (mkExn RuntimeError
                                 "NOT NULL constraint failed: anomalies.anomaly_type")
             | Some kind =>
                 let mu := AnomalyDetector.mean anomaly_result in
                 let spread := (AnomalyDetector.std_dev anomaly_result
                                * anomaly_std_threshold (settings self))%float in
                 _ <- in_world (db_call (DataStore.log_anomaly (value rt) kind
                                           (raw_value rate_data)
                                           (mu - spread)%float (mu + spread)%float
                                           (AnomalyDetector.z_score anomaly_result)
                                           (AnomalyDetector.message anomaly_result))) ;;
                 mret tt
             end
           else mret tt
       end ;;
  _ <- in_world (db_call (DataStore.store_rate rate_data)) ;;
  mret tt.

Fixpoint check_and_store_all (self : RateScheduler) (items : RateDict) : M Run unit :=
  match items with
  | [] => mret tt
  | (rt, rate_data) :: rest =>
      _ <- check_and_store self rt rate_data ;;
      check_and_store_all self rest
  end.

(** One [log_oracle_update] per fetched rate type. *)
Fixpoint log_oracle_updates (keys : list RateType) (tx : option string)
    (blk gas : option Z) (st : string) (err : option string) : M Run unit :=
  match keys with
  | [] => mret tt
  | rt :: rest =>
      _ <- in_world (db_call (fun t => DataStore.log_oracle_update (value rt) tx blk gas st err t)) ;;
      log_oracle_updates rest tx blk gas st err
  end.

(** The inner [try] ... [except Exception] around the oracle update. *)
Definition update_oracle (fetched_rates : RateDict) : M Run unit :=
  try_except
    (_ <- in_world OracleUpdater.new_OracleUpdater ;;
     oracle_result <- in_world (OracleUpdater.sync_all_rates false) ;;
     _ <- update_results (set_oracle_result oracle_result) ;;
     log_oracle_updates (dict_keys fetched_rates)
       (OracleUpdater.tx_hash oracle_result)
       (OracleUpdater.block oracle_result)
       (OracleUpdater.gas_used oracle_result)
       (if OracleUpdater.success oracle_result then "success" else "failed")
       (OracleUpdater.error oracle_result))
    (fun _ => true)
    (fun e =>
       _ <- update_results (set_error (exn_msg e)) ;;
       log_oracle_updates (dict_keys fetched_rates) None None None "failed"
         (Some (exn_msg e))).

Definition job_id_of (update_type : string) : string := String.append update_type "_rates".

(** The body of the outer [try] of [_update_rates]. *)
Definition update_rates_body (cls : ClientClass) (self : RateScheduler)
    (rate_types : list RateType) (update_type : string) : M Run unit :=
  fetched_rates <- fetch_loop cls self new_BCBClient rate_types [] ;;
  match fetched_rates with
  | [] =>
      let error_msg := "No rates fetched from BCB" in
      _ <- update_results (set_error error_msg) ;;
      in_world (db_call (fun t d =>
                  (DataStore.update_scheduler_run (job_id_of update_type) t "failed"
                     0 0 (Some error_msg) d, tt)))
  | _ =>
      _ <- check_and_store_all self fetched_rates ;;
      _ <- update_oracle fetched_rates ;;
      r <- get ;;
      in_world (db_call (fun t d =>
                  (DataStore.update_scheduler_run (job_id_of update_type) t
                     (if success (results r) then "completed" else "failed")
                     (OracleUpdater.len rate_types)
                     (rates_updated (results r))
                     (error (results r)) d, tt)))
  end.

(** [_update_rates]: the run is logged as running, the body runs, and any
    exception it lets through closes the run as failed. *)
Definition update_rates_run (cls : ClientClass) (self : RateScheduler)
    (rate_types : list RateType) (update_type : string) : M Run unit :=
  _ <- in_world (db_call (fun t => DataStore.log_scheduler_run (job_id_of update_type) t "running")) ;;
  try_except (update_rates_body cls self rate_types update_type)
    (fun _ => true)
    (fun e =>
       _ <- update_results (set_error (exn_msg e)) ;;
       in_world (db_call (fun t d =>
                   (DataStore.update_scheduler_run (job_id_of update_type) t "failed"
                      0 0 (Some (exn_msg e)) d, tt)))).

(** The state in which the outer [try] is entered: [results] initialised
    and the run logged as running. *)
Definition run_started (update_type : string) (o : Outside) (s : State) : Run :=
  snd (in_world (db_call (fun t => DataStore.log_scheduler_run (job_id_of update_type) t "running"))
         o {| results := initial_results; world := s |}).

Definition _update_rates (cls : ClientClass) (self : RateScheduler)
    (rate_types : list RateType) (update_type : string)
    (o : Outside) (s : State) : Results * State :=
  let '(_, r) := update_rates_run cls self rate_types update_type o
                   {| results := initial_results; world := s |} in
  (results r, world r).

(** [update_daily_rates], [update_monthly_rates], [update_all_rates] with
    the client class of the sources. *)
Definition update_daily_rates (self : RateScheduler) :=
  _update_rates BCBClient_class self DAILY_RATES "daily".
Definition update_monthly_rates (self : RateScheduler) :=
  _update_rates BCBClient_class self MONTHLY_RATES "monthly".
Definition update_all_rates (self : RateScheduler) :=
  _update_rates BCBClient_class self all_rate_types "all".

(** What the anomaly-and-store loop leaves alone: the failure count and the
    success flag of [results], the table of scheduler runs, the batches
    sent and the call counter. *)
Definition quiet (r r' : Run) : Prop :=
  rates_failed (results r') = rates_failed (results r) /\
  success (results r') = success (results r) /\
  DataStore.scheduler_runs (db (world r')) = DataStore.scheduler_runs (db (world r)) /\
  sent (world r') = sent (world r) /\
  tick (world r') = tick (world r).

(** What the whole body after the fetch loop leaves alone. *)
Definition steady (r r' : Run) : Prop :=
  rates_failed (results r') = rates_failed (results r) /\
  DataStore.scheduler_runs (db (world r')) = DataStore.scheduler_runs (db (world r)).

(** What the fetch loop leaves alone: the database, the batches sent and
    every field of [results] but the failure count. *)
Definition fetching (r r' : Run) : Prop :=
  db (world r') = db (world r) /\
  sent (world r') = sent (world r) /\
  success (results r') = success (results r) /\
  rates_updated (results r') = rates_updated (results r) /\
  rates_skipped (results r') = rates_skipped (results r) /\
  anomalies_detected (results r') = anomalies_detected (results r) /\
  tx_hash (results r') = tx_hash (results r) /\
  error (results r') = error (results r).

End Scheduler.

(* ================================================================== *)
(** * Concrete inputs and worlds used by the examples below *)
(* ================================================================== *)

Module Fixtures.
Import Py PyFloat BcbClient Env BcbFetch.

(** A candidate dated 2024-11-27 against an on-chain record dated
    2024-11-26. *)
Definition cdi_candidate : RateData :=
  {| rate_type := CDI; answer := 1115000000; raw_value := 11.15%float;
     rd_decimals := 8; real_world_date := 20241127;
     real_world_date_str := "27/11/2024";
     timestamp := {| dt_year := 2024; dt_month := 11; dt_day := 27 |};
     source := "BCB-12"; rd_description := description (RATE_CONFIGS CDI) |}.

Definition quiet_outside : Outside :=
  {| http := fun _ _ => HttpRequestError "unreachable";
     getRate := fun _ _ => Returned 1090000000 1732650000 20241126;
     batch_tx := fun _ _ => TxNotSent (mkExn RuntimeError "no transaction");
     clock := fun n => 1732700000 + Z.of_nat n;
     updater_init := None |}.

Definition fresh_state : State := {| tick := 0; db := DataStore.empty_db; sent := [] |}.

(** The same observation after a correction of its value. *)
Definition cdi_corrected : RateData :=
  {| rate_type := CDI; answer := 1116000000; raw_value := 11.16%float;
     rd_decimals := 8; real_world_date := 20241127;
     real_world_date_str := "27/11/2024";
     timestamp := {| dt_year := 2024; dt_month := 11; dt_day := 27 |};
     source := "BCB-12"; rd_description := description (RATE_CONFIGS CDI) |}.

(** A record of the BCB answer: [{"data": d, "valor": v}]. *)
Definition record (d v : string) : Item :=
  ItemDict [("data", PyStr d); ("valor", PyStr v)].

Definition good_record : Item := record "26/11/2024" "10,90".
Definition later_record : Item := record "27/11/2024" "11.15".
Definition bad_value_record : Item := record "28/11/2024" "n/a".
Definition too_high_record : Item := record "28/11/2024" "51,00".

(** A client built with [validate=False]. *)
Definition unvalidated_client : BCBClient := {| timeout := TIMEOUT; validate := false |}.

(** The two histories of the specification's examples. *)
Definition constant_history : list float := [10; 10; 10; 10; 10]%float.
Definition steady_history : list float := [10.0; 10.2; 10.1; 10.3; 10.0]%float.

(** A world in which the first two requests (IPCA, CDI) are answered and the
    rest fail, the chain holds no rate yet, and the batch transaction is
    mined successfully with a single event in its receipt. *)
Definition one_event_outside : Outside :=
  {| http := fun n _ => if (n <? 2)%nat then HttpOk [good_record]
                        else HttpRequestError "connection reset";
     getRate := fun _ _ => Reverted "rate not found";
     batch_tx := fun _ _ =>
       TxMined "0xabc" {| receipt_status := 1;
                          logs := [ {| topics := ["RateUpdated"] |} ];
                          blockNumber := 7;
                          gasUsed := 210000 |};
     clock := fun n => 1732700000 + Z.of_nat n;
     updater_init := None |}.

(** A client class whose [fetch_with_retry] makes a single [fetch_latest]
    attempt: it stands for a class that supplies the method. *)
Definition single_attempt_class : Scheduler.ClientClass :=
  {| Scheduler.fetch_with_retry := Some (fun self rt _ _ _ => fetch_latest self rt) |}.

(** A world whose HTTP API drops the second and the fifth request and
    answers all others, whose chain holds no rate yet, and whose batch
    transaction is mined with the given receipt status. *)
Definition flaky_outside (receipt_status : Z) : Outside :=
  {| http := fun n _ => if (n =? 1)%nat || (n =? 4)%nat
                        then HttpRequestError "read timeout"
                        else HttpOk [good_record];
     getRate := fun _ _ => Reverted "rate not found";
     batch_tx := fun _ _ =>
       TxMined "0xdef" {| Env.receipt_status := receipt_status;
                          logs := [];
                          blockNumber := 9;
                          gasUsed := 350000 |};
     clock := fun n => 1732700000 + Z.of_nat n;
     updater_init := None |}.

Definition default_scheduler : Scheduler.RateScheduler :=
  Scheduler.new_RateScheduler Scheduler.default_settings.


(** Records whose value is a NaN, or too large to be scaled. *)
Definition nan_record : Item := record "28/11/2024" "nan".
Definition overflow_record : Item := record "28/11/2024" "1e308".

(** A world whose API lists two records, the older first, and whose chain
    holds a CDI rate dated 2024-11-26. *)
Definition two_records_outside : Outside :=
  {| http := fun _ _ => HttpOk [good_record; later_record];
     getRate := fun _ _ => Returned 1090000000 1732650000 20241126;
     batch_tx := fun _ _ => TxNotSent (mkExn RuntimeError "no transaction");
     clock := fun n => 1732700000 + Z.of_nat n;
     updater_init := None |}.

(** A world in step: the API lists the record of 2024-11-26 and the chain
    holds a rate of that date. *)
Definition synced_outside : Outside :=
  {| http := fun _ _ => HttpOk [good_record];
     getRate := fun _ _ => Returned 1090000000 1732650000 20241126;
     batch_tx := fun _ _ => TxNotSent (mkExn RuntimeError "no transaction");
     clock := fun n => 1732700000 + Z.of_nat n;
     updater_init := None |}.

(** An [updateRate] transaction that is mined and succeeds. *)
Definition mined_update : nat -> string -> Z -> Z -> string -> TxOutcome :=
  fun _ _ _ _ _ => TxMined "0x123" {| receipt_status := 1; logs := [];
                                      blockNumber := 11; gasUsed := 90000 |}.

(** A world whose API answers the second request (CDI) with a value too
    large to be scaled, and all others with a good record. *)
Definition overflow_outside : Outside :=
  {| http := fun n _ => if (n =? 1)%nat then HttpOk [overflow_record]
                        else HttpOk [good_record];
     getRate := fun _ _ => Reverted "rate not found";
     batch_tx := fun _ _ => TxNotSent (mkExn RuntimeError "no transaction");
     clock := fun n => 1732700000 + Z.of_nat n;
     updater_init := None |}.

(** A database holding a week of CDI observations, all of 10.90, as the
    client processes them and the store writes them. *)
Definition week_of_cdi : list RateData :=
  processed new_BCBClient CDI
    [record "19/11/2024" "10,90"; record "20/11/2024" "10,90";
     record "21/11/2024" "10,90"; record "22/11/2024" "10,90";
     record "25/11/2024" "10,90"].

Definition week_state : State :=
  {| tick := 0;
     db := DataStore.run_ops
             (map (fun rd => (1732600000, DataStore.OpStoreRate rd)) week_of_cdi)
             DataStore.empty_db;
     sent := [] |}.

End Fixtures.

(* ================================================================== *)
(** * Properties of the oracle updater *)
(* ================================================================== *)

Module OracleUpdaterProofs.
Import Py PyFloat BcbClient Env BcbFetch OracleUpdater Fixtures.





(** On a mined, successful batch the result reports the pre-checked
    count. *)
Lemma send_batch_reports_prechecked (rates to_update : list RateData)
    (to_skip : list (string * string)) (o : Outside) (s : State)
    (h : string) (receipt : Receipt) :
  batch_tx o (tick s) (batch_payload rates) = TxMined h receipt ->
  receipt_status receipt = 1 ->
  exists u s', send_batch rates to_update to_skip o s = (inr u, s') /\
               success u = true /\ rates_updated u = len to_update.
Proof.
  intros Tx St. unfold send_batch. rewrite Tx, St. simpl.
  eexists. eexists. split; [reflexivity | ]. split; reflexivity.
Qed.

(** C9 (the code departs from the claim).  In a world where two rates are
    fetched, both pass the pre-check and the mined receipt carries one
    update event, [sync_all_rates] succeeds and reports [rates_updated = 2],
    the pre-checked count, while the number of update events of the
    receipt is 1. *)
Theorem sync_all_rates_reports_prechecked_count :
  exists u s h receipt payload,
    sync_all_rates false Fixtures.one_event_outside fresh_state = (inr u, s) /\
    sent s = [payload] /\
    batch_tx Fixtures.one_event_outside 8 payload = TxMined h receipt /\
    success u = true /\
    rates_updated u = 2 /\
    len (rate_updated_events receipt) = 1.
Proof.
  do 5 eexists. split; [vm_compute; reflexivity | ].
  split; [reflexivity | ]. split; [reflexivity | ]. repeat split.
Qed.

End OracleUpdaterProofs.

(* ================================================================== *)
(** * Properties of the data store *)
(* ================================================================== *)

Module DataStoreProofs.
Import DataStore.



Lemma NoDup_snoc {A} (l : list A) (x : A) :
  NoDup l -> ~ In x l -> NoDup (l ++ [x]).
Proof.
  induction l as [ | y l IH]; simpl; intros ND NI.
  - constructor; [intros [] | constructor].
  - inversion ND as [ | ? ? Hy ND']; subst. constructor.
    + rewrite in_app_iff. simpl. intros [H | [H | []]]; [now apply Hy | ].
      apply NI. now left.
    + apply IH; [exact ND' | ]. intros H. apply NI. now right.
Qed.

Lemma NoDup_map_filter {A B} (g : A -> B) (f : A -> bool) (l : list A) :
  NoDup (map g l) -> NoDup (map g (filter f l)).
Proof.
  induction l as [ | x l IH]; simpl; intros ND; [constructor | ].
  inversion ND as [ | ? ? Hx ND']; subst.
  destruct (f x); simpl; [ | now apply IH].
  constructor; [ | now apply IH].
  intros H. apply Hx. rewrite in_map_iff in *.
  destruct H as [y [E Hy]]. exists y. split; [exact E | ].
  apply filter_In in Hy. tauto.
Qed.







End DataStoreProofs.

(* ================================================================== *)
(** * Properties of the fixed-point scaling *)
(* ================================================================== *)

Module ScalingProofs.
Import Py PyFloat BcbClient.

(** ** Powers of two and bit lengths *)

Lemma pow2_pos (k : Z) : 0 <= k -> 0 < 2 ^ k.
Proof. intros. apply Z.pow_pos_nonneg; lia. Qed.


Lemma pow2_lt_exp (a b : Z) : 0 <= b -> 2 ^ a < 2 ^ b -> a < b.
Proof. intros Hb H. apply (Z.pow_lt_mono_r_iff 2); lia. Qed.


(** A positive number of bit length [d] lies in [[2^(d-1), 2^d)]. *)
Lemma digits2_bounds (p : positive) :
  2 ^ (Z.pos (digits2_pos p) - 1) <= Z.pos p < 2 ^ Z.pos (digits2_pos p).
Proof.
  induction p as [p IH | p IH | ]; simpl digits2_pos.
  - rewrite Pos2Z.inj_succ. replace (Z.succ (Z.pos (digits2_pos p)) - 1) with (Z.succ (Z.pos (digits2_pos p) - 1)) by lia.
    rewrite !Z.pow_succ_r by lia. lia.
  - rewrite Pos2Z.inj_succ. replace (Z.succ (Z.pos (digits2_pos p)) - 1) with (Z.succ (Z.pos (digits2_pos p) - 1)) by lia.
    rewrite !Z.pow_succ_r by lia. lia.
  - simpl. lia.
Qed.


(** The least exponent a binary64 result of magnitude [2^x] can carry. *)
Lemma fexp_eq (x : Z) : fexp prec emax x = Z.max (x - 53) (-1074).
Proof. reflexivity. Qed.

(** ** Right shifts with round and sticky bits *)

(** One right shift of a non-negative mantissa halves it; the bit that
    leaves becomes the round bit and the old round bit joins the sticky
    bit. *)
Lemma shr_1_nonneg (m : Z) (r s : bool) :
  0 <= m -> shr_1 {| shr_m := m; shr_r := r; shr_s := s |}
            = {| shr_m := m / 2; shr_r := Z.odd m; shr_s := r || s |}.
Proof.
  intros H. destruct m as [ | p | p]; [reflexivity | | lia].
  destruct p as [p | p | ]; simpl shr_1.
  - f_equal. rewrite Pos2Z.inj_xI. symmetry.
    replace (2 * Z.pos p + 1) with (1 + Z.pos p * 2) by lia. rewrite Z.div_add by lia. reflexivity.
  - f_equal. rewrite Pos2Z.inj_xO. symmetry. rewrite Z.mul_comm. apply Z.div_mul. lia.
  - reflexivity.
Qed.

Lemma shifted_step (M k : Z) (mrs : shr_record) :
  0 <= M -> 0 <= k -> shifted M k mrs -> shifted M (k + 1) (shr_1 mrs).
Proof.
  intros HM Hk [Hm [Hr Hs]]. destruct mrs as [m r s]. cbn [shr_m shr_r shr_s] in Hm, Hr, Hs.
  assert (P : 0 < 2 ^ k) by (apply Z.pow_pos_nonneg; lia).
  assert (Hm0 : 0 <= m) by (subst m; apply Z.div_pos; lia).
  rewrite shr_1_nonneg by exact Hm0.
  assert (E2 : 2 ^ (k + 1) = 2 ^ k * 2) by (rewrite Z.pow_add_r by lia; reflexivity).
  assert (Hmod : M mod 2 ^ (k + 1) = M mod 2 ^ k + 2 ^ k * (m mod 2)).
  { rewrite E2, Z.rem_mul_r by lia. now subst m. }
  assert (Hb : 0 <= M mod 2 ^ k < 2 ^ k) by (apply Z.mod_pos_bound; lia).
  assert (Hb2 : 0 <= m mod 2 < 2) by (apply Z.mod_pos_bound; lia).
  unfold shifted. cbn [shr_m shr_r shr_s]. split; [ | split].
  - subst m. rewrite E2, Z.div_div by lia. reflexivity.
  - rewrite Hmod. rewrite Zodd_mod.
    destruct (Z.eqb_spec (m mod 2) 1) as [E | E].
    + rewrite E, E2. symmetry. apply Z.leb_le. lia.
    + assert (E0 : m mod 2 = 0) by lia. rewrite E0, E2. symmetry. apply Z.leb_gt. lia.
  - rewrite Hr, Hs, Hmod.
    replace (2 * (M mod 2 ^ k + 2 ^ k * (m mod 2))) with (2 * (M mod 2 ^ k) + (m mod 2) * 2 ^ (k + 1)) by (rewrite E2; ring).
    rewrite Z.mod_add by lia.
    assert (Hlt : 0 <= 2 * (M mod 2 ^ k) < 2 ^ (k + 1)) by (rewrite E2; lia).
    rewrite (Z.mod_small _ _ Hlt).
    destruct (Z.leb_spec (2 ^ k) (2 * (M mod 2 ^ k))) as [L | L]; cbn [orb].
    + symmetry. apply negb_true_iff. apply Z.eqb_neq. lia.
    + rewrite (Z.mod_small (2 * (M mod 2 ^ k)) (2 ^ k)) by lia. reflexivity.
Qed.

Lemma shifted_iter (M : Z) (p : positive) :
  0 <= M ->
  forall k mrs, 0 <= k -> shifted M k mrs -> shifted M (k + Z.pos p) (iter_pos shr_1 p mrs).
Proof.
  intros HM. induction p as [p IH | p IH | ]; intros k mrs Hk H; simpl iter_pos.
  - rewrite Pos2Z.inj_xI.
    replace (k + (2 * Z.pos p + 1)) with (((k + 1) + Z.pos p) + Z.pos p) by lia.
    apply IH; [lia | ]. apply IH; [lia | ]. now apply shifted_step.
  - rewrite Pos2Z.inj_xO.
    replace (k + 2 * Z.pos p) with ((k + Z.pos p) + Z.pos p) by lia.
    apply IH; [lia | ]. now apply IH.
  - now apply shifted_step.
Qed.

Lemma shifted_start (M : Z) : shifted M 0 {| shr_m := M; shr_r := false; shr_s := false |}.
Proof.
  unfold shifted. cbn [shr_m shr_r shr_s]. rewrite Z.pow_0_r, Z.div_1_r, Z.mod_1_r. repeat split.
Qed.

(** Rounding the shifted mantissa to nearest-even moves it by at most half
    a unit of the last place kept. *)
Lemma round_shifted (M k : Z) (mrs : shr_record) :
  0 <= M -> 0 <= k -> shifted M k mrs ->
  (round_nearest_even (shr_m mrs) (loc_of_shr_record mrs) = M / 2 ^ k \/
   round_nearest_even (shr_m mrs) (loc_of_shr_record mrs) = M / 2 ^ k + 1) /\
  Z.abs (2 ^ (k + 1) * round_nearest_even (shr_m mrs) (loc_of_shr_record mrs) - 2 * M) <= 2 ^ k.
Proof.
  intros HM Hk [Hm [Hr Hs]]. destruct mrs as [m r s].
  cbn [shr_m shr_r shr_s] in *.
  assert (P : 0 < 2 ^ k) by now apply pow2_pos.
  assert (E2 : 2 ^ (k + 1) = 2 ^ k * 2) by (rewrite Z.pow_add_r by lia; reflexivity).
  pose proof (Z.div_mod M (2 ^ k) ltac:(lia)) as DM.
  assert (Hb : 0 <= M mod 2 ^ k < 2 ^ k) by (apply Z.mod_pos_bound; lia).
  rewrite <- Hm in DM. rewrite E2.
  set (R := M mod 2 ^ k) in *. set (B := 2 ^ k) in *.
  destruct (Z.leb_spec B (2 * R)) as [L | L]; subst r.
  - destruct (Z.eqb_spec ((2 * R) mod B) 0) as [Z0 | NZ]; subst s; cbn [negb loc_of_shr_record round_nearest_even].
    + assert (2 * R = B).
      { assert (Hd := Z.div_mod (2 * R) B ltac:(lia)). rewrite Z0 in Hd.
        assert (0 < (2 * R) / B < 2) by (split; [apply Z.div_str_pos; lia | apply Z.div_lt_upper_bound; lia]).
        nia. }
      match goal with |- context [if ?b then _ else _] => destruct b end;
        [split; [left; lia | lia] | split; [right; lia | lia]].
    + assert (2 * R <> B).
      { intros Eq. apply NZ. rewrite Eq. apply Z.mod_same. lia. }
      split; [right; lia | lia].
  - destruct (Z.eqb_spec ((2 * R) mod B) 0); subst s; cbn [negb loc_of_shr_record round_nearest_even];
      (split; [left; lia | lia]).
Qed.

(** A mantissa already rounded to at most 53 bits is kept as it is, except
    [2^53], which is renormalised to [2^52] with the exponent one up. *)
Lemma shr_fexp_canonical (q1 e' : Z) :
  0 <= q1 <= 2 ^ 53 -> -1074 <= e' -> (q1 < 2 ^ 52 -> e' = -1074) ->
  shr_fexp prec emax q1 e' loc_Exact
  = if q1 =? 2 ^ 53
    then ({| shr_m := 2 ^ 52; shr_r := false; shr_s := false |}, e' + 1)
    else ({| shr_m := q1; shr_r := false; shr_s := false |}, e').
Proof.
  intros Hq He Hsub. unfold shr_fexp. cbn [shr_record_of_loc]. rewrite fexp_eq.
  destruct (Z.eqb_spec q1 (2 ^ 53)) as [E | NE].
  - subst q1. change (Zdigits2 (2 ^ 53)) with 54.
    replace (Z.max (54 + e' - 53) (-1074) - e') with 1 by lia. reflexivity.
  - assert (N2 : Z.max (Zdigits2 q1 + e' - 53) (-1074) - e' = 0).
    { destruct q1 as [ | p | p]; [ | | lia].
      - cbn [Zdigits2]. assert (e' = -1074) by (apply Hsub; reflexivity). lia.
      - cbn [Zdigits2]. pose proof (digits2_bounds p) as [Lo Hi].
        assert (Z.pos (digits2_pos p) - 1 < 53) by (apply pow2_lt_exp; lia).
        destruct (Z.lt_ge_cases (Z.pos p) (2 ^ 52)) as [Small | Big].
        + specialize (Hsub Small). lia.
        + assert (52 < Z.pos (digits2_pos p)) by (apply pow2_lt_exp; lia). lia. }
    rewrite N2. reflexivity.
Qed.

(** The rounding of an exact product [M * 2^E]: the mantissa is shifted by
    [k] bits down to the exponent the format allows, rounded to nearest-even
    within half a unit of that place, and renormalised. *)
Lemma binary_round_aux_exact (sx : bool) (M : positive) (E : Z) :
  exists k q1 m2 e2 : Z,
    0 <= k /\ 0 <= q1 /\ 0 <= m2 /\
    E + k = Z.max E (Z.max (Zdigits2 (Z.pos M) + E - 53) (-1074)) /\
    Z.abs (2 ^ (k + 1) * q1 - 2 * Z.pos M) <= 2 ^ k /\
    E + k <= e2 <= E + k + 1 /\
    m2 * 2 ^ (e2 - (E + k)) = q1 /\
    binary_round_aux prec emax sx (Z.pos M) E loc_Exact = final_float sx m2 e2.
Proof.
  unfold binary_round_aux.
  destruct (fexp prec emax (Zdigits2 (Z.pos M) + E) - E) as [ | p | p] eqn:N1.
  - (* no shift *)
    exists 0, (Z.pos M), (Z.pos M), E.
    unfold shr_fexp at 1. rewrite N1. cbn [shr shr_record_of_loc shr_m loc_of_shr_record round_nearest_even].
    unfold shr_fexp. rewrite N1. cbn [shr shr_record_of_loc shr_m].
    rewrite fexp_eq in N1. cbn [Zdigits2] in N1 |- *.
    replace (E - (E + 0)) with 0 by lia.
    change (2 ^ (0 + 1)) with 2. change (2 ^ 0) with 1.
    repeat split; try lia; reflexivity.
  - (* a shift by [p] bits *)
    unfold shr_fexp at 1. rewrite N1. cbn [shr shr_record_of_loc].
    pose proof (shifted_iter (Z.pos M) p ltac:(lia) 0 _ ltac:(lia) (shifted_start (Z.pos M))) as Sh.
    rewrite Z.add_0_l in Sh.
    destruct (round_shifted (Z.pos M) (Z.pos p) _ ltac:(lia) ltac:(lia) Sh) as [Hq Herr].
    set (q1 := round_nearest_even _ _) in *.
    rewrite fexp_eq in N1.
    pose proof (digits2_bounds M) as [Lo Hi]. cbn [Zdigits2] in N1.
    set (d := Z.pos (digits2_pos M)) in *.
    set (k := Z.pos p) in *.
    assert (Pk : 0 < 2 ^ k) by (apply pow2_pos; lia).
    assert (Hk53 : 2 ^ (k + 53) = 2 ^ k * 2 ^ 53) by (apply Z.pow_add_r; lia).
    assert (Q0 : 0 <= Z.pos M / 2 ^ k) by (apply Z.div_pos; lia).
    assert (Qhi : Z.pos M / 2 ^ k < 2 ^ 53).
    { apply Z.div_lt_upper_bound; [lia | ].
      rewrite <- Hk53. eapply Z.lt_le_trans; [exact Hi | ].
      apply Z.pow_le_mono_r; lia. }
    assert (Qlo : E + k <> -1074 -> 2 ^ 52 <= Z.pos M / 2 ^ k).
    { intros NotMin. assert (Ek : k = d - 53) by lia.
      apply Z.div_le_lower_bound; [lia | ].
      rewrite <- Z.pow_add_r by lia. replace (k + 52) with (d - 1) by lia. exact Lo. }
    assert (Can : shr_fexp prec emax q1 (E + k) loc_Exact
                  = if q1 =? 2 ^ 53
                    then ({| shr_m := 2 ^ 52; shr_r := false; shr_s := false |}, E + k + 1)
                    else ({| shr_m := q1; shr_r := false; shr_s := false |}, E + k)).
    { apply shr_fexp_canonical; [lia | lia | ].
      intros Small. destruct (Z.eq_dec (E + k) (-1074)) as [Eq | Ne]; [exact Eq | ].
      specialize (Qlo Ne). lia. }
    rewrite Can.
    destruct (Z.eqb_spec q1 (2 ^ 53)) as [Carry | NoCarry]; cbn [shr_m].
    + exists k, q1, (2 ^ 52), (E + k + 1).
      repeat split; try lia.
      * cbn [Zdigits2]. fold d. lia.
      * replace (E + k + 1 - (E + k)) with 1 by lia. rewrite Carry. reflexivity.
    + exists k, q1, q1, (E + k).
      repeat split; try lia.
      * cbn [Zdigits2]. fold d. lia.
      * rewrite Z.sub_diag. lia.
  - (* a negative difference: no shift *)
    exists 0, (Z.pos M), (Z.pos M), E.
    unfold shr_fexp at 1. rewrite N1. cbn [shr shr_record_of_loc shr_m loc_of_shr_record round_nearest_even].
    unfold shr_fexp. rewrite N1. cbn [shr shr_record_of_loc shr_m].
    rewrite fexp_eq in N1. cbn [Zdigits2] in N1 |- *.
    replace (E - (E + 0)) with 0 by lia.
    change (2 ^ (0 + 1)) with 2. change (2 ^ 0) with 1.
    repeat split; try lia; reflexivity.
Qed.

(** ** Half-unit bounds under a change of unit *)

Lemma half_scaled (x d t : Z) : 0 <= t -> 2 * x <= d -> 2 * (x * t) <= d * t.
Proof. intros Ht H. rewrite Z.mul_assoc. now apply Z.mul_le_mono_nonneg_r. Qed.

Lemma half_scaled_eq (x d t : Z) : 0 < t -> 2 * (x * t) = d * t -> 2 * x = d.
Proof.
  intros Ht H. rewrite Z.mul_assoc in H. apply Z.mul_reg_r in H; [exact H | lia].
Qed.

Lemma scaled_lt (x y c : Z) : 0 < c -> x < y -> x * c < y * c.
Proof. intros Hc H. now apply Z.mul_lt_mono_pos_r. Qed.

Lemma unscaled_le (x y c : Z) : 0 < c -> 2 * (x * c) <= 2 * (y * c) -> x <= y.
Proof.
  intros Hc H. apply (Z.mul_le_mono_pos_r _ _ c); [exact Hc | lia].
Qed.

(** An integer that equals the rounded product [Y] is as near to the exact
    product [X] as [Y] is. *)
Lemma near_exact (NP Y X B P : Z) :
  NP = Y -> Z.abs (2 * Y - 2 * X) <= B -> B <= 2 * P ->
  2 * Z.abs (NP - X) <= 2 * P.
Proof. lia. Qed.

(** An integer within half a unit of the rounded product [Y], itself within
    a quarter of a unit of the exact product [X]. *)
Lemma near_rounded (NP Y X B P : Z) :
  2 * Z.abs (NP - Y) <= P -> Z.abs (2 * Y - 2 * X) <= B -> 2 * B <= P ->
  2 * Z.abs (NP - X) <= 2 * P.
Proof. lia. Qed.

(** ** [round] and the product with [10**8] *)

Lemma rne_shift_nonneg_exp (m e : Z) : 0 <= e -> rne_shift m e = m * 2 ^ e.
Proof. intros H. unfold rne_shift. apply Z.leb_le in H. now rewrite H. Qed.

(** [rne_shift m e] is within one half of [m * 2^e], and even on a tie. *)
Lemma rne_shift_spec (m e : Z) :
  0 <= m -> e < 0 ->
  0 <= rne_shift m e /\
  2 * Z.abs (rne_shift m e * 2 ^ (- e) - m) <= 2 ^ (- e) /\
  (2 * Z.abs (rne_shift m e * 2 ^ (- e) - m) = 2 ^ (- e) -> Z.even (rne_shift m e) = true).
Proof.
  intros Hm He. unfold rne_shift.
  apply Z.leb_gt in He. rewrite He. apply Z.leb_gt in He.
  assert (P : 0 < 2 ^ (- e)) by (apply pow2_pos; lia).
  set (d := 2 ^ (- e)) in *.
  pose proof (Z.div_mod m d ltac:(lia)) as DM.
  pose proof (Z.mod_pos_bound m d P) as Hb.
  assert (Q0 : 0 <= m / d) by (apply Z.div_pos; lia).
  set (q := m / d) in *. set (r := m mod d) in *.
  destruct (Z.compare_spec (2 * r) d) as [Eq | Lt | Gt].
  - destruct (Z.even q) eqn:Ev.
    + split; [lia | ]. split; [lia | ]. intros _. exact Ev.
    + split; [lia | ]. split; [lia | ]. intros _.
      rewrite Z.add_1_r, Z.even_succ, <- Z.negb_even, Ev. reflexivity.
  - split; [lia | ]. split; [lia | ]. intros H. lia.
  - split; [lia | ]. split; [lia | ]. intros H. lia.
Qed.

(** The exponent of a finite binary64 value. *)
Lemma valid_finite (x : float) (s : bool) (m : positive) (e : Z) :
  Prim2SF x = S754_finite s m e -> -1074 <= e <= 971.
Proof.
  intros H. pose proof (Prim2SF_valid x) as V. rewrite H in V.
  unfold valid_binary, SpecFloat.valid_binary, bounded, canonical_mantissa in V.
  apply andb_true_iff in V. destruct V as [C B].
  apply Z.eqb_eq in C. rewrite fexp_eq in C. apply Z.leb_le in B.
  change (emax - prec) with 971 in B. lia.
Qed.

Lemma abs_signed (s : bool) (a b : Z) :
  Z.abs (signed s a - signed s b) = Z.abs (a - b).
Proof. destruct s; simpl; lia. Qed.

Lemma signed_mul (s : bool) (a b : Z) : signed s a * b = signed s (a * b).
Proof. destruct s; simpl; lia. Qed.

Lemma even_signed (s : bool) (a : Z) : Z.even (signed s a) = Z.even a.
Proof. destruct s; simpl; [apply Z.even_opp | reflexivity]. Qed.

(** [round(x)] returns for every finite [x], and what it returns is the
    nearest integer, ties to even. *)
Lemma py_round_nearest_even (x : float) :
  is_finite x = true -> exists n, py_round x = inr n /\ nearest_even x n.
Proof.
  unfold is_finite, py_round, nearest_even, scaled_int.
  destruct (Prim2SF x) as [s | s | | s m e] eqn:E; try discriminate; intros _.
  - exists 0. split; [reflexivity | ]. simpl. split; [lia | intros H; discriminate].
  - exists (signed s (rne_shift (Z.pos m) e)). split; [reflexivity | ].
    pose proof (valid_finite x s m e E) as [Lo _].
    rewrite signed_mul, abs_signed, even_signed.
    destruct (Z.lt_ge_cases e 0) as [Neg | NonNeg].
    + destruct (rne_shift_spec (Z.pos m) e ltac:(lia) Neg) as [H0 [H1 H2]].
      assert (Pw : 2 ^ 1074 = 2 ^ (- e) * 2 ^ (e + 1074))
        by (rewrite <- Z.pow_add_r by lia; f_equal; lia).
      assert (Pt : 0 < 2 ^ (e + 1074)) by (apply pow2_pos; lia).
      set (N := rne_shift (Z.pos m) e) in *.
      set (d := 2 ^ (- e)) in *. set (t := 2 ^ (e + 1074)) in *.
      rewrite Pw.
      replace (N * (d * t) - Z.pos m * t) with ((N * d - Z.pos m) * t) by ring.
      rewrite Z.abs_mul, (Z.abs_eq t) by lia.
      split; [apply half_scaled; lia | ].
      intros H. apply H2. now apply (half_scaled_eq _ _ t).
    + rewrite rne_shift_nonneg_exp by lia.
      replace (Z.pos m * 2 ^ e * 2 ^ 1074 - Z.pos m * 2 ^ (e + 1074)) with 0
        by (rewrite Z.pow_add_r by lia; ring).
      simpl Z.abs. split; [simpl; lia | ].
      intros H. exfalso. assert (0 < 2 ^ 1074) by (apply pow2_pos; lia). lia.
Qed.

(** [10**8] as a float is exact: [6710886400000000 * 2^(-26)]. *)
Lemma prim_1e8 : Prim2SF 100000000 = S754_finite false 6710886400000000 (-26).
Proof. reflexivity. Qed.

(** [value * 10**8] is the exact product of the two mantissas, rounded
    once. *)
Lemma product_spec (v : float) (s : bool) (m : positive) (e : Z) :
  Prim2SF v = S754_finite s m e ->
  Prim2SF (v * 100000000)%float
  = binary_round_aux prec emax s (Z.pos (m * 6710886400000000)) (e + -26) loc_Exact.
Proof.
  intros H. rewrite mul_spec, H, prim_1e8. unfold SF64mul, SFmul.
  destruct s; reflexivity.
Qed.

Lemma product_zero (v : float) (s : bool) :
  Prim2SF v = S754_zero s -> Prim2SF (v * 100000000)%float = S754_zero s.
Proof.
  intros H. rewrite mul_spec, H, prim_1e8. unfold SF64mul, SFmul. destruct s; reflexivity.
Qed.

(** The exact product of a mantissa with that of [10**8] has at least 53
    bits, and at most [80 - e] bits when the exact product of the values is
    below [2^54]. *)
Lemma product_size (m : positive) (e : Z) :
  -1074 <= e ->
  Z.pos m * 2 ^ (e + 1074) * 10 ^ 8 < 2 ^ 54 * 2 ^ 1074 ->
  52 < Z.pos (digits2_pos (m * 6710886400000000)) /\
  Z.pos (digits2_pos (m * 6710886400000000)) + e <= 80.
Proof.
  intros Elo R.
  pose proof (digits2_bounds (m * 6710886400000000)) as [Lo Hi].
  set (d := Z.pos (digits2_pos (m * 6710886400000000))) in *.
  rewrite Pos2Z.inj_mul in Lo, Hi.
  assert (Hd53 : 52 < d).
  { apply pow2_lt_exp; [lia | ]. eapply Z.le_lt_trans; [ | exact Hi].
    change (2 ^ 52) with 4503599627370496. clear R Lo Hi. lia. }
  split; [exact Hd53 | ].
  apply (scaled_lt _ _ (2 ^ 26) eq_refl) in R.
  change (2 ^ 54 * 2 ^ 1074 * 2 ^ 26) with (2 ^ 1154) in R.
  replace (Z.pos m * 2 ^ (e + 1074) * 10 ^ 8 * 2 ^ 26)
    with (Z.pos m * 6710886400000000 * 2 ^ (e + 1074)) in R
    by (change 6710886400000000 with (10 ^ 8 * 2 ^ 26); ring).
  assert (Pa : 0 <= 2 ^ (e + 1074)) by (apply Z.pow_nonneg; lia).
  assert (L : 2 ^ (d - 1 + (e + 1074)) < 2 ^ 1154).
  { rewrite Z.pow_add_r by lia. eapply Z.le_lt_trans; [ | exact R].
    now apply Z.mul_le_mono_nonneg_r. }
  apply pow2_lt_exp in L; [ | discriminate]. clear R Lo Hi Pa. lia.
Qed.

(** What [round] makes of the rounded product, against the exact product
    [M * 2^a]: all in units of [2^(-1100)]. *)
Lemma round_near_product (M a k q1 e2 : Z) (mm : positive) :
  0 <= a -> 0 <= k -> k + a <= 1101 ->
  a - 1100 + k <= e2 <= a - 1100 + k + 1 ->
  Z.pos mm * 2 ^ (e2 - (a - 1100 + k)) = q1 ->
  Z.abs (2 ^ (k + 1) * q1 - 2 * M) <= 2 ^ k ->
  2 * Z.abs (rne_shift (Z.pos mm) e2 * 2 ^ 1100 - M * 2 ^ a) <= 2 * 2 ^ 1100.
Proof.
  intros Ha Hk Hka He2 Hval Herr.
  assert (Pa : 0 < 2 ^ a) by now apply pow2_pos.
  assert (Eq1 : Z.pos mm * 2 ^ (e2 + 1100) = q1 * 2 ^ (k + a)).
  { rewrite <- Hval, <- Z.mul_assoc, <- Z.pow_add_r by lia.
    f_equal. f_equal. lia. }
  assert (Err : Z.abs (2 * (q1 * 2 ^ (k + a)) - 2 * (M * 2 ^ a)) <= 2 ^ (k + a)).
  { replace (2 * (q1 * 2 ^ (k + a)) - 2 * (M * 2 ^ a))
      with ((2 ^ (k + 1) * q1 - 2 * M) * 2 ^ a)
      by (rewrite !Z.pow_add_r by lia; change (2 ^ 1) with 2; ring).
    rewrite Z.abs_mul, (Z.abs_eq (2 ^ a)), (Z.pow_add_r 2 k a) by lia.
    apply Z.mul_le_mono_nonneg_r; lia. }
  clear Hval Herr.
  destruct (Z.lt_ge_cases e2 0) as [Neg | NonNeg].
  - destruct (rne_shift_spec (Z.pos mm) e2 ltac:(lia) Neg) as [_ [H1 _]].
    assert (Pt : 0 < 2 ^ (e2 + 1100)) by (apply pow2_pos; lia).
    assert (Pw : 2 ^ (- e2) * 2 ^ (e2 + 1100) = 2 ^ 1100)
      by (rewrite <- Z.pow_add_r by lia; f_equal; lia).
    apply (half_scaled _ _ (2 ^ (e2 + 1100))) in H1; [ | lia].
    assert (H1' : 2 * Z.abs (rne_shift (Z.pos mm) e2 * 2 ^ 1100 - q1 * 2 ^ (k + a))
                  <= 2 ^ 1100).
    { rewrite <- Eq1.
      replace (rne_shift (Z.pos mm) e2 * 2 ^ 1100 - Z.pos mm * 2 ^ (e2 + 1100))
        with ((rne_shift (Z.pos mm) e2 * 2 ^ (- e2) - Z.pos mm) * 2 ^ (e2 + 1100))
        by (rewrite <- Pw; ring).
      rewrite Z.abs_mul, (Z.abs_eq (2 ^ (e2 + 1100))) by lia.
      rewrite <- Pw. exact H1. }
    assert (W : 2 * 2 ^ (k + a) <= 2 ^ 1100).
    { change (2 ^ 1100) with (2 * 2 ^ 1099).
      apply Z.mul_le_mono_nonneg_l; [lia | ]. apply Z.pow_le_mono_r; lia. }
    exact (near_rounded _ _ _ _ _ H1' Err W).
  - rewrite rne_shift_nonneg_exp by exact NonNeg.
    assert (Eq2 : Z.pos mm * 2 ^ e2 * 2 ^ 1100 = q1 * 2 ^ (k + a)).
    { rewrite <- Eq1, <- Z.mul_assoc, <- Z.pow_add_r by lia. reflexivity. }
    assert (W : 2 ^ (k + a) <= 2 * 2 ^ 1100).
    { change (2 * 2 ^ 1100) with (2 ^ 1101). apply Z.pow_le_mono_r; lia. }
    exact (near_exact _ _ _ _ _ Eq2 Err W).
Qed.

(** C3 (amended).  For every finite raw value [v] with
    [|v| * 10^8 < 2^54], [_scale_to_chainlink v] returns an integer [n]
    that is the integer nearest to the binary64 product [v * 10**8], ties
    going to the even integer (one rounding mode, that of [round]), and [n]
    is at most one unit away from the exact [v * 10^8]: dividing [n] by
    [10^8] gives [v] back to within [10^(-8)].  Values are counted in units
    of [2^(-1074)], [V] being the exact value of [v] in that unit. *)
Theorem scale_round_trip (v : float) (V : Z) :
  scaled_int v = Some V ->
  Z.abs V * 10 ^ 8 < 2 ^ 54 * 2 ^ 1074 ->
  exists n,
    _scale_to_chainlink v = inr n /\
    nearest_even (v * 100000000)%float n /\
    Z.abs (n * 2 ^ 1074 - V * 10 ^ 8) <= 2 ^ 1074.
Proof.
  intros HV Range.
  destruct (Prim2SF v) as [s | s | | s m e] eqn:Ev;
    try (unfold scaled_int in HV; rewrite Ev in HV; discriminate).
  - (* zero *)
    assert (HV' : V = 0) by (unfold scaled_int in HV; rewrite Ev in HV; congruence).
    subst V. clear Range. pose proof (product_zero v s Ev) as Pz.
    destruct (py_round_nearest_even (v * 100000000)%float) as [n [Hn Hne]].
    { unfold is_finite. now rewrite Pz. }
    exists n. split; [exact Hn | ]. split; [exact Hne | ].
    unfold py_round in Hn. rewrite Pz in Hn. inversion Hn; subst n.
    rewrite !Z.mul_0_l. apply Z.pow_nonneg. discriminate.
  - (* finite *)
    assert (HV' : V = signed s (Z.pos m * 2 ^ (e + 1074)))
      by (unfold scaled_int in HV; rewrite Ev in HV; congruence).
    subst V. clear HV.
    pose proof (valid_finite v s m e Ev) as [Elo Ehi].
    pose proof (product_spec v s m e Ev) as Pp.
    assert (Range' : Z.pos m * 2 ^ (e + 1074) * 10 ^ 8 < 2 ^ 54 * 2 ^ 1074).
    { assert (P0 : 0 <= Z.pos m * 2 ^ (e + 1074))
        by (apply Z.mul_nonneg_nonneg; [discriminate | apply Z.pow_nonneg; discriminate]).
      unfold signed in Range. destruct s; [rewrite Z.abs_opp in Range | ];
        rewrite (Z.abs_eq _ P0) in Range; exact Range. }
    clear Range.
    destruct (product_size m e Elo Range') as [Hd53 Hd]. clear Range'.
    destruct (binary_round_aux_exact s (m * 6710886400000000) (e + -26))
      as [k [q1 [m2 [e2 [Hk [Hq1 [Hm2 [He1 [Herr [He2 [Hval Hres]]]]]]]]]]].
    rewrite Hres in Pp. clear Hres.
    cbn [Zdigits2] in He1.
    set (d := Z.pos (digits2_pos (m * 6710886400000000))) in *.
    rewrite Pos2Z.inj_mul in Herr.
    set (M := Z.pos m * 6710886400000000) in *.
    assert (He1' : e + -26 + k <= 1) by lia.
    (* the product is finite *)
    assert (Fin : Prim2SF (v * 100000000)%float
                  = match m2 with
                    | 0 => S754_zero s
                    | Z.pos mm => S754_finite s mm e2
                    | Z.neg _ => S754_nan
                    end).
    { rewrite Pp. unfold final_float. destruct m2; try reflexivity.
      assert (L : (e2 <=? 971) = true) by (apply Z.leb_le; lia). now rewrite L. }
    destruct (py_round_nearest_even (v * 100000000)%float) as [n [Hn Hne]].
    { unfold is_finite. rewrite Fin. destruct m2; [reflexivity | reflexivity | lia]. }
    exists n. split; [exact Hn | ]. split; [exact Hne | ].
    (* the distance to the exact product, in units of [2^(-1100)] *)
    assert (Near : exists N, n = signed s N /\
                   2 * Z.abs (N * 2 ^ 1100 - M * 2 ^ (e + 1074)) <= 2 * 2 ^ 1100).
    { unfold py_round in Hn. rewrite Fin in Hn.
      destruct m2 as [ | mm | mm]; [ | | lia].
      - (* the product rounds to zero *)
        inversion Hn; subst n. exists 0. split; [destruct s; reflexivity | ].
        assert (Q0 : q1 = 0) by (rewrite <- Hval; apply Z.mul_0_l).
        rewrite Q0, Z.mul_0_r, Z.sub_0_l, Z.abs_opp in Herr.
        assert (Pa : 0 < 2 ^ (e + 1074)) by (apply pow2_pos; lia).
        assert (W : 2 ^ k * 2 ^ (e + 1074) <= 2 * 2 ^ 1100).
        { rewrite <- Z.pow_add_r by lia. change (2 * 2 ^ 1100) with (2 ^ 1101).
          apply Z.pow_le_mono_r; lia. }
        rewrite Z.mul_0_l, Z.sub_0_l, Z.abs_opp, Z.abs_mul, (Z.abs_eq (2 ^ (e + 1074))),
          Z.mul_assoc by lia.
        eapply Z.le_trans; [ | exact W].
        apply Z.mul_le_mono_nonneg_r; [lia | ].
        rewrite <- (Z.abs_eq 2), <- Z.abs_mul by lia. exact Herr.
      - inversion Hn; subst n. exists (rne_shift (Z.pos mm) e2).
        split; [reflexivity | ].
        apply (round_near_product M (e + 1074) k q1 e2 mm); try lia.
        + replace (e + 1074 - 1100 + k) with (e + -26 + k) by lia. exact Hval. }
    destruct Near as [N [HnN Bound]]. subst n.
    rewrite !signed_mul, abs_signed.
    apply (unscaled_le _ _ (2 ^ 26) eq_refl).
    change (2 ^ 1074 * 2 ^ 26) with (2 ^ 1100).
    change (2 ^ 26) with (Z.abs (2 ^ 26)). rewrite <- Z.abs_mul.
    replace ((N * 2 ^ 1074 - Z.pos m * 2 ^ (e + 1074) * 10 ^ 8) * 2 ^ 26)
      with (N * 2 ^ 1100 - M * 2 ^ (e + 1074)); [exact Bound | ].
    unfold M. change 6710886400000000 with (10 ^ 8 * 2 ^ 26).
    change (2 ^ 1100) with (2 ^ 1074 * 2 ^ 26). ring.
Qed.

Lemma scale_round_trip_witness :
  _scale_to_chainlink 10.9%float = inr 1090000000 /\
  exists V n,
    scaled_int 10.9%float = Some V /\
    Z.abs V * 10 ^ 8 < 2 ^ 54 * 2 ^ 1074 /\
    _scale_to_chainlink 10.9%float = inr n /\
    nearest_even (10.9 * 100000000)%float n /\
    Z.abs (n * 2 ^ 1074 - V * 10 ^ 8) <= 2 ^ 1074.
Proof.
  split; [reflexivity | ].
  eexists.
  assert (R : Z.abs (signed false (Z.pos 6136154492292301 * 2 ^ (-49 + 1074))) * 10 ^ 8
              < 2 ^ 54 * 2 ^ 1074)
    by (vm_compute; reflexivity).
  destruct (scale_round_trip 10.9%float _ eq_refl R) as [n H].
  exists n. split; [reflexivity | ]. split; [exact R | exact H].
Defined.

(** C3 as stated, for every raw value, does not hold.  The value field
    ["180143985,11"] parses to a float whose product with [10**8] is above
    [2^54], where consecutive floats are four apart: the scaled integer is
    [18014398511000000], more than one unit (1.43) away from the exact
    [v * 10^8].  And an infinite raw value has no scaled integer at all:
    [round] raises [OverflowError]. *)
Lemma scale_round_trip_counterexample :
  parse_value (Fixtures.record "26/11/2024" "180143985,11") = inr 180143985.11%float /\
  _scale_to_chainlink 180143985.11%float = inr 18014398511000000 /\
  (exists V, scaled_int 180143985.11%float = Some V /\
             2 ^ 1074 < Z.abs (18014398511000000 * 2 ^ 1074 - V * 10 ^ 8)) /\
  (exists e, _scale_to_chainlink infinity = inl e /\ exn_class e = OverflowError).
Proof.
  split; [vm_compute; reflexivity | ].
  split; [vm_compute; reflexivity | ].
  split.
  - eexists. split; [reflexivity | vm_compute; reflexivity].
  - eexists. split; reflexivity.
Qed.

End ScalingProofs.

(* ================================================================== *)
(** * Properties of the BCB client: parsing, circuit breaker, batches *)
(* ================================================================== *)

Module BcbClientProofs.
Import Py PyFloat BcbClient Env BcbFetch.

Ltac break_match :=
  match goal with
  | |- context [match ?x with _ => _ end] => destruct x eqn:?
  | H : context [match ?x with _ => _ end] |- _ => destruct x eqn:?
  end.

Ltac inv H := inversion H; subst; clear H.

(** ** The class of the exception each step can raise *)

Lemma strptime_dmy_raises (s : string) (e : Exn) :
  strptime_dmy s = inl e -> exn_class e = ValueError.
Proof.
  unfold strptime_dmy, raise, ret. intros H.
  repeat break_match; try discriminate; inv H; reflexivity.
Qed.

Lemma float_of_string_raises (s : string) (e : Exn) :
  float_of_string s = inl e -> exn_class e = ValueError.
Proof.
  unfold float_of_string, could_not_convert, ret. intros H.
  repeat break_match; try discriminate; inv H; reflexivity.
Qed.

Lemma getitem_raises (item : Item) (k : string) (e : Exn) :
  getitem item k = inl e -> exn_class e = KeyError \/ exn_class e = TypeError.
Proof.
  unfold getitem, raise, ret. intros H.
  repeat break_match; try discriminate; inv H; auto.
Qed.

Lemma parse_bcb_date_raises (v : PyValue) (e : Exn) :
  _parse_bcb_date v = inl e -> exn_class e = TypeError \/ exn_class e = BCBParseError.
Proof.
  unfold _parse_bcb_date, raise, ret. intros H.
  destruct v as [s | r]; [ | inv H; auto].
  destruct (strptime_dmy s) as [e' | dt] eqn:E; [ | discriminate].
  apply strptime_dmy_raises in E.
  assert (V : is_ValueError e' = true)
    by (unfold is_ValueError, is_class; now rewrite E).
  rewrite V in H. inv H. auto.
Qed.

Lemma parse_date_raises (item : Item) (e : Exn) :
  parse_date item = inl e ->
  exn_class e = KeyError \/ exn_class e = TypeError \/ exn_class e = BCBParseError.
Proof.
  unfold parse_date, bind. intros H.
  destruct (getitem item "data") as [e1 | d] eqn:G.
  - inv H. apply getitem_raises in G. tauto.
  - destruct (_parse_bcb_date d) as [e2 | [date dt]] eqn:P; [ | discriminate].
    inv H. apply parse_bcb_date_raises in P. tauto.
Qed.

Lemma parse_value_raises (item : Item) (e : Exn) :
  parse_value item = inl e ->
  exn_class e = KeyError \/ exn_class e = TypeError \/ exn_class e = ValueError.
Proof.
  unfold parse_value, bind. intros H.
  destruct (getitem item "valor") as [e1 | v] eqn:G.
  - inv H. apply getitem_raises in G. tauto.
  - apply float_of_string_raises in H. tauto.
Qed.

Lemma scale_raises (x : float) (e : Exn) :
  _scale_to_chainlink x = inl e ->
  exn_class e = ValueError \/ exn_class e = OverflowError.
Proof.
  unfold _scale_to_chainlink, py_round, raise, ret. intros H.
  destruct (Prim2SF (x * 100000000)); try discriminate; inv H; auto.
Qed.



(** ** The loop over a batch *)

(** The loop over [pre ++ rest] is the loop over [pre] followed, unless it
    raised, by the loop over [rest]. *)
Lemma process_loop_app (self : BCBClient) (rt : RateType) (pre rest : list Item) :
  forall acc,
    process_loop self rt (pre ++ rest) acc
    = match process_loop self rt pre acc with
      | inr kept => process_loop self rt rest kept
      | inl e => inl e
      end.
Proof.
  induction pre as [ | item pre IH]; simpl; intros acc; [reflexivity | ].
  destruct (process_item self rt item) as [e | rd].
  - destruct (handle e); [reflexivity | apply IH | reflexivity].
  - apply IH.
Qed.

(** What the loop had collected stays in what it returns. *)
Lemma process_loop_keeps (self : BCBClient) (rt : RateType) (data : list Item) :
  forall acc rs, process_loop self rt data acc = inr rs -> incl acc rs.
Proof.
  induction data as [ | item data IH]; simpl; intros acc rs H.
  - inv H. apply incl_refl.
  - destruct (process_item self rt item) as [e | rd].
    + destruct (handle e); try discriminate. now apply IH.
    + apply IH in H. intros x Hx. apply H. apply in_or_app. now left.
Qed.

Lemma insert_desc_In (x y : RateData) (l : list RateData) :
  In y (insert_desc x l) <-> y = x \/ In y l.
Proof.
  induction l as [ | z l IH]; simpl; [intuition congruence | ].
  destruct (real_world_date x <? real_world_date z); simpl; [rewrite IH | ];
    intuition congruence.
Qed.

Lemma sort_desc_In (y : RateData) (l : list RateData) :
  In y (sort_desc l) <-> In y l.
Proof.
  induction l as [ | x l IH]; simpl; [tauto | ].
  rewrite insert_desc_In, IH. intuition congruence.
Qed.

(** ** C5 *)




(** ** C10 *)

Lemma process_item_unvalidated_raises (self : BCBClient) (rt : RateType) (item : Item)
    (e : Exn) :
  validate self = false ->
  process_item self rt item = inl e -> exn_class e <> BCBValidationError.
Proof.
  intros V. unfold process_item, bind.
  destruct (parse_date item) as [e1 | [[d date] dt]] eqn:PD.
  - intros H. inv H. apply parse_date_raises in PD.
    destruct PD as [H | [H | H]]; rewrite H; discriminate.
  - destruct (parse_value item) as [e2 | raw] eqn:PV.
    + intros H. inv H. apply parse_value_raises in PV.
      destruct PV as [H | [H | H]]; rewrite H; discriminate.
    + destruct (_scale_to_chainlink raw) as [e3 | scaled] eqn:SC.
      * intros H. inv H. apply scale_raises in SC.
        destruct SC as [H | H]; rewrite H; discriminate.
      * unfold _validate_value. rewrite V. simpl. discriminate.
Qed.

Lemma process_loop_unvalidated_raises (self : BCBClient) (rt : RateType)
    (data : list Item) :
  validate self = false ->
  forall acc e, process_loop self rt data acc = inl e ->
                exn_class e <> BCBValidationError.
Proof.
  intros V. induction data as [ | item data IH]; simpl; intros acc e H; [discriminate | ].
  destruct (process_item self rt item) as [e1 | rd] eqn:PI.
  - destruct (handle e1).
    + inv H. eapply process_item_unvalidated_raises; eauto.
    + eapply IH; eauto.
    + inv H. eapply process_item_unvalidated_raises; eauto.
  - eapply IH; eauto.
Qed.

Lemma process_response_unvalidated_raises (self : BCBClient) (rt : RateType)
    (data : list Item) (e : Exn) :
  validate self = false ->
  _process_response self data rt = inl e -> exn_class e <> BCBValidationError.
Proof.
  intros V. unfold _process_response, bind.
  destruct (process_loop self rt data []) as [e1 | rs] eqn:PL; [ | discriminate].
  intros H. inv H. eapply process_loop_unvalidated_raises; eauto.
Qed.

Lemma request_raises (url : string) (o : Outside) (n n' : nat) (e : Exn) :
  _request url o n = (inl e, n') -> exn_class e <> BCBValidationError.
Proof.
  unfold _request, raise, ret. intros H.
  repeat break_match; inv H; discriminate.
Qed.

(** Every exception that leaves [fetch_all_latest] is one the loop does not
    catch, so it is not a [BCBClientError]. *)
Lemma fetch_all_loop_raises (self : BCBClient) (todo : list RateType) (o : Outside) :
  forall acc n n' e,
    fetch_all_loop self todo acc o n = (inl e, n') -> is_BCBClientError e = false.
Proof.
  induction todo as [ | rt todo IH]; simpl; intros acc n n' e H; [discriminate | ].
  unfold mbind, try_except in H.
  destruct (fetch_latest self rt o n) as [[e1 | r] n1].
  - destruct (is_BCBClientError e1) eqn:B; simpl in H.
    + eapply IH; eauto.
    + inv H. exact B.
  - simpl in H. eapply IH; eauto.
Qed.

(** C10.  For a client built with [validate=False]: [_validate_value]
    returns without raising for every rate type and every scaled value;
    neither [_process_response] nor [fetch_latest], [fetch_history] or
    [fetch_all_latest] ever raises a [BCBValidationError]; and every record
    that parses and scales is in the list [_process_response] returns,
    whatever its scaled value -- inside the bounds or not. *)
Theorem validation_disabled (self : BCBClient) :
  validate self = false ->
  (forall rt scaled raw, _validate_value self rt scaled raw = inr tt) /\
  (forall data rt e,
      _process_response self data rt = inl e -> exn_class e <> BCBValidationError) /\
  (forall rt o n n' e,
      fetch_latest self rt o n = (inl e, n') -> exn_class e <> BCBValidationError) /\
  (forall rt count o n n' e,
      fetch_history self rt count o n = (inl e, n') -> exn_class e <> BCBValidationError) /\
  (forall o n n' e,
      fetch_all_latest self o n = (inl e, n') -> exn_class e <> BCBValidationError) /\
  (forall rt pre item post d date dt raw scaled rs,
      parse_date item = inr (d, date, dt) ->
      parse_value item = inr raw ->
      _scale_to_chainlink raw = inr scaled ->
      _process_response self (pre ++ item :: post) rt = inr rs ->
      exists rd, In rd rs /\ answer rd = scaled /\ raw_value rd = raw /\
                 real_world_date rd = date).
Proof.
  intros V. refine (conj _ (conj _ (conj _ (conj _ (conj _ _))))).
  - intros rt scaled raw. unfold _validate_value. now rewrite V.
  - intros data rt e. now apply process_response_unvalidated_raises.
  - intros rt o n n' e. unfold fetch_latest, mbind, lift_result, mraise, mret.
    destruct (_request _ o n) as [[e1 | data] n1] eqn:R.
    + intros H. inv H. eapply request_raises; eauto.
    + destruct (_process_response self data rt) as [e2 | rs] eqn:P.
      * intros H. inv H. eapply process_response_unvalidated_raises; eauto.
      * destruct rs; intros H; inv H. simpl. discriminate.
  - intros rt count o n n' e. unfold fetch_history, mbind, lift_result.
    destruct (_request _ o n) as [[e1 | data] n1] eqn:R.
    + intros H. inv H. eapply request_raises; eauto.
    + intros H. inv H. eapply process_response_unvalidated_raises; eauto.
  - intros o n n' e H. apply fetch_all_loop_raises in H.
    intros C. unfold is_BCBClientError in H. rewrite C in H. discriminate.
  - intros rt pre item post d date dt raw scaled rs PD PV SC.
    unfold _process_response, bind. rewrite process_loop_app.
    destruct (process_loop self rt pre []) as [e | kept]; [discriminate | ].
    simpl. unfold process_item at 1, bind. rewrite PD, PV, SC.
    unfold _validate_value. rewrite V. simpl.
    destruct (process_loop self rt post _) as [e | rs0] eqn:PL; [discriminate | ].
    intros H. inv H.
    match type of PL with
    | process_loop _ _ _ (_ ++ [?r]) = _ => exists r
    end.
    split; [ | split; [ | split]; reflexivity].
    apply sort_desc_In. apply process_loop_keeps in PL. apply PL.
    apply in_or_app. right. now left.
Qed.

Lemma validation_disabled_witness :
  _validate_value Fixtures.unvalidated_client CDI 5100000000 51%float = inr tt /\
  exists rs rd,
    _process_response Fixtures.unvalidated_client
        ([Fixtures.good_record] ++ Fixtures.too_high_record :: [Fixtures.later_record]) CDI
      = inr rs /\
    In rd rs /\ answer rd = 5100000000 /\
    max_value (RATE_CONFIGS CDI) < answer rd.
Proof.
  pose proof (validation_disabled Fixtures.unvalidated_client eq_refl) as [H1 [_ [_ [_ [_ H6]]]]].
  split; [apply H1 | ].
  eexists.
  destruct (H6 CDI [Fixtures.good_record] Fixtures.too_high_record [Fixtures.later_record]
              (PyStr "28/11/2024") 20241128
              {| dt_year := 2024; dt_month := 11; dt_day := 28 |}
              51%float 5100000000
              (sort_desc _)
              eq_refl eq_refl eq_refl eq_refl) as [rd [Hin [Ha _]]].
  exists rd. split; [vm_compute; reflexivity | ].
  split; [exact Hin | ]. split; [exact Ha | ]. rewrite Ha. vm_compute. reflexivity.
Defined.

End BcbClientProofs.

(* ================================================================== *)
(** * Properties of the anomaly detector *)
(* ================================================================== *)

Module AnomalyDetectorProofs.
Import Py PyFloat AnomalyDetector.

(** C6.  For every detector, current value and history:
    (1) with fewer than [min_history_size] values the result is returned
    and is not an anomaly, whatever the current value;
    (2) otherwise, once the sample mean [mu] and the sample standard
    deviation [sd] of the history are computed, a zero [sd] flags the
    current value exactly when it differs from [mu], with the score 999
    when flagged and 0 when not, and a non-zero [sd] flags it exactly when
    [|current - mu| / sd] exceeds [std_threshold], that quotient being the
    score;
    (3) the history [10,10,10,10,10] with current 15 is flagged, and the
    history [10.0,10.2,10.1,10.3,10.0] with threshold 3.0 and current 10.15
    is not. *)
Theorem detect_value_anomaly_spec (self : AnomalyDetector) (current : float)
    (history : list float) :
  (Z.of_nat (List.length history) < min_history_size self ->
   exists r, detect_value_anomaly self current history = inr r /\
             is_anomaly r = false /\ anomaly_type r = None) /\
  (min_history_size self <= Z.of_nat (List.length history) ->
   forall mu sd,
     Statistics.mean history = inr mu ->
     Statistics.stdev history = inr sd ->
     exists r, detect_value_anomaly self current history = inr r /\
               mean r = mu /\
               ((sd =? 0)%float = true ->
                  is_anomaly r = negb (current =? mu)%float /\
                  z_score r = (if is_anomaly r then 999 else 0)%float /\
                  std_dev r = 0%float) /\
               ((sd =? 0)%float = false ->
                  is_anomaly r = (std_threshold self <? abs (current - mu) / sd)%float /\
                  z_score r = (abs (current - mu) / sd)%float /\
                  std_dev r = sd)) /\
  (exists r, detect_value_anomaly default_detector 15 Fixtures.constant_history = inr r /\
             is_anomaly r = true /\ z_score r = 999%float) /\
  (exists r, detect_value_anomaly default_detector 10.15 Fixtures.steady_history = inr r /\
             std_threshold default_detector = 3%float /\
             is_anomaly r = false).
Proof.
  refine (conj _ (conj _ (conj _ _))).
  - intros Short. unfold detect_value_anomaly.
    apply Z.ltb_lt in Short. rewrite Short. eexists. repeat split.
  - intros Long mu sd Hmu Hsd. unfold detect_value_anomaly.
    apply Z.ltb_ge in Long. rewrite Long. unfold bind. rewrite Hmu, Hsd.
    destruct (sd =? 0)%float eqn:Zero.
    + eexists. split; [reflexivity | ]. simpl.
      split; [reflexivity | ]. split; [ | discriminate].
      intros _. destruct (current =? mu)%float; simpl; repeat split.
    + eexists. split; [reflexivity | ]. simpl.
      split; [reflexivity | ]. split; [discriminate | ].
      intros _. repeat split.
  - eexists. split; [vm_compute; reflexivity | ]. split; reflexivity.
  - eexists. split; [vm_compute; reflexivity | ]. split; reflexivity.
Qed.

(** The zero-deviation example of the specification, through the theorem. *)
Lemma detect_value_anomaly_witness :
  exists r, detect_value_anomaly default_detector 15 Fixtures.constant_history = inr r /\
            is_anomaly r = true /\ z_score r = 999%float.
Proof.
  destruct (detect_value_anomaly_spec default_detector 15 Fixtures.constant_history)
    as [_ [General _]].
  destruct (General ltac:(vm_compute; discriminate) 10%float 0%float
              ltac:(vm_compute; reflexivity) ltac:(vm_compute; reflexivity))
    as [r [Hr [_ [Hzero _]]]].
  destruct (Hzero eq_refl) as [Ha [Hz _]].
  exists r. split; [exact Hr | ].
  assert (A : is_anomaly r = true) by (rewrite Ha; vm_compute; reflexivity).
  split; [exact A | ]. rewrite Hz, A. reflexivity.
Defined.

(** C7.  For a positive time delta: with [previous = 0] the result is not
    an anomaly when [current = 0] and is an anomaly when [current <> 0];
    with [previous <> 0] the result is an anomaly exactly when the
    fractional change [|current - previous| / |previous|], multiplied by
    [24 / time_delta_hours], exceeds [velocity_threshold]. *)
Theorem detect_velocity_anomaly_spec (self : AnomalyDetector)
    (current previous time_delta_hours : float) :
  (0 <? time_delta_hours)%float = true ->
  ((previous =? 0)%float = true -> (current =? 0)%float = true ->
   is_anomaly (detect_velocity_anomaly self current previous time_delta_hours) = false) /\
  ((previous =? 0)%float = true -> (current =? 0)%float = false ->
   is_anomaly (detect_velocity_anomaly self current previous time_delta_hours) = true) /\
  ((previous =? 0)%float = false ->
   is_anomaly (detect_velocity_anomaly self current previous time_delta_hours)
   = (velocity_threshold self
      <? abs (current - previous) / abs previous * (24 / time_delta_hours))%float).
Proof.
  intros Pos. unfold detect_velocity_anomaly.
  refine (conj _ (conj _ _)).
  - intros P C. now rewrite P, C.
  - intros P C. now rewrite P, C.
  - intros P. rewrite P, Pos. reflexivity.
Qed.

(** 10.0 to 10.15 in 24 hours is a 1.5% daily change, under the 50%
    threshold; 0 to 10.15 is flagged. *)
Lemma detect_velocity_anomaly_witness :
  is_anomaly (detect_velocity_anomaly default_detector 10.15 10 24) = false /\
  is_anomaly (detect_velocity_anomaly default_detector 10.15 0 24) = true.
Proof.
  split.
  - rewrite (proj2 (proj2 (detect_velocity_anomaly_spec default_detector 10.15 10 24 eq_refl)) eq_refl).
    vm_compute. reflexivity.
  - apply (proj1 (proj2 (detect_velocity_anomaly_spec default_detector 10.15 0 24 eq_refl)));
      reflexivity.
Defined.

End AnomalyDetectorProofs.

(* ================================================================== *)
(** * Properties of the scheduler's update routine *)
(* ================================================================== *)

Module SchedulerProofs.
Import Py PyFloat BcbClient Env BcbFetch Scheduler.

Ltac inv H := inversion H; subst; clear H.

(** C4 (the code departs from the claim).  The class of the client binds no
    attribute [fetch_with_retry]; so any run of [_update_rates] over a
    non-empty list of rate types raises [AttributeError] at the first rate,
    which the per-rate handler for [BCBClientError] does not catch: no
    request is made, no rate counts as failed, nothing is sent to the
    chain, and the run ends unsuccessful with the error text of the
    missing attribute. *)
Theorem fetch_with_retry_is_missing (self : RateScheduler) (rt : RateType)
    (rest : list RateType) (update_type : string) (o : Outside) (s : State) :
  hasattr "fetch_with_retry" = false /\
  fetch_with_retry BCBClient_class = None /\
  success (fst (_update_rates BCBClient_class self (rt :: rest) update_type o s)) = false /\
  rates_failed (fst (_update_rates BCBClient_class self (rt :: rest) update_type o s)) = 0 /\
  error (fst (_update_rates BCBClient_class self (rt :: rest) update_type o s))
    = Some "'BCBClient' object has no attribute 'fetch_with_retry'" /\
  tick (snd (_update_rates BCBClient_class self (rt :: rest) update_type o s)) = tick s /\
  sent (snd (_update_rates BCBClient_class self (rt :: rest) update_type o s)) = sent s.
Proof.
  repeat split.
Qed.

(** ** Frame rules: what a phase of the run leaves unchanged *)

Section Frames.
Context {S : Type}.
Variable R : S -> S -> Prop.
Hypothesis R_refl : forall s, R s s.
Hypothesis R_trans : forall a b c, R a b -> R b c -> R a c.

Lemma keeps_ret {A} (a : A) : keeps R (mret a).
Proof. intros o s. apply R_refl. Qed.

Lemma keeps_raise {A} (e : Exn) : keeps R (@mraise S A e).
Proof. intros o s. apply R_refl. Qed.

Lemma keeps_lift {A} (r : result A) : keeps R (lift_result r).
Proof. intros o s. apply R_refl. Qed.

Lemma keeps_get : keeps R get.
Proof. intros o s. apply R_refl. Qed.

Lemma keeps_bind {A B} (m : M S A) (k : A -> M S B) :
  keeps R m -> (forall a, keeps R (k a)) -> keeps R (mbind m k).
Proof.
  intros Hm Hk o s. unfold mbind. specialize (Hm o s).
  destruct (m o s) as [[e | a] s1]; simpl in *; [exact Hm | ].
  eapply R_trans; [exact Hm | apply Hk].
Qed.

Lemma keeps_try {A} (m : M S A) (handles : Exn -> bool) (h : Exn -> M S A) :
  keeps R m -> (forall e, keeps R (h e)) -> keeps R (try_except m handles h).
Proof.
  intros Hm Hh o s. unfold try_except. specialize (Hm o s).
  destruct (m o s) as [[e | a] s1]; simpl in *; [ | exact Hm].
  destruct (handles e); simpl; [ | exact Hm].
  eapply R_trans; [exact Hm | apply Hh].
Qed.

Lemma keeps_modify (f : S -> S) : (forall s, R s (f s)) -> keeps R (modify f).
Proof. intros Hf o s. apply Hf. Qed.
End Frames.

Lemma quiet_refl (r : Run) : quiet r r.
Proof. repeat split. Qed.

Lemma quiet_trans (a b c : Run) : quiet a b -> quiet b c -> quiet a c.
Proof.
  unfold quiet. intros [A1 [A2 [A3 [A4 A5]]]] [B1 [B2 [B3 [B4 B5]]]].
  repeat split; congruence.
Qed.

Lemma steady_refl (r : Run) : steady r r.
Proof. split; reflexivity. Qed.

Lemma steady_trans (a b c : Run) : steady a b -> steady b c -> steady a c.
Proof. unfold steady. intros [A1 A2] [B1 B2]. split; congruence. Qed.

Lemma quiet_steady (a b : Run) : quiet a b -> steady a b.
Proof. unfold quiet, steady. tauto. Qed.

(** A data-store call that leaves [scheduler_runs] alone is quiet. *)
Lemma quiet_db_call {A} (f : Z -> DataStore.DB -> DataStore.DB * A) :
  (forall t d, DataStore.scheduler_runs (fst (f t d)) = DataStore.scheduler_runs d) ->
  keeps quiet (in_world (db_call f)).
Proof.
  intros Hf o r. unfold in_world, zoom, db_call.
  specialize (Hf (clock o (tick (world r))) (db (world r))).
  destruct (f (clock o (tick (world r))) (db (world r))) as [d a].
  simpl in *. repeat split. exact Hf.
Qed.

Lemma quiet_db_query {A} (f : Z -> DataStore.DB -> A) :
  keeps quiet (in_world (db_query f)).
Proof. intros o r. repeat split. Qed.

Lemma quiet_update_results (f : Results -> Results) :
  (forall x, rates_failed (f x) = rates_failed x /\ success (f x) = success x) ->
  keeps quiet (update_results f).
Proof.
  intros Hf o r. unfold update_results, modify. simpl.
  destruct (Hf (results r)) as [H1 H2]. repeat split; assumption.
Qed.

Lemma check_and_store_quiet (self : RateScheduler) (rt : RateType) (rd : RateData) :
  keeps quiet (check_and_store self rt rd).
Proof.
  unfold check_and_store.
  apply keeps_bind; [exact quiet_trans | apply quiet_db_query | intros history].
  apply keeps_bind; [exact quiet_trans | | intros _].
  - destruct (map DataStore.raw_value history); [apply keeps_ret, quiet_refl | ].
    apply keeps_bind; [exact quiet_trans | apply keeps_lift, quiet_refl | intros ar].
    destruct (AnomalyDetector.is_anomaly ar); [ | apply keeps_ret, quiet_refl].
    apply keeps_bind; [exact quiet_trans | | intros _].
    + apply quiet_update_results. intros x. split; reflexivity.
    + destruct (AnomalyDetector.anomaly_type ar); [ | apply keeps_raise, quiet_refl].
      apply keeps_bind; [exact quiet_trans | | intros _; apply keeps_ret, quiet_refl].
      apply quiet_db_call. reflexivity.
  - apply keeps_bind; [exact quiet_trans | | intros _; apply keeps_ret, quiet_refl].
    apply quiet_db_call. reflexivity.
Qed.

Lemma check_and_store_all_quiet (self : RateScheduler) (items : RateDict) :
  keeps quiet (check_and_store_all self items).
Proof.
  induction items as [ | [rt rd] items IH]; simpl.
  - apply keeps_ret, quiet_refl.
  - apply keeps_bind; [exact quiet_trans | apply check_and_store_quiet | intros _; exact IH].
Qed.

Lemma log_oracle_updates_quiet (keys : list RateType) (tx : option string)
    (blk gas : option Z) (st : string) (err : option string) :
  keeps quiet (log_oracle_updates keys tx blk gas st err).
Proof.
  induction keys as [ | k keys IH]; simpl.
  - apply keeps_ret, quiet_refl.
  - apply keeps_bind; [exact quiet_trans | | intros _; exact IH].
    apply quiet_db_call. reflexivity.
Qed.

(** ** The oracle phase *)

(** The pre-check only reads the chain. *)
Lemma check_needs_update_frame (rd : RateData) (o : Outside) (w : State) :
  db (snd (OracleUpdater.check_needs_update rd o w)) = db w /\
  sent (snd (OracleUpdater.check_needs_update rd o w)) = sent w.
Proof.
  unfold OracleUpdater.check_needs_update, mbind, mret, OracleUpdater.get_current_rate.
  destruct (getRate o (tick w) (value (rate_type rd))) as [a t d | msg | e];
    [destruct (int_truediv a OracleUpdater.PRECISION) | | ]; split; reflexivity.
Qed.

Lemma precheck_frame (force : bool) (rates : list RateData) :
  forall tu ts o w,
    db (snd (OracleUpdater.precheck force rates tu ts o w)) = db w /\
    sent (snd (OracleUpdater.precheck force rates tu ts o w)) = sent w.
Proof.
  induction rates as [ | rd rates IH]; simpl; intros tu ts o w; [split; reflexivity | ].
  unfold mbind.
  pose proof (check_needs_update_frame rd o w) as [Cd Cs].
  destruct (OracleUpdater.check_needs_update rd o w) as [[e | [needed reason]] w1];
    simpl in *; [split; assumption | ].
  destruct (needed || force).
  - destruct (IH (tu ++ [rd]) ts o w1) as [I1 I2]. split; congruence.
  - destruct (IH tu (ts ++ [(value (rate_type rd), reason)]) o w1) as [I1 I2].
    split; congruence.
Qed.

(** Logging the oracle updates returns. *)
Lemma log_oracle_updates_returns (keys : list RateType) (tx : option string)
    (blk gas : option Z) (st : string) (err : option string) (o : Outside) :
  forall r, fst (log_oracle_updates keys tx blk gas st err o r) = inr tt.
Proof.
  induction keys as [ | k keys IH]; simpl; intros r; [reflexivity | ].
  unfold mbind, in_world, zoom, db_call. simpl. apply IH.
Qed.

(** [sync_all_rates] leaves the database alone, and sends at most one
    batch: the one made of everything its own [fetch_all_latest] returned. *)
Lemma sync_all_rates_sent (o : Outside) (w w' : State)
    (res : result OracleUpdater.UpdateResult) :
  OracleUpdater.sync_all_rates false o w = (res, w') ->
  db w' = db w /\
  (sent w' = sent w \/
   exists rates n',
     fetch_all_latest new_BCBClient o (tick w) = (inr rates, n') /\
     sent w' = sent w ++ [OracleUpdater.batch_payload (dict_values rates)]).
Proof.
  unfold OracleUpdater.sync_all_rates, mbind at 1. unfold in_http, zoom.
  destruct (fetch_all_latest new_BCBClient o (tick w)) as [[e | rates] n'] eqn:F; simpl.
  - intros H. inv H. split; [reflexivity | now left].
  - destruct rates as [ | kv rates]; cbv beta iota.
    + intros H. inv H. split; [reflexivity | now left].
    + unfold mbind.
      pose proof (precheck_frame false (dict_values (kv :: rates)) [] [] o (set_tick n' w))
        as [Pd Ps].
      destruct (OracleUpdater.precheck false (dict_values (kv :: rates)) [] [] o
                  (set_tick n' w)) as [[e | [tu ts]] w1]; simpl in Pd, Ps.
      * intros H. inv H. split; [exact Pd | left; exact Ps].
      * destruct tu as [ | u tu].
        -- intros H. inv H. split; [exact Pd | left; exact Ps].
        -- unfold OracleUpdater.send_batch.
           destruct (batch_tx o (tick w1) _) as [e | h e | h receipt];
             intros H; inv H; simpl.
           ++ split; [exact Pd | left; exact Ps].
           ++ split; [exact Pd | right]. exists (kv :: rates), n'.
              split; [reflexivity | now rewrite Ps].
           ++ split; [exact Pd | right]. exists (kv :: rates), n'.
              split; [reflexivity | now rewrite Ps].
Qed.

(** The oracle phase never raises; it leaves the failure count and the
    scheduler runs alone; the batches it sends are those of
    [sync_all_rates]; and it can only turn the success flag on when
    [sync_all_rates] returned a successful result. *)
Lemma update_oracle_spec (fetched : RateDict) (o : Outside) (r r' : Run)
    (res : result unit) :
  update_oracle fetched o r = (res, r') ->
  res = inr tt /\
  steady r r' /\
  (sent (world r') = sent (world r) \/
   exists rates n',
     fetch_all_latest new_BCBClient o (tick (world r)) = (inr rates, n') /\
     sent (world r') = sent (world r) ++ [OracleUpdater.batch_payload (dict_values rates)]) /\
  (success (results r') = true ->
   success (results r) = true \/
   exists u w',
     OracleUpdater.sync_all_rates false o (world r) = (inr u, w') /\
     OracleUpdater.success u = true).
Proof.
  unfold update_oracle, try_except, mbind at 1.
  unfold in_world at 1, zoom, OracleUpdater.new_OracleUpdater.
  destruct (updater_init o) as [e0 | ]; simpl.
  - (* the constructor raised *)
    unfold mbind, update_results, modify. simpl.
    match goal with
    | |- context [log_oracle_updates ?k ?a ?b ?c ?d ?e o ?r0] =>
        pose proof (log_oracle_updates_quiet k a b c d e o r0) as Q;
        pose proof (log_oracle_updates_returns k a b c d e o r0) as L;
        destruct (log_oracle_updates k a b c d e o r0) as [res0 r0']
    end.
    simpl in *. subst res0. destruct Q as [Q1 [Q2 [Q3 [Q4 Q5]]]]. simpl in *.
    intros H. inv H.
    split; [reflexivity | ]. split; [split; assumption | ].
    split; [now left | ]. intros H. rewrite Q2 in H. now left.
  - (* the constructor returned *)
    unfold mbind at 1. unfold in_world at 1, zoom.
    replace {| results := results r; world := world r |} with r by (now destruct r).
    destruct (OracleUpdater.sync_all_rates false o (world r)) as [[e | u] w'] eqn:Sy;
      pose proof (sync_all_rates_sent o (world r) _ _ Sy) as [Sd Ss];
      simpl; unfold mbind, update_results, modify; simpl;
      match goal with
      | |- context [log_oracle_updates ?k ?a ?b ?c ?d ?e o ?r0] =>
          pose proof (log_oracle_updates_quiet k a b c d e o r0) as Q;
          pose proof (log_oracle_updates_returns k a b c d e o r0) as L;
          destruct (log_oracle_updates k a b c d e o r0) as [res0 r0']
      end;
      simpl in *; subst res0; destruct Q as [Q1 [Q2 [Q3 [Q4 Q5]]]]; simpl in *;
      intros H; inv H;
      (split; [reflexivity | ]); (split; [split; [assumption | now rewrite Q3, Sd] | ]);
      (split; [now rewrite Q4 | ]); intros H; rewrite Q2 in H.
    + now left.
    + right. exists u, w'. split; [reflexivity | exact H].
Qed.

(** ** The fetch loop *)

Lemma RateType_eqb_eq (a b : RateType) : RateType_eqb a b = true <-> a = b.
Proof. destruct a, b; simpl; split; intros H; try reflexivity; discriminate. Qed.




(** ** Closing the run *)

Lemma latest_open_app (job : string) (l1 l2 : list DataStore.SchedulerRun) :
  forall best,
    DataStore.latest_open job best (l1 ++ l2)
    = DataStore.latest_open job (DataStore.latest_open job best l1) l2.
Proof.
  induction l1 as [ | r l1 IH]; simpl; intros best; [reflexivity | ].
  destruct (DataStore.is_open job r); [ | apply IH].
  destruct best as [b | ]; [ | apply IH].
  destruct (DataStore.started_at b <? DataStore.started_at r); apply IH.
Qed.


(** ** C8 *)

Lemma update_rates_run_unfold (cls : ClientClass) (self : RateScheduler)
    (rate_types : list RateType) (update_type : string) (o : Outside) (s : State) :
  update_rates_run cls self rate_types update_type o
    {| results := initial_results; world := s |}
  = try_except (update_rates_body cls self rate_types update_type)
      (fun _ => true)
      (fun e =>
         Env.mbind (update_results (set_error (exn_msg e)))
           (fun _ => in_world (db_call (fun t d =>
              (DataStore.update_scheduler_run (job_id_of update_type) t "failed"
                 0 0 (Some (exn_msg e)) d, tt)))))
      o (run_started update_type o s).
Proof. reflexivity. Qed.




End SchedulerProofs.

(* ================================================================== *)
(** * Further properties of the BCB client: dates *)
(* ================================================================== *)

Module DateProofs.
Import Py PyFloat BcbClient.

Ltac inv H := inversion H; subst; clear H.

(** [Some x = Some y] as [x = y], the terms left as they are. *)
Ltac some_eq H :=
  apply (f_equal (fun o => match o with Some x => x | None => 0 end)) in H;
  cbv beta iota in H; subst.

(** ** Digits *)

Lemma is_digit_val (c : ascii) : is_digit c = true -> 0 <= digit_val c <= 9.
Proof.
  unfold is_digit, digit_val. intros H. apply andb_true_iff in H.
  destruct H as [H1 H2]. apply N.leb_le in H1, H2. lia.
Qed.

Lemma nonzero_digit_val (c : ascii) : nonzero_digit c = true -> 1 <= digit_val c <= 9.
Proof.
  unfold nonzero_digit. intros H. apply andb_true_iff in H. destruct H as [D NZ].
  pose proof (is_digit_val c D) as B.
  destruct (Z.eq_dec (digit_val c) 0) as [Z0 | NZ0]; [ | lia].
  exfalso. unfold digit_val in Z0.
  assert (E : N_of_ascii c = 48%N) by lia.
  apply (f_equal ascii_of_N) in E. rewrite ascii_N_embedding in E. subst c.
  discriminate.
Qed.

Ltac char_cases :=
  repeat match goal with
         | H : (_ || _) = true |- _ => apply orb_true_iff in H; destruct H as [H | H]
         | H : (_ && _) = true |- _ => apply andb_true_iff in H; destruct H as [? H]
         | H : (?a =? _)%char = true |- _ => apply Ascii.eqb_eq in H; subst a
         end.

Lemma day_token_range (l : list ascii) (d : Z) : day_token l = Some d -> 1 <= d <= 31.
Proof.
  unfold day_token. destruct l as [ | a [ | b [ | c l]]]; try discriminate.
  - destruct (nonzero_digit a) eqn:N; [ | discriminate].
    intros H. some_eq H. apply nonzero_digit_val in N. lia.
  - destruct ((a =? "3")%char && ((b =? "0")%char || (b =? "1")%char)) eqn:C1.
    { intros H. some_eq H. char_cases; vm_compute; split; discriminate. }
    destruct (((a =? "1")%char || (a =? "2")%char) && is_digit b) eqn:C2.
    { intros H. some_eq H. apply andb_true_iff in C2. destruct C2 as [A B].
      apply is_digit_val in B. char_cases.
      - change (digit_val "1") with 1. lia.
      - change (digit_val "2") with 2. lia. }
    destruct (((a =? "0")%char || (a =? " ")%char) && nonzero_digit b) eqn:C3;
      [ | discriminate].
    intros H. some_eq H. apply andb_true_iff in C3. destruct C3 as [_ B].
    apply nonzero_digit_val in B. lia.
Qed.

Lemma month_token_range (l : list ascii) (m : Z) : month_token l = Some m -> 1 <= m <= 12.
Proof.
  unfold month_token. destruct l as [ | a [ | b [ | c l]]]; try discriminate.
  - destruct (nonzero_digit a) eqn:N; [ | discriminate].
    intros H. some_eq H. apply nonzero_digit_val in N. lia.
  - destruct ((a =? "1")%char && ((b =? "0")%char || (b =? "1")%char || (b =? "2")%char)) eqn:C1.
    { intros H. some_eq H. char_cases; vm_compute; split; discriminate. }
    destruct ((a =? "0")%char && nonzero_digit b) eqn:C2; [ | discriminate].
    intros H. some_eq H. apply andb_true_iff in C2. destruct C2 as [_ B].
    apply nonzero_digit_val in B. lia.
Qed.

Lemma year_token_range (l : list ascii) (y : Z) : year_token l = Some y -> 0 <= y <= 9999.
Proof.
  unfold year_token. destruct l as [ | a [ | b [ | c [ | d [ | e l]]]]]; try discriminate.
  destruct (is_digit a && is_digit b && is_digit c && is_digit d) eqn:D; [ | discriminate].
  intros H. some_eq H.
  apply andb_true_iff in D. destruct D as [D Dd].
  apply andb_true_iff in D. destruct D as [D Dc].
  apply andb_true_iff in D. destruct D as [Da Db].
  apply is_digit_val in Da, Db, Dc, Dd. lia.
Qed.

Lemma days_in_month_range (y m : Z) : 28 <= days_in_month y m <= 31.
Proof.
  unfold days_in_month.
  destruct (m =? 2); [destruct (is_leap y); lia | ].
  destruct ((m =? 4) || (m =? 6) || (m =? 9) || (m =? 11)); lia.
Qed.

(** ** [strptime] *)

(** What [strptime] returns is a date of the calendar. *)
Lemma strptime_dmy_valid (s : string) (dt : datetime) :
  strptime_dmy s = inr dt -> valid_date dt.
Proof.
  unfold strptime_dmy, raise, ret.
  destruct (split_on "/" [] (list_ascii_of_string s)) as [ | d [ | m [ | y [ | z l]]]];
    try discriminate.
  destruct (day_token d) as [dd | ] eqn:Dd; [ | discriminate].
  destruct (month_token m) as [mm | ] eqn:Dm; [ | discriminate].
  destruct (year_token y) as [yy | ] eqn:Dy; [ | discriminate].
  destruct ((1 <=? yy) && (dd <=? days_in_month yy mm)) eqn:C; [ | discriminate].
  intros H. inv H. unfold valid_date. simpl.
  apply andb_true_iff in C. destruct C as [C1 C2].
  apply Z.leb_le in C1, C2.
  apply day_token_range in Dd. apply month_token_range in Dm. apply year_token_range in Dy.
  lia.
Qed.

Lemma parse_bcb_date_returns (v : PyValue) (n : Z) (dt : datetime) :
  _parse_bcb_date v = inr (n, dt) ->
  exists s, v = PyStr s /\ strptime_dmy s = inr dt /\ n = yyyymmdd dt.
Proof.
  unfold _parse_bcb_date, raise, ret. destruct v as [s | r]; [ | discriminate].
  destruct (strptime_dmy s) as [e | dt'] eqn:E.
  - destruct (is_ValueError e); discriminate.
  - intros H. inv H. exists s. auto.
Qed.

(** The fields of a date read back from its [YYYYMMDD] integer. *)
Lemma yyyymmdd_decode (dt : datetime) :
  valid_date dt ->
  yyyymmdd dt / 10000 = dt_year dt /\
  (yyyymmdd dt / 100) mod 100 = dt_month dt /\
  yyyymmdd dt mod 100 = dt_day dt.
Proof.
  unfold valid_date, yyyymmdd. intros [Hy [Hm Hd]].
  pose proof (days_in_month_range (dt_year dt) (dt_month dt)) as R.
  set (y := dt_year dt) in *. set (m := dt_month dt) in *. set (d := dt_day dt) in *.
  assert (Q : (y * 10000 + m * 100 + d) / 100 = y * 100 + m).
  { symmetry. apply (Z.div_unique_pos _ 100 _ d); lia. }
  split; [ | split].
  - symmetry. apply (Z.div_unique_pos _ 10000 _ (m * 100 + d)); lia.
  - rewrite Q. symmetry. apply (Z.mod_unique_pos _ 100 y); lia.
  - symmetry. apply (Z.mod_unique_pos _ 100 (y * 100 + m)); lia.
Qed.

(** X1.  Whatever [_parse_bcb_date] returns is a date of the calendar (year
    1 to 9999, month 1 to 12, a day that month has), and the integer
    returned beside it is its [YYYYMMDD] encoding, from which year, month
    and day are read back by division. *)
Theorem parse_bcb_date_calendar (v : PyValue) (n : Z) (dt : datetime) :
  _parse_bcb_date v = inr (n, dt) ->
  valid_date dt /\
  n = dt_year dt * 10000 + dt_month dt * 100 + dt_day dt /\
  n / 10000 = dt_year dt /\
  (n / 100) mod 100 = dt_month dt /\
  n mod 100 = dt_day dt.
Proof.
  intros H. apply parse_bcb_date_returns in H. destruct H as [s [_ [P N]]].
  apply strptime_dmy_valid in P. subst n.
  split; [exact P | ]. split; [reflexivity | ]. now apply yyyymmdd_decode.
Qed.

Lemma parse_bcb_date_calendar_witness :
  _parse_bcb_date (PyStr "29/02/2024")
  = inr (20240229, {| dt_year := 2024; dt_month := 2; dt_day := 29 |}) /\
  20240229 / 10000 = 2024 /\ (20240229 / 100) mod 100 = 2 /\ 20240229 mod 100 = 29.
Proof.
  assert (P : _parse_bcb_date (PyStr "29/02/2024")
              = inr (20240229, {| dt_year := 2024; dt_month := 2; dt_day := 29 |}))
    by (vm_compute; reflexivity).
  split; [exact P | ].
  destruct (parse_bcb_date_calendar _ _ _ P) as [_ [_ [Y [M D]]]].
  split; [exact Y | split; [exact M | exact D]].
Defined.

(** X2.  The integers [_parse_bcb_date] returns compare as the dates do on
    the calendar: one is smaller exactly when its date is earlier, and two
    are equal exactly when the dates are the same.  This is what the
    comparison of reference dates in the updater relies on. *)
Theorem parse_bcb_date_order (v1 v2 : PyValue) (n1 n2 : Z) (dt1 dt2 : datetime) :
  _parse_bcb_date v1 = inr (n1, dt1) ->
  _parse_bcb_date v2 = inr (n2, dt2) ->
  (n1 < n2 <-> earlier dt1 dt2) /\ (n1 = n2 <-> dt1 = dt2).
Proof.
  intros H1 H2.
  apply parse_bcb_date_returns in H1, H2.
  destruct H1 as [s1 [_ [P1 N1]]]. destruct H2 as [s2 [_ [P2 N2]]].
  apply strptime_dmy_valid in P1, P2. subst n1 n2.
  unfold valid_date in P1, P2. unfold yyyymmdd, earlier.
  pose proof (days_in_month_range (dt_year dt1) (dt_month dt1)).
  pose proof (days_in_month_range (dt_year dt2) (dt_month dt2)).
  destruct dt1 as [y1 m1 d1], dt2 as [y2 m2 d2]. simpl in *.
  split; [lia | ]. split; intros E.
  - assert (y1 = y2 /\ m1 = m2 /\ d1 = d2) as [-> [-> ->]] by lia. reflexivity.
  - inv E. reflexivity.
Qed.

Lemma parse_bcb_date_order_witness :
  (20241231 < 20250101 <->
   earlier {| dt_year := 2024; dt_month := 12; dt_day := 31 |}
           {| dt_year := 2025; dt_month := 1; dt_day := 1 |}) /\
  (20241231 = 20250101 <->
   {| dt_year := 2024; dt_month := 12; dt_day := 31 |}
   = {| dt_year := 2025; dt_month := 1; dt_day := 1 |}).
Proof.
  apply (parse_bcb_date_order (PyStr "31/12/2024") (PyStr "01/01/2025"));
    vm_compute; reflexivity.
Defined.

(** ** [strftime] and back *)

Lemma list_ascii_of_string_app (a b : string) :
  list_ascii_of_string (String.append a b)
  = list_ascii_of_string a ++ list_ascii_of_string b.
Proof. induction a as [ | c a IH]; simpl; [reflexivity | now rewrite IH]. Qed.

(** A field without the separator is split off whole. *)
Lemma split_on_field (sep : ascii) (l rest : list ascii) :
  forallb (fun c => negb (c =? sep)%char) l = true ->
  forall cur,
    split_on sep cur (l ++ sep :: rest) = (rev cur ++ l) :: split_on sep [] rest.
Proof.
  induction l as [ | c l IH]; simpl; intros H cur.
  - rewrite Ascii.eqb_refl, app_nil_r. reflexivity.
  - apply andb_true_iff in H. destruct H as [Hc Hl].
    apply negb_true_iff in Hc. rewrite Hc, (IH Hl). simpl.
    now rewrite <- app_assoc.
Qed.

Lemma split_on_last (sep : ascii) (l : list ascii) :
  forallb (fun c => negb (c =? sep)%char) l = true ->
  forall cur, split_on sep cur l = [rev cur ++ l].
Proof.
  induction l as [ | c l IH]; simpl; intros H cur.
  - now rewrite app_nil_r.
  - apply andb_true_iff in H. destruct H as [Hc Hl].
    apply negb_true_iff in Hc. rewrite Hc, (IH Hl). simpl.
    now rewrite <- app_assoc.
Qed.

Lemma in_range (lo len n : Z) :
  0 <= lo -> lo <= n < lo + len ->
  In n (map Z.of_nat (seq (Z.to_nat lo) (Z.to_nat len))).
Proof.
  intros L H. apply in_map_iff. exists (Z.to_nat n). split; [lia | ].
  apply in_seq. lia.
Qed.

(** A field of [strftime] holds no separator and is read back by the token
    of [strptime]: checked on every value the field takes. *)
Lemma day_field (d : Z) :
  1 <= d <= 31 ->
  forallb (fun c => negb (c =? "/")%char) (list_ascii_of_string (two_digits d)) = true /\
  day_token (list_ascii_of_string (two_digits d)) = Some d.
Proof.
  intros H.
  assert (All : forallb (fun d =>
                  forallb (fun c => negb (c =? "/")%char) (list_ascii_of_string (two_digits d))
                  && match day_token (list_ascii_of_string (two_digits d)) with
                     | Some d' => d' =? d
                     | None => false
                     end) (map Z.of_nat (seq (Z.to_nat 1) (Z.to_nat 31))) = true)
    by (vm_compute; reflexivity).
  rewrite forallb_forall in All. specialize (All d (in_range 1 31 d ltac:(lia) ltac:(lia))).
  apply andb_true_iff in All. destruct All as [A B]. split; [exact A | ].
  destruct (day_token _) as [d' | ]; [ | discriminate].
  apply Z.eqb_eq in B. now subst.
Qed.

Lemma month_field (m : Z) :
  1 <= m <= 12 ->
  forallb (fun c => negb (c =? "/")%char) (list_ascii_of_string (two_digits m)) = true /\
  month_token (list_ascii_of_string (two_digits m)) = Some m.
Proof.
  intros H.
  assert (All : forallb (fun d =>
                  forallb (fun c => negb (c =? "/")%char) (list_ascii_of_string (two_digits d))
                  && match month_token (list_ascii_of_string (two_digits d)) with
                     | Some d' => d' =? d
                     | None => false
                     end) (map Z.of_nat (seq (Z.to_nat 1) (Z.to_nat 12))) = true)
    by (vm_compute; reflexivity).
  rewrite forallb_forall in All. specialize (All m (in_range 1 12 m ltac:(lia) ltac:(lia))).
  apply andb_true_iff in All. destruct All as [A B]. split; [exact A | ].
  destruct (month_token _) as [d' | ]; [ | discriminate].
  apply Z.eqb_eq in B. now subst.
Qed.

Lemma year_field (y : Z) :
  1000 <= y <= 9999 ->
  forallb (fun c => negb (c =? "/")%char) (list_ascii_of_string (str_of_int y)) = true /\
  year_token (list_ascii_of_string (str_of_int y)) = Some y.
Proof.
  intros H.
  assert (All : forallb (fun d =>
                  forallb (fun c => negb (c =? "/")%char) (list_ascii_of_string (str_of_int d))
                  && match year_token (list_ascii_of_string (str_of_int d)) with
                     | Some d' => d' =? d
                     | None => false
                     end) (map Z.of_nat (seq (Z.to_nat 1000) (Z.to_nat 9000))) = true)
    by (vm_compute; reflexivity).
  rewrite forallb_forall in All. specialize (All y (in_range 1000 9000 y ltac:(lia) ltac:(lia))).
  apply andb_true_iff in All. destruct All as [A B]. split; [exact A | ].
  destruct (year_token _) as [d' | ]; [ | discriminate].
  apply Z.eqb_eq in B. now subst.
Qed.

(** X3.  The text [strftime("%d/%m/%Y")] writes for a date, as
    [fetch_date_range] puts it into the request, is read back by
    [_parse_bcb_date] as the same date, for every date of the calendar from
    the year 1000 on. *)
Theorem strftime_parse_round_trip (dt : datetime) :
  valid_date dt -> 1000 <= dt_year dt ->
  _parse_bcb_date (PyStr (strftime_dmy dt)) = inr (yyyymmdd dt, dt).
Proof.
  intros [Hy [Hm Hd]] Y.
  pose proof (days_in_month_range (dt_year dt) (dt_month dt)) as R.
  destruct (day_field (dt_day dt) ltac:(lia)) as [D1 D2].
  destruct (month_field (dt_month dt) Hm) as [M1 M2].
  destruct (year_field (dt_year dt) ltac:(lia)) as [Y1 Y2].
  unfold _parse_bcb_date, strptime_dmy, strftime_dmy.
  rewrite !list_ascii_of_string_app.
  change (list_ascii_of_string "/") with ["/"%char]. cbn [app].
  rewrite (split_on_field "/" _ _ D1 []), (split_on_field "/" _ _ M1 []),
    (split_on_last "/" _ Y1 []).
  cbn [rev app]. rewrite D2, M2, Y2.
  assert (C : (1 <=? dt_year dt) && (dt_day dt <=? days_in_month (dt_year dt) (dt_month dt))
              = true).
  { apply andb_true_iff. split; apply Z.leb_le; lia. }
  rewrite C. unfold ret. destruct dt; reflexivity.
Qed.

Lemma strftime_parse_round_trip_witness :
  strftime_dmy {| dt_year := 2024; dt_month := 2; dt_day := 9 |} = "09/02/2024" /\
  _parse_bcb_date (PyStr "09/02/2024")
  = inr (20240209, {| dt_year := 2024; dt_month := 2; dt_day := 9 |}).
Proof.
  split; [reflexivity | ].
  apply (strftime_parse_round_trip {| dt_year := 2024; dt_month := 2; dt_day := 9 |}).
  - unfold valid_date. vm_compute. repeat split; discriminate.
  - vm_compute. discriminate.
Defined.

End DateProofs.

(* ================================================================== *)
(** * Further properties of the BCB client: responses and fetches *)
(* ================================================================== *)

Module ResponseProofs.
Import Py PyFloat BcbClient Env BcbFetch.

Ltac inv H := inversion H; subst; clear H.

(** ** The loop and the sort *)

(** When the loop returns, it has added to what it held the records it
    could process, in the order of the response. *)
Lemma process_loop_processed (self : BCBClient) (rt : RateType) (data : list Item) :
  forall acc rs,
    process_loop self rt data acc = inr rs -> rs = acc ++ processed self rt data.
Proof.
  unfold processed.
  induction data as [ | item data IH]; simpl; intros acc rs H.
  - inv H. now rewrite app_nil_r.
  - destruct (process_item self rt item) as [e | rd].
    + destruct (handle e); try discriminate. simpl. now apply IH.
    + apply IH in H. rewrite H, <- app_assoc. reflexivity.
Qed.

Lemma process_response_processed (self : BCBClient) (rt : RateType) (data : list Item)
    (rs : list RateData) :
  _process_response self data rt = inr rs -> rs = sort_desc (processed self rt data).
Proof.
  unfold _process_response, bind, ret.
  destruct (process_loop self rt data []) as [e | kept] eqn:PL; [discriminate | ].
  intros H. inv H. apply process_loop_processed in PL. now subst.
Qed.

Lemma insert_desc_descending (x : RateData) (l : list RateData) :
  descending l -> descending (insert_desc x l).
Proof.
  induction l as [ | y l IH]; simpl; intros D.
  - split; [intros y [] | exact I].
  - destruct D as [Dy Dl].
    destruct (Z.ltb_spec (real_world_date x) (real_world_date y)) as [L | L]; simpl.
    + split; [ | now apply IH]. intros z Hz.
      apply BcbClientProofs.insert_desc_In in Hz. destruct Hz as [-> | Hz]; [lia | now apply Dy].
    + split; [ | split; assumption].
      intros z [<- | Hz]; [lia | ]. specialize (Dy z Hz). lia.
Qed.

Lemma sort_desc_descending (l : list RateData) : descending (sort_desc l).
Proof.
  induction l as [ | x l IH]; simpl; [exact I | now apply insert_desc_descending].
Qed.

(** The sort is stable: the records of one date keep their order. *)
Lemma insert_desc_filter (d : Z) (x : RateData) (l : list RateData) :
  filter (fun r => real_world_date r =? d) (insert_desc x l)
  = filter (fun r => real_world_date r =? d) (x :: l).
Proof.
  induction l as [ | y l IH]; [reflexivity | ].
  cbn [insert_desc].
  destruct (Z.ltb_spec (real_world_date x) (real_world_date y)) as [L | L]; [ | reflexivity].
  cbn [filter] in IH |- *. rewrite IH.
  destruct (Z.eqb_spec (real_world_date y) d), (Z.eqb_spec (real_world_date x) d);
    try reflexivity.
  lia.
Qed.

Lemma sort_desc_filter (d : Z) (l : list RateData) :
  filter (fun r => real_world_date r =? d) (sort_desc l)
  = filter (fun r => real_world_date r =? d) l.
Proof.
  induction l as [ | x l IH]; [reflexivity | ].
  cbn [sort_desc fold_right]. fold (sort_desc l).
  rewrite insert_desc_filter. cbn [filter]. now rewrite IH.
Qed.

Lemma insert_desc_length (x : RateData) (l : list RateData) :
  List.length (insert_desc x l) = S (List.length l).
Proof.
  induction l as [ | y l IH]; [reflexivity | ].
  cbn [insert_desc]. destruct (real_world_date x <? real_world_date y); simpl; [ | reflexivity].
  now rewrite IH.
Qed.

Lemma sort_desc_length (l : list RateData) : List.length (sort_desc l) = List.length l.
Proof.
  induction l as [ | x l IH]; [reflexivity | ].
  cbn [sort_desc fold_right]. fold (sort_desc l). rewrite insert_desc_length. simpl. now rewrite IH.
Qed.

(** What [_process_response] returns is in descending order and has the
    members the loop processed. *)
Lemma process_response_members (self : BCBClient) (rt : RateType) (data : list Item)
    (rs : list RateData) :
  _process_response self data rt = inr rs ->
  descending rs /\ (forall rd, In rd rs <-> In rd (processed self rt data)).
Proof.
  intros H. apply process_response_processed in H. subst rs.
  split; [apply sort_desc_descending | intros rd; apply BcbClientProofs.sort_desc_In].
Qed.

(** X4.  The list [_process_response] returns holds exactly the records of
    the response that could be processed, none lost and none added, with
    the reference dates descending; records of the same date keep the order
    they had in the response. *)
Theorem process_response_sorted (self : BCBClient) (rt : RateType) (data : list Item)
    (rs : list RateData) :
  _process_response self data rt = inr rs ->
  descending rs /\
  (forall rd, In rd rs <-> In rd (processed self rt data)) /\
  List.length rs = List.length (processed self rt data) /\
  (forall d, filter (fun r => real_world_date r =? d) rs
             = filter (fun r => real_world_date r =? d) (processed self rt data)).
Proof.
  intros H. apply process_response_processed in H. subst rs.
  split; [apply sort_desc_descending | ].
  split; [intros rd; apply BcbClientProofs.sort_desc_In | ].
  split; [apply sort_desc_length | intros d; apply sort_desc_filter].
Qed.

Lemma process_response_sorted_witness :
  exists older newer,
    _process_response new_BCBClient [Fixtures.good_record; Fixtures.later_record] CDI
    = inr [newer; older] /\
    real_world_date older = 20241126 /\ real_world_date newer = 20241127 /\
    descending [newer; older].
Proof.
  do 2 eexists.
  assert (P : _process_response new_BCBClient [Fixtures.good_record; Fixtures.later_record] CDI
              = inr (sort_desc (processed new_BCBClient CDI
                                  [Fixtures.good_record; Fixtures.later_record])))
    by (vm_compute; reflexivity).
  split; [vm_compute; reflexivity | ].
  split; [reflexivity | ]. split; [reflexivity | ].
  exact (proj1 (process_response_sorted _ _ _ _ P)).
Defined.

(** ** What every record returned looks like *)

Lemma parse_date_returns (item : Item) (d : PyValue) (date : Z) (dt : datetime) :
  parse_date item = inr (d, date, dt) ->
  getitem item "data" = inr d /\ _parse_bcb_date d = inr (date, dt).
Proof.
  unfold parse_date, bind, ret.
  destruct (getitem item "data") as [e | d0]; [discriminate | ].
  destruct (_parse_bcb_date d0) as [e | [date0 dt0]] eqn:P; [discriminate | ].
  intros H. inv H. split; [reflexivity | exact P].
Qed.

Lemma process_item_consistent (self : BCBClient) (rt : RateType) (item : Item)
    (rd : RateData) :
  process_item self rt item = inr rd ->
  consistent rt rd /\ (validate self = true -> within_bounds rt rd).
Proof.
  unfold process_item, bind, ret.
  destruct (parse_date item) as [e | [[d date] dt]] eqn:PD; [discriminate | ].
  destruct (parse_value item) as [e | raw]; [discriminate | ].
  destruct (_scale_to_chainlink raw) as [e | scaled] eqn:SC; [discriminate | ].
  destruct (_validate_value self rt scaled raw) as [e | []] eqn:V; [discriminate | ].
  intros H. inv H. apply parse_date_returns in PD. destruct PD as [_ PD].
  split.
  - unfold consistent. cbn.
    destruct (DateProofs.parse_bcb_date_returns _ _ _ PD) as [s [-> _]].
    repeat split; assumption.
  - intros On. unfold within_bounds. cbn.
    unfold _validate_value in V. rewrite On in V. cbn in V.
    destruct (Z.ltb_spec scaled (min_value (RATE_CONFIGS rt))); [discriminate | ].
    destruct (Z.ltb_spec (max_value (RATE_CONFIGS rt)) scaled); [discriminate | ].
    lia.
Qed.

Lemma processed_all (self : BCBClient) (rt : RateType) (data : list Item) (rd : RateData) :
  In rd (processed self rt data) ->
  consistent rt rd /\ (validate self = true -> within_bounds rt rd).
Proof.
  unfold processed. rewrite in_flat_map. intros [item [_ H]].
  destruct (process_item self rt item) as [e | rd'] eqn:P; [destruct H | ].
  destruct H as [<- | []]. now apply process_item_consistent in P.
Qed.

Lemma process_response_all (self : BCBClient) (rt : RateType) (data : list Item)
    (rs : list RateData) (rd : RateData) :
  _process_response self data rt = inr rs -> In rd rs ->
  consistent rt rd /\ (validate self = true -> within_bounds rt rd).
Proof.
  intros H Hin. apply process_response_processed in H. subst rs.
  apply (proj1 (BcbClientProofs.sort_desc_In _ _)) in Hin. now apply processed_all in Hin.
Qed.

(** ** Requests *)

(** A request is one call to the API; what it raises is a
    [BCBClientError]; what it returns is the non-empty body of the answer. *)
Lemma request_spec (url : string) (o : Outside) (n : nat) :
  snd (_request url o n) = S n /\
  (forall e, fst (_request url o n) = inl e -> is_BCBClientError e = true) /\
  (forall data, fst (_request url o n) = inr data -> http o n url = HttpOk data /\ data <> []).
Proof.
  unfold _request, raise, ret.
  destruct (http o n url) as [[ | item data] | code text | msg | msg]; cbn;
    (split; [reflexivity | ]); split; intros x H; inv H; try reflexivity.
  split; [reflexivity | discriminate].
Qed.

Lemma fetch_latest_tick (self : BCBClient) (rt : RateType) (o : Outside) (n : nat) :
  snd (fetch_latest self rt o n) = S n.
Proof.
  unfold fetch_latest, mbind, lift_result, mraise, mret.
  remember (_build_url rt (Some 1) None None) as url eqn:Eurl.
  pose proof (request_spec url o n) as [T _].
  destruct (_request url o n) as [[e | data] n1]; [exact T | ].
  destruct (_process_response self data rt) as [e | [ | r rs]]; exact T.
Qed.

Lemma fetch_latest_returns (self : BCBClient) (rt : RateType) (o : Outside) (n n' : nat)
    (r : RateData) :
  fetch_latest self rt o n = (inr r, n') ->
  exists data rs,
    http o n (_build_url rt (Some 1) None None) = HttpOk data /\
    _process_response self data rt = inr (r :: rs).
Proof.
  unfold fetch_latest, mbind, lift_result, mraise, mret.
  remember (_build_url rt (Some 1) None None) as url eqn:Eurl.
  pose proof (request_spec url o n) as [_ [_ R]].
  destruct (_request url o n) as [[e | data] n1]; [discriminate | ].
  destruct (R data eq_refl) as [Hh _].
  destruct (_process_response self data rt) as [e | [ | r0 rs]] eqn:P; try discriminate.
  intros H. inv H. exists data, rs. split; [exact Hh | exact P].
Qed.

(** X5.  [fetch_latest] makes one request, for the last record of the
    series, and what it returns is a record of the answer that could be
    processed whose reference date is the greatest of them all: the most
    recent one, in whatever order the API listed the records. *)
Theorem fetch_latest_most_recent (self : BCBClient) (rt : RateType) (o : Outside)
    (n n' : nat) (r : RateData) :
  fetch_latest self rt o n = (inr r, n') ->
  n' = S n /\
  exists data,
    http o n (_build_url rt (Some 1) None None) = HttpOk data /\
    In r (processed self rt data) /\
    forall rd, In rd (processed self rt data) -> real_world_date rd <= real_world_date r.
Proof.
  intros H. pose proof (fetch_latest_tick self rt o n) as T. rewrite H in T. cbn in T.
  split; [exact T | ].
  destruct (fetch_latest_returns _ _ _ _ _ _ H) as [data [rs [Hh P]]].
  exists data. split; [exact Hh | ].
  destruct (process_response_members _ _ _ _ P) as [[Top _] Mem].
  split; [apply Mem; now left | ].
  intros rd Hrd. apply Mem in Hrd. destruct Hrd as [<- | Hrd]; [lia | now apply Top].
Qed.

Lemma fetch_latest_most_recent_witness :
  exists r,
    fetch_latest new_BCBClient CDI Fixtures.two_records_outside 0%nat = (inr r, 1%nat) /\
    real_world_date r = 20241127 /\
    exists data,
      http Fixtures.two_records_outside 0%nat (_build_url CDI (Some 1) None None)
      = HttpOk data /\
      In r (processed new_BCBClient CDI data) /\
      forall rd, In rd (processed new_BCBClient CDI data) ->
                 real_world_date rd <= real_world_date r.
Proof.
  eexists.
  match goal with
  | |- ?A /\ _ => assert (F : A) by (vm_compute; reflexivity)
  end.
  split; [exact F | ]. split; [reflexivity | ].
  exact (proj2 (fetch_latest_most_recent _ _ _ _ _ _ F)).
Defined.

Lemma fetch_history_returns (self : BCBClient) (rt : RateType) (count : Z) (o : Outside)
    (n n' : nat) (rs : list RateData) :
  fetch_history self rt count o n = (inr rs, n') ->
  exists data, _process_response self data rt = inr rs.
Proof.
  unfold fetch_history, mbind, lift_result.
  destruct (_request _ o n) as [[e | data] n1]; [discriminate | ].
  intros H. inv H. now exists data.
Qed.

Lemma fetch_date_range_returns (self : BCBClient) (rt : RateType) (sd ed : datetime)
    (o : Outside) (n n' : nat) (rs : list RateData) :
  fetch_date_range self rt sd ed o n = (inr rs, n') ->
  exists data, _process_response self data rt = inr rs.
Proof.
  unfold fetch_date_range, mbind, lift_result.
  destruct (_request _ o n) as [[e | data] n1]; [discriminate | ].
  intros H. inv H. now exists data.
Qed.

(** ** [fetch_all_latest] *)

Lemma dict_set_fresh_entries (k : RateType) (v : RateData) (d : RateDict) :
  ~ In k (dict_keys d) -> dict_set k v d = d ++ [(k, v)].
Proof.
  induction d as [ | [k' v'] d IH]; simpl; intros NI; [reflexivity | ].
  destruct (RateType_eqb k k') eqn:E.
  - apply SchedulerProofs.RateType_eqb_eq in E. subst. exfalso. apply NI. now left.
  - f_equal. apply IH. intros H. apply NI. now right.
Qed.

(** One round of the loop: a fetch that returns adds its record, one that
    raises a [BCBClientError] changes nothing, any other exception leaves
    the loop. *)
Lemma fetch_all_loop_step (self : BCBClient) (rt : RateType) (rest : list RateType)
    (acc : RateDict) (o : Outside) (n : nat) :
  fetch_all_loop self (rt :: rest) acc o n
  = match fetch_latest self rt o n with
    | (inr r, n1) => fetch_all_loop self rest (dict_set rt r acc) o n1
    | (inl e, n1) => if is_BCBClientError e then fetch_all_loop self rest acc o n1
                     else (inl e, n1)
    end.
Proof.
  cbn [fetch_all_loop]. unfold mbind at 1. unfold try_except, mbind, mret.
  destruct (fetch_latest self rt o n) as [[e | r] n1]; [ | reflexivity].
  destruct (is_BCBClientError e); reflexivity.
Qed.

Lemma fetch_all_loop_tick (self : BCBClient) (o : Outside) (todo : list RateType) :
  forall acc n d n',
    fetch_all_loop self todo acc o n = (inr d, n') -> n' = (n + List.length todo)%nat.
Proof.
  induction todo as [ | rt rest IH]; intros acc n d n'.
  - cbn. intros H. inv H. lia.
  - rewrite fetch_all_loop_step.
    pose proof (fetch_latest_tick self rt o n) as T.
    destruct (fetch_latest self rt o n) as [[e | r] n1]; cbn in T; subst n1.
    + destruct (is_BCBClientError e); [ | discriminate].
      intros H. apply IH in H. cbn [List.length]. lia.
    + intros H. apply IH in H. cbn [List.length]. lia.
Qed.

Lemma fetch_all_loop_entries (self : BCBClient) (o : Outside) (todo : list RateType) :
  forall acc n d n',
    NoDup todo ->
    (forall k, In k (dict_keys acc) -> ~ In k todo) ->
    fetch_all_loop self todo acc o n = (inr d, n') ->
    exists added,
      d = acc ++ added /\
      NoDup (dict_keys added) /\
      incl (dict_keys added) todo /\
      (forall k v, In (k, v) added <->
                   exists i, nth_error todo i = Some k /\
                             fst (fetch_latest self k o (n + i)%nat) = inr v).
Proof.
  induction todo as [ | rt rest IH]; intros acc n d n' ND Fresh.
  - cbn. intros H. inv H. exists []. rewrite app_nil_r.
    split; [reflexivity | ]. split; [constructor | ]. split; [intros x [] | ].
    intros k v. split; [intros [] | intros [[ | i] [H _]]; discriminate].
  - inversion ND as [ | ? ? Hrt ND']; subst.
    rewrite fetch_all_loop_step.
    pose proof (fetch_latest_tick self rt o n) as T.
    destruct (fetch_latest self rt o n) as [[e | r] n1] eqn:F; cbn in T; subst n1.
    + destruct (is_BCBClientError e); [ | discriminate].
      intros H. apply IH in H; [ | exact ND' | intros k Hk Hin; apply (Fresh k Hk); now right].
      destruct H as [added [Hd [Hnd [Hincl Hchar]]]].
      exists added. split; [exact Hd | ]. split; [exact Hnd | ].
      split; [intros x Hx; right; now apply Hincl | ].
      intros k v. rewrite Hchar. split.
      * intros [i [Hi Hf]]. exists (S i). split; [exact Hi | ].
        now rewrite Nat.add_succ_r.
      * intros [[ | i] [Hi Hf]].
        -- cbn in Hi. inv Hi. rewrite Nat.add_0_r, F in Hf. discriminate.
        -- exists i. split; [exact Hi | ]. now rewrite Nat.add_succ_r in Hf.
    + assert (NI : ~ In rt (dict_keys acc)) by (intros Hk; apply (Fresh rt Hk); now left).
      rewrite (dict_set_fresh_entries rt r acc NI).
      intros H. apply IH in H; [ | exact ND' | ].
      * destruct H as [added [Hd [Hnd [Hincl Hchar]]]].
        exists ((rt, r) :: added). split; [now rewrite Hd, <- app_assoc | ].
        split; [cbn; constructor; [intros Hin; apply Hrt; now apply Hincl | exact Hnd] | ].
        split; [intros x [<- | Hx]; [now left | right; now apply Hincl] | ].
        intros k v. cbn [In]. rewrite Hchar. split.
        -- intros [E | [i [Hi Hf]]].
           ++ inv E. exists 0%nat. split; [reflexivity | ]. now rewrite Nat.add_0_r, F.
           ++ exists (S i). split; [exact Hi | ]. now rewrite Nat.add_succ_r.
        -- intros [[ | i] [Hi Hf]].
           ++ cbn in Hi. inv Hi. rewrite Nat.add_0_r, F in Hf. cbn in Hf. inv Hf. now left.
           ++ right. exists i. split; [exact Hi | ]. now rewrite Nat.add_succ_r in Hf.
      * intros k Hk Hin. unfold dict_keys in Hk. rewrite map_app in Hk.
        apply in_app_or in Hk. destruct Hk as [Hk | [Hk | []]].
        -- apply (Fresh k Hk). now right.
        -- cbn in Hk. subst. now apply Hrt.
Qed.

Lemma all_rate_types_NoDup : NoDup all_rate_types.
Proof. repeat constructor; cbn; intuition discriminate. Qed.

(** A record of the dictionary is one [fetch_latest] returned for its key. *)
Lemma fetch_all_latest_member (self : BCBClient) (o : Outside) (n n' : nat)
    (d : RateDict) (rt : RateType) (rd : RateData) :
  fetch_all_latest self o n = (inr d, n') -> In (rt, rd) d ->
  exists i, fst (fetch_latest self rt o (n + i)%nat) = inr rd.
Proof.
  unfold fetch_all_latest. intros H Hin.
  apply fetch_all_loop_entries in H; [ | exact all_rate_types_NoDup | intros k []].
  destruct H as [added [-> [_ [_ Char]]]]. cbn [app] in Hin.
  apply Char in Hin. destruct Hin as [i [_ F]]. now exists i.
Qed.

(** X6.  When [fetch_all_latest] returns, it has made six requests, one per
    rate type in the order of their definition; each rate type is in the
    dictionary at most once; and a rate type is there, with a record,
    exactly when [fetch_latest] returned that record at its turn. *)
Theorem fetch_all_latest_entries (self : BCBClient) (o : Outside) (n n' : nat)
    (d : RateDict) :
  fetch_all_latest self o n = (inr d, n') ->
  n' = (n + 6)%nat /\
  NoDup (dict_keys d) /\
  (forall rt rd,
      In (rt, rd) d <->
      exists i, nth_error all_rate_types i = Some rt /\
                fst (fetch_latest self rt o (n + i)%nat) = inr rd).
Proof.
  unfold fetch_all_latest. intros H.
  split; [apply fetch_all_loop_tick in H; exact H | ].
  apply fetch_all_loop_entries in H; [ | exact all_rate_types_NoDup | intros k []].
  destruct H as [added [-> [ND [_ Char]]]]. cbn [app].
  split; [exact ND | exact Char].
Qed.

Lemma fetch_all_latest_entries_witness :
  exists d,
    fetch_all_latest new_BCBClient (Fixtures.flaky_outside 1) 0%nat = (inr d, 6%nat) /\
    dict_keys d = [IPCA; SELIC; PTAX; TR] /\
    NoDup (dict_keys d).
Proof.
  eexists.
  match goal with
  | |- ?A /\ _ => assert (F : A) by (vm_compute; reflexivity)
  end.
  split; [exact F | ]. split; [reflexivity | ].
  exact (proj1 (proj2 (fetch_all_latest_entries _ _ _ _ _ F))).
Defined.

(** The loop over [pre ++ post] is the loop over [pre] followed, unless it
    raised, by the loop over [post]. *)
Lemma fetch_all_loop_app (self : BCBClient) (o : Outside) (pre post : list RateType) :
  forall acc n,
    fetch_all_loop self (pre ++ post) acc o n
    = match fetch_all_loop self pre acc o n with
      | (inr acc', n1) => fetch_all_loop self post acc' o n1
      | (inl e, n1) => (inl e, n1)
      end.
Proof.
  induction pre as [ | rt pre IH]; intros acc n; [reflexivity | ].
  cbn [app]. rewrite !fetch_all_loop_step.
  destruct (fetch_latest self rt o n) as [[e | r] n1]; [ | apply IH].
  destruct (is_BCBClientError e); [apply IH | reflexivity].
Qed.

(** X7.  An exception of [fetch_latest] that is not a [BCBClientError]
    ends [fetch_all_latest] as a whole: the call raises it, returns no
    dictionary -- the rates fetched before are lost with it -- and the rate
    types after that one are never requested. *)
Theorem fetch_all_latest_aborts (self : BCBClient) (o : Outside) (n n1 n2 : nat)
    (pre post : list RateType) (rt : RateType) (acc : RateDict) (e : Exn) :
  all_rate_types = pre ++ rt :: post ->
  fetch_all_loop self pre [] o n = (inr acc, n1) ->
  fetch_latest self rt o n1 = (inl e, n2) ->
  is_BCBClientError e = false ->
  fetch_all_latest self o n = (inl e, n2) /\
  n2 = (n + List.length pre + 1)%nat.
Proof.
  intros Split Hpre Hrt NotBCB. unfold fetch_all_latest.
  rewrite Split, fetch_all_loop_app, Hpre, fetch_all_loop_step, Hrt, NotBCB.
  split; [reflexivity | ].
  apply fetch_all_loop_tick in Hpre.
  pose proof (fetch_latest_tick self rt o n1) as T. rewrite Hrt in T. cbn in T. lia.
Qed.

Lemma fetch_all_latest_aborts_witness :
  exists e,
    fetch_all_latest new_BCBClient Fixtures.overflow_outside 0%nat = (inl e, 2%nat) /\
    exn_class e = OverflowError.
Proof.
  exists (mkExn OverflowError "cannot convert float infinity to integer").
  assert (P : exists acc, fetch_all_loop new_BCBClient [IPCA] [] Fixtures.overflow_outside 0%nat
                          = (inr acc, 1%nat))
    by (eexists; vm_compute; reflexivity).
  destruct P as [acc P].
  assert (F : fetch_latest new_BCBClient CDI Fixtures.overflow_outside 1%nat
              = (inl (mkExn OverflowError "cannot convert float infinity to integer"), 2%nat))
    by (vm_compute; reflexivity).
  split; [ | reflexivity].
  exact (proj1 (fetch_all_latest_aborts new_BCBClient Fixtures.overflow_outside 0 1 2
                  [IPCA] [SELIC; PTAX; IGPM; TR] CDI acc
                  (mkExn OverflowError "cannot convert float infinity to integer")
                  eq_refl P F eq_refl)).
Defined.

(** ** Values that are not finite *)

(** X8.  A record whose value is a number the scaling cannot round is not
    handled like one that fails to parse.  When the product with [10**8] is
    a NaN, [round] raises [ValueError] and the record is skipped, the batch
    being processed as if it were not there.  When the product is infinite
    (the value is [inf], or too large), [round] raises [OverflowError],
    which no clause of the loop catches: the whole call raises it, and it
    is not a [BCBClientError]. *)
Theorem non_finite_value (self : BCBClient) (rt : RateType) (pre post : list Item)
    (item : Item) (d : PyValue) (date : Z) (dt : datetime) (raw : float) :
  parse_date item = inr (d, date, dt) ->
  parse_value item = inr raw ->
  (Prim2SF (raw * 100000000) = S754_nan ->
   _process_response self (pre ++ item :: post) rt
   = _process_response self (pre ++ post) rt) /\
  (forall s kept,
      Prim2SF (raw * 100000000) = S754_infinity s ->
      process_loop self rt pre [] = inr kept ->
      exists e,
        _process_response self (pre ++ item :: post) rt = inl e /\
        exn_class e = OverflowError /\
        is_BCBClientError e = false).
Proof.
  intros PD PV. split.
  - intros N. unfold _process_response. rewrite !BcbClientProofs.process_loop_app.
    destruct (process_loop self rt pre []) as [e | kept]; [reflexivity | ].
    cbn [process_loop]. unfold process_item, bind.
    rewrite PD, PV. unfold _scale_to_chainlink, py_round. rewrite N. reflexivity.
  - intros s kept Inf Hpre. unfold _process_response.
    rewrite BcbClientProofs.process_loop_app, Hpre.
    cbn [process_loop]. unfold process_item, bind.
    rewrite PD, PV. unfold _scale_to_chainlink, py_round. rewrite Inf.
    eexists. split; [reflexivity | ]. split; reflexivity.
Qed.

Lemma non_finite_value_witness :
  _process_response new_BCBClient
      ([Fixtures.good_record] ++ Fixtures.nan_record :: [Fixtures.later_record]) CDI
  = _process_response new_BCBClient ([Fixtures.good_record] ++ [Fixtures.later_record]) CDI /\
  exists e,
    _process_response new_BCBClient
        ([Fixtures.good_record] ++ Fixtures.overflow_record :: [Fixtures.later_record]) CDI
    = inl e /\
    exn_class e = OverflowError /\ is_BCBClientError e = false.
Proof.
  split.
  - apply (proj1 (non_finite_value new_BCBClient CDI [Fixtures.good_record]
                    [Fixtures.later_record] Fixtures.nan_record
                    (PyStr "28/11/2024") 20241128
                    {| dt_year := 2024; dt_month := 11; dt_day := 28 |} nan
                    eq_refl eq_refl)).
    reflexivity.
  - assert (K : exists kept, process_loop new_BCBClient CDI [Fixtures.good_record] [] = inr kept)
      by (eexists; vm_compute; reflexivity).
    destruct K as [kept K].
    apply (proj2 (non_finite_value new_BCBClient CDI [Fixtures.good_record]
                    [Fixtures.later_record] Fixtures.overflow_record
                    (PyStr "28/11/2024") 20241128
                    {| dt_year := 2024; dt_month := 11; dt_day := 28 |}
                    1e308%float eq_refl eq_refl) false kept).
    + reflexivity.
    + exact K.
Defined.

(** ** What every fetch returns *)

(** X9.  Every record that [_process_response], [fetch_latest],
    [fetch_history], [fetch_date_range] or [fetch_all_latest] returns is
    consistent: it carries the rate type it was asked for (in the
    dictionary of [fetch_all_latest], the one of its key), 8 decimals and
    the source and description of that rate type; its answer is the scaling
    of its raw value; and its date integer and timestamp are what its date
    text parses to. *)
Theorem fetched_records_consistent (self : BCBClient) :
  (forall data rt rs rd,
      _process_response self data rt = inr rs -> In rd rs -> consistent rt rd) /\
  (forall rt o n n' r,
      fetch_latest self rt o n = (inr r, n') -> consistent rt r) /\
  (forall rt count o n n' rs rd,
      fetch_history self rt count o n = (inr rs, n') -> In rd rs -> consistent rt rd) /\
  (forall rt sd ed o n n' rs rd,
      fetch_date_range self rt sd ed o n = (inr rs, n') -> In rd rs -> consistent rt rd) /\
  (forall o n n' d rt rd,
      fetch_all_latest self o n = (inr d, n') -> In (rt, rd) d -> consistent rt rd).
Proof.
  refine (conj _ (conj _ (conj _ (conj _ _)))).
  - intros data rt rs rd H Hin. exact (proj1 (process_response_all _ _ _ _ _ H Hin)).
  - intros rt o n n' r H.
    destruct (fetch_latest_returns _ _ _ _ _ _ H) as [data [rs [_ P]]].
    exact (proj1 (process_response_all _ _ _ _ r P (or_introl eq_refl))).
  - intros rt count o n n' rs rd H Hin.
    destruct (fetch_history_returns _ _ _ _ _ _ _ H) as [data P].
    exact (proj1 (process_response_all _ _ _ _ _ P Hin)).
  - intros rt sd ed o n n' rs rd H Hin.
    destruct (fetch_date_range_returns _ _ _ _ _ _ _ _ H) as [data P].
    exact (proj1 (process_response_all _ _ _ _ _ P Hin)).
  - intros o n n' d rt rd H Hin.
    destruct (fetch_all_latest_member _ _ _ _ _ _ _ H Hin) as [i F].
    destruct (fetch_latest self rt o (n + i)%nat) as [res n1] eqn:E. cbn in F. subst res.
    destruct (fetch_latest_returns _ _ _ _ _ _ E) as [data [rs [_ P]]].
    exact (proj1 (process_response_all _ _ _ _ rd P (or_introl eq_refl))).
Qed.

(** X10.  The circuit breaker holds for everything a validating client
    hands out: with [validate=True], the answer of every record returned by
    [_process_response], [fetch_latest], [fetch_history],
    [fetch_date_range] and [fetch_all_latest] lies between the minimum and
    the maximum configured for its rate type. *)
Theorem validated_records_within_bounds (self : BCBClient) :
  validate self = true ->
  (forall data rt rs rd,
      _process_response self data rt = inr rs -> In rd rs -> within_bounds rt rd) /\
  (forall rt o n n' r,
      fetch_latest self rt o n = (inr r, n') -> within_bounds rt r) /\
  (forall rt count o n n' rs rd,
      fetch_history self rt count o n = (inr rs, n') -> In rd rs -> within_bounds rt rd) /\
  (forall rt sd ed o n n' rs rd,
      fetch_date_range self rt sd ed o n = (inr rs, n') -> In rd rs -> within_bounds rt rd) /\
  (forall o n n' d rt rd,
      fetch_all_latest self o n = (inr d, n') -> In (rt, rd) d -> within_bounds rt rd).
Proof.
  intros V. refine (conj _ (conj _ (conj _ (conj _ _)))).
  - intros data rt rs rd H Hin. exact (proj2 (process_response_all _ _ _ _ _ H Hin) V).
  - intros rt o n n' r H.
    destruct (fetch_latest_returns _ _ _ _ _ _ H) as [data [rs [_ P]]].
    exact (proj2 (process_response_all _ _ _ _ r P (or_introl eq_refl)) V).
  - intros rt count o n n' rs rd H Hin.
    destruct (fetch_history_returns _ _ _ _ _ _ _ H) as [data P].
    exact (proj2 (process_response_all _ _ _ _ _ P Hin) V).
  - intros rt sd ed o n n' rs rd H Hin.
    destruct (fetch_date_range_returns _ _ _ _ _ _ _ _ H) as [data P].
    exact (proj2 (process_response_all _ _ _ _ _ P Hin) V).
  - intros o n n' d rt rd H Hin.
    destruct (fetch_all_latest_member _ _ _ _ _ _ _ H Hin) as [i F].
    destruct (fetch_latest self rt o (n + i)%nat) as [res n1] eqn:E. cbn in F. subst res.
    destruct (fetch_latest_returns _ _ _ _ _ _ E) as [data [rs [_ P]]].
    exact (proj2 (process_response_all _ _ _ _ rd P (or_introl eq_refl)) V).
Qed.

Lemma validated_records_within_bounds_witness :
  exists r,
    fetch_latest new_BCBClient CDI Fixtures.two_records_outside 0%nat = (inr r, 1%nat) /\
    answer r = 1115000000 /\
    within_bounds CDI r.
Proof.
  eexists.
  match goal with
  | |- ?A /\ _ => assert (F : A) by (vm_compute; reflexivity)
  end.
  split; [exact F | ]. split; [reflexivity | ].
  exact (proj1 (proj2 (validated_records_within_bounds new_BCBClient eq_refl)) _ _ _ _ _ F).
Defined.

(** ** The count of [fetch_history] *)

(** X11.  A count of zero does not ask for zero records.  [_build_url]
    tests the count for truth, so [fetch_history] with [count = 0] requests
    the address of the complete series, the one a call with no count and
    no dates requests; with any other count, negative ones included, it
    requests the last [count] records. *)
Theorem fetch_history_count (self : BCBClient) (rt : RateType) (count : Z) (o : Outside)
    (n : nat) :
  let base := BASE_URL (bcb_series (RATE_CONFIGS rt)) in
  let url := if count =? 0 then String.append base "?formato=json"
             else String.append base
                    (String.append "/ultimos/"
                       (String.append (str_of_int count) "?formato=json")) in
  _build_url rt (Some 0) None None = _build_url rt None None None /\
  fetch_history self rt count o n
  = match _request url o n with
    | (inr data, n') => (_process_response self data rt, n')
    | (inl e, n') => (inl e, n')
    end.
Proof.
  cbv zeta. split; [reflexivity | ].
  unfold fetch_history, mbind, lift_result, _build_url.
  destruct (count =? 0); reflexivity.
Qed.

End ResponseProofs.

(* ================================================================== *)
(** * Further properties of the BCB client: the health check *)
(* ================================================================== *)

Module HealthProofs.
Import Py PyFloat BcbClient Env BcbFetch.

Ltac inv H := inversion H; subst; clear H.

Lemma fetch_latest_raises (self : BCBClient) (rt : RateType) (o : Outside) (n n' : nat)
    (e : Exn) :
  fetch_latest self rt o n = (inl e, n') ->
  is_BCBClientError e = true \/
  exists data,
    http o n (_build_url rt (Some 1) None None) = HttpOk data /\
    _process_response self data rt = inl e.
Proof.
  unfold fetch_latest, mbind, lift_result, mraise, mret.
  remember (_build_url rt (Some 1) None None) as url eqn:Eurl.
  pose proof (ResponseProofs.request_spec url o n) as [_ [Rr Rd]].
  destruct (_request url o n) as [[e0 | data] n1].
  - intros H. inv H. left. now apply Rr.
  - destruct (Rd data eq_refl) as [Hh _].
    destruct (_process_response self data rt) as [e0 | [ | r0 rs]] eqn:P;
      intros H; inv H.
    + right. exists data. split; [exact Hh | exact P].
    + left. reflexivity.
Qed.

(** X12.  [health_check] makes the one request of [fetch_latest] for CDI.
    It returns [False] whenever the API gives no record (an HTTP error, a
    failed request, a body that is not JSON, an empty list), and [True]
    exactly when [fetch_latest] returns a record.  It can raise: an
    exception that is not a client error, met while the records of the
    answer are processed, passes through it. *)
Theorem health_check_spec (self : BCBClient) (o : Outside) (n : nat) :
  let url := _build_url CDI (Some 1) None None in
  snd (health_check self o n) = S n /\
  ((forall data, http o n url = HttpOk data -> data = []) ->
   fst (health_check self o n) = inr false) /\
  (fst (health_check self o n) = inr true <->
   exists r, fst (fetch_latest self CDI o n) = inr r) /\
  (forall e,
      fst (health_check self o n) = inl e ->
      is_BCBClientError e = false /\
      exists data, http o n url = HttpOk data /\ _process_response self data CDI = inl e).
Proof.
  intros url. unfold health_check, try_except, mbind, mret.
  pose proof (ResponseProofs.fetch_latest_tick self CDI o n) as T.
  destruct (fetch_latest self CDI o n) as [[e | r] n1] eqn:F; cbn [fst snd] in *; subst n1.
  - pose proof (fetch_latest_raises _ _ _ _ _ _ F) as Why.
    destruct (is_BCBClientError e) eqn:C; cbn [fst snd].
    + split; [reflexivity | ]. split; [reflexivity | ].
      split; [ | discriminate]. split; [discriminate | intros [r Hr]; discriminate].
    + destruct Why as [Bad | [data [Hh P]]]; [discriminate | ].
      split; [reflexivity | ]. split; [ | split].
      * intros Empty. apply Empty in Hh. subst data.
        pose proof (ResponseProofs.request_spec url o n) as [_ [_ Rd]].
        unfold fetch_latest, mbind in F. fold url in F.
        destruct (_request url o n) as [[e0 | data] n1] eqn:Rq.
        -- inv F. pose proof (ResponseProofs.request_spec url o n) as [_ [Rr _]].
           rewrite Rq in Rr. rewrite (Rr e eq_refl) in C. discriminate.
        -- destruct (Rd data eq_refl) as [Hd NE]. fold url in Hd.
           apply Empty in Hd. now elim NE.
      * split; [discriminate | intros [r Hr]; discriminate].
      * intros e0 H. inv H. split; [exact C | ]. exists data. split; assumption.
  - split; [reflexivity | ]. split; [ | split].
    + intros Empty.
      destruct (ResponseProofs.fetch_latest_returns _ _ _ _ _ _ F) as [data [rs [Hh P]]].
      fold url in Hh. apply Empty in Hh. subst data.
      pose proof (ResponseProofs.request_spec url o n) as [_ [_ Rd]].
      unfold fetch_latest, mbind in F. fold url in F.
      destruct (_request url o n) as [[e0 | data] n1]; [discriminate | ].
      destruct (Rd data eq_refl) as [Hd NE]. apply Empty in Hd. now elim NE.
    + split; [intros _; now exists r | reflexivity].
    + discriminate.
Qed.

End HealthProofs.

(* ================================================================== *)
(** * Further properties of the data store *)
(* ================================================================== *)

Module StoreProofs.
Import DataStore.

Ltac inv H := inversion H; subst; clear H.

(** ** Reachable databases *)


Lemma run_ops_app (ops1 ops2 : list (Z * Op)) (d : DB) :
  run_ops (ops1 ++ ops2) d = run_ops ops2 (run_ops ops1 d).
Proof. unfold run_ops. apply fold_left_app. Qed.

(** An invariant of every write holds of every reachable database. *)
Lemma reachable_ind (P : DB -> Prop) :
  P empty_db ->
  (forall now op d, P d -> P (apply_op now op d)) ->
  forall d, reachable d -> P d.
Proof.
  intros P0 Pstep d [ops ->].
  induction ops as [ | [t op] ops IH] using rev_ind; [exact P0 | ].
  rewrite run_ops_app. cbn. now apply Pstep.
Qed.

(** ** The history of a rate *)













(** ** The latest rate *)




(** ** Ids *)

Lemma numbered_empty : numbered empty_db.
Proof. unfold numbered. cbn. repeat split; try constructor; intros r []. Qed.

(** A row appended under the next value of the counter keeps the ids
    distinct and bounded. *)
Lemma append_numbered {A} (get : A -> Z) (l : list A) (seq : Z) (x : A) :
  NoDup (map get l) /\ (forall r, In r l -> get r <= seq) ->
  get x = seq + 1 ->
  NoDup (map get (l ++ [x])) /\ (forall r, In r (l ++ [x]) -> get r <= seq + 1).
Proof.
  intros [ND B] E. split.
  - rewrite map_app. apply DataStoreProofs.NoDup_snoc; [exact ND | ].
    cbn. rewrite in_map_iff. intros [r [Er Hr]]. specialize (B r Hr). lia.
  - intros r Hr. apply in_app_or in Hr. destruct Hr as [Hr | [<- | []]]; [ | lia].
    specialize (B r Hr). lia.
Qed.

Lemma store_rate_numbered (rd : BcbClient.RateData) (now : Z) (d : DB) :
  numbered d -> numbered (fst (store_rate rd now d)).
Proof.
  unfold numbered. intros [[ND B] Rest]. cbn. split; [ | exact Rest].
  apply (append_numbered id); [ | reflexivity].
  split; [now apply DataStoreProofs.NoDup_map_filter | ].
  intros r Hr. apply filter_In in Hr. now apply B.
Qed.

Lemma update_scheduler_run_ids (job : string) (t : Z) (st : string) (p u : Z)
    (err : option string) (d : DB) :
  map run_id (scheduler_runs (update_scheduler_run job t st p u err d))
  = map run_id (scheduler_runs d).
Proof.
  unfold update_scheduler_run.
  destruct (latest_open job None (scheduler_runs d)) as [target | ]; [ | reflexivity].
  cbn. rewrite map_map. apply map_ext. intros r.
  destruct (run_id r =? run_id target); reflexivity.
Qed.

Lemma apply_op_numbered (now : Z) (op : Op) (d : DB) :
  numbered d -> numbered (apply_op now op d).
Proof.
  destruct op; cbn [apply_op].
  - apply store_rate_numbered.
  - unfold numbered. intros [R [O Rest]]. cbn. split; [exact R | ]. split; [ | exact Rest].
    now apply (append_numbered ou_id).
  - unfold numbered. intros [R [O [A S]]]. cbn. split; [exact R | ].
    split; [exact O | ]. split; [ | exact S]. now apply (append_numbered an_id).
  - unfold numbered. intros [R [O [A S]]]. cbn. split; [exact R | ].
    split; [exact O | ]. split; [exact A | ]. now apply (append_numbered run_id).
  - unfold numbered. intros [R [O [A [ND B]]]].
    pose proof (update_scheduler_run_ids job now st processed updated err d) as Ids.
    unfold update_scheduler_run in *.
    destruct (latest_open job None (scheduler_runs d)) as [target | ];
      [ | exact (conj R (conj O (conj A (conj ND B))))].
    cbn in *. split; [exact R | ]. split; [exact O | ]. split; [exact A | ].
    split; [now rewrite Ids | ].
    intros r Hr. apply in_map_iff in Hr. destruct Hr as [x [<- Hx]].
    specialize (B x Hx). destruct (run_id x =? run_id target); exact B.
Qed.

(** X16.  On every database the store's writes can have made, the ids of
    each of the four tables are pairwise distinct and at most the table's
    counter; so the id that [store_rate], [log_oracle_update],
    [log_anomaly] or [log_scheduler_run] returns is one no row of its table
    had before -- also when [store_rate] replaces a row: the replaced
    observation gets a new id. *)
Theorem ids_are_fresh (d : DB) :
  reachable d ->
  numbered d /\
  (forall rd now, ~ In (snd (store_rate rd now d)) (map id (rates d))) /\
  (forall t tx blk gas st err now,
      ~ In (snd (log_oracle_update t tx blk gas st err now d))
           (map ou_id (oracle_updates d))) /\
  (forall t kind cur low high devs msg now,
      ~ In (snd (log_anomaly t kind cur low high devs msg now d))
           (map an_id (anomalies d))) /\
  (forall job started st,
      ~ In (snd (log_scheduler_run job started st d)) (map run_id (scheduler_runs d))).
Proof.
  intros R.
  assert (N : numbered d)
    by (revert d R; apply reachable_ind; [exact numbered_empty | exact apply_op_numbered]).
  split; [exact N | ].
  destruct N as [[_ Br] [[_ Bo] [[_ Ba] [_ Bs]]]].
  repeat split; intros; cbn; rewrite in_map_iff; intros [r [E Hr]].
  - specialize (Br r Hr). lia.
  - specialize (Bo r Hr). lia.
  - specialize (Ba r Hr). lia.
  - specialize (Bs r Hr). lia.
Qed.

Lemma ids_are_fresh_witness :
  map id (rates (run_ops [(50, OpStoreRate Fixtures.cdi_candidate);
                          (60, OpStoreRate Fixtures.cdi_corrected)] empty_db)) = [2] /\
  numbered (run_ops [(50, OpStoreRate Fixtures.cdi_candidate);
                     (60, OpStoreRate Fixtures.cdi_corrected)] empty_db).
Proof.
  split; [vm_compute; reflexivity | ].
  apply ids_are_fresh. eexists. reflexivity.
Defined.

(** ** The tables that are only appended to *)

Lemma extends_refl (d : DB) : extends d d.
Proof. unfold extends. repeat split; exists []; now rewrite app_nil_r. Qed.

Lemma extends_trans (a b c : DB) : extends a b -> extends b c -> extends a c.
Proof.
  unfold extends. intros [[m1 E1] [[m2 E2] [m3 E3]]] [[k1 F1] [[k2 F2] [k3 F3]]].
  repeat split.
  - exists (m1 ++ k1). now rewrite F1, E1, app_assoc.
  - exists (m2 ++ k2). now rewrite F2, E2, app_assoc.
  - exists (m3 ++ k3). now rewrite F3, E3, app_assoc.
Qed.

Lemma apply_op_extends (now : Z) (op : Op) (d : DB) : extends d (apply_op now op d).
Proof.
  destruct op; cbn [apply_op].
  - unfold extends. cbn. repeat split; exists []; now rewrite app_nil_r.
  - unfold extends. cbn. repeat split; [eexists; reflexivity | | ];
      exists []; now rewrite app_nil_r.
  - unfold extends. cbn. repeat split; [ | eexists; reflexivity | ];
      exists []; now rewrite app_nil_r.
  - unfold extends. cbn. repeat split; [ | | rewrite map_app; eexists; reflexivity];
      exists []; now rewrite app_nil_r.
  - pose proof (update_scheduler_run_ids job now st processed updated err d) as Ids.
    unfold extends. unfold update_scheduler_run in *.
    destruct (latest_open job None (scheduler_runs d)) as [target | ];
      [ | apply extends_refl].
    cbn in *. repeat split; try (exists []; now rewrite app_nil_r).
Qed.

(** X17.  The store never rewrites or deletes what it logged: through any
    sequence of its writes, the rows of [oracle_updates] and of [anomalies]
    stay as they were and where they were, new rows coming after them; and
    no run of [scheduler_runs] is ever removed or renumbered. *)
Theorem logs_append_only (ops : list (Z * Op)) (d : DB) : extends d (run_ops ops d).
Proof.
  revert d. induction ops as [ | [t op] ops IH]; intros d; [apply extends_refl | ].
  cbn. eapply extends_trans; [apply apply_op_extends | apply IH].
Qed.

(** ** Closing a run *)

Lemma latest_open_spec (job : string) (l : list SchedulerRun) :
  forall best,
    match latest_open job best l with
    | Some r => Some r = best \/ (In r l /\ is_open job r = true)
    | None => best = None /\ filter (is_open job) l = []
    end.
Proof.
  induction l as [ | x l IH]; cbn; intros best.
  - destruct best; [now left | split; reflexivity].
  - destruct (is_open job x) eqn:Ox.
    + assert (Step : forall b, match latest_open job (Some b) l with
                               | Some r => Some r = Some b \/ (In r l /\ is_open job r = true)
                               | None => False
                               end).
      { intros b. specialize (IH (Some b)).
        destruct (latest_open job (Some b) l); [exact IH | destruct IH; discriminate]. }
      destruct best as [b | ].
      * destruct (started_at b <? started_at x).
        -- specialize (Step x). destruct (latest_open job (Some x) l); [ | destruct Step].
           destruct Step as [E | [Hin Ho]]; [inv E | ]; right; tauto.
        -- specialize (Step b). destruct (latest_open job (Some b) l); [ | destruct Step].
           destruct Step as [E | [Hin Ho]]; [now left | right; tauto].
      * specialize (Step x). destruct (latest_open job (Some x) l); [ | destruct Step].
        destruct Step as [E | [Hin Ho]]; [inv E | ]; right; tauto.
    + specialize (IH best). destruct (latest_open job best l); [tauto | exact IH].
Qed.

Lemma map_untouched (i : Z) (closed : SchedulerRun -> SchedulerRun) (l : list SchedulerRun) :
  ~ In i (map run_id l) ->
  map (fun r => if run_id r =? i then closed r else r) l = l.
Proof.
  induction l as [ | x l IH]; cbn; intros NI; [reflexivity | ].
  destruct (Z.eqb_spec (run_id x) i) as [E | NE]; [exfalso; apply NI; now left | ].
  f_equal. apply IH. intros H. apply NI. now right.
Qed.

(** Rewriting the selected row closes it and leaves every other row as it
    was. *)
Lemma close_one (job : string) (target : SchedulerRun) (closed : SchedulerRun -> SchedulerRun)
    (l : list SchedulerRun) :
  (forall r, is_open job (closed r) = false) ->
  NoDup (map run_id l) -> In target l -> is_open job target = true ->
  S (List.length (filter (is_open job)
                    (map (fun r => if run_id r =? run_id target then closed r else r) l)))
  = List.length (filter (is_open job) l).
Proof.
  intros Closed. induction l as [ | x l IH]; cbn; intros ND Hin Ho; [destruct Hin | ].
  apply NoDup_cons_iff in ND. destruct ND as [Hx ND'].
  destruct (Z.eqb_spec (run_id x) (run_id target)) as [E | NE].
  - assert (x = target).
    { destruct Hin as [H | H]; [exact H | ]. exfalso. apply Hx. rewrite E.
      now apply in_map. }
    subst x. rewrite Closed, Ho, (map_untouched _ _ _ Hx). reflexivity.
  - assert (Hin' : In target l) by (destruct Hin as [H | H]; [now subst | exact H]).
    specialize (IH ND' Hin' Ho).
    destruct (is_open job x); cbn; [now rewrite IH | exact IH].
Qed.

Lemma other_jobs_untouched (job job' : string) (target : SchedulerRun)
    (closed : SchedulerRun -> SchedulerRun) (l : list SchedulerRun) :
  job' <> job ->
  (forall r, job_id (closed r) = job_id r) ->
  NoDup (map run_id l) -> In target l -> job_id target = job ->
  filter (is_open job')
    (map (fun r => if run_id r =? run_id target then closed r else r) l)
  = filter (is_open job') l.
Proof.
  intros Other Same. induction l as [ | x l IH]; cbn; intros ND Hin Hj; [reflexivity | ].
  apply NoDup_cons_iff in ND. destruct ND as [Hx ND'].
  destruct (Z.eqb_spec (run_id x) (run_id target)) as [E | NE].
  - assert (x = target).
    { destruct Hin as [H | H]; [exact H | ]. exfalso. apply Hx. rewrite E.
      now apply in_map. }
    subst x. rewrite (map_untouched _ _ _ Hx).
    assert (N : forall r, job_id r = job_id target -> is_open job' r = false).
    { intros r Hr. unfold is_open. rewrite Hr.
      destruct (String.eqb_spec (job_id target) job'); [congruence | reflexivity]. }
    rewrite (N target eq_refl), (N (closed target) (Same target)). reflexivity.
  - assert (Hin' : In target l) by (destruct Hin as [H | H]; [now subst | exact H]).
    rewrite (IH ND' Hin' Hj). reflexivity.
Qed.

Lemma is_open_job (job : string) (r : SchedulerRun) :
  is_open job r = true -> job_id r = job.
Proof.
  unfold is_open. intros H. apply andb_true_iff in H. now apply String.eqb_eq.
Qed.

(** X18.  [update_scheduler_run] changes at most one row.  When the job has
    no open run it leaves the database as it is.  Otherwise, on every
    database the store's writes can have made, it closes exactly one of the
    job's open runs -- one fewer is open afterwards, and it then carries
    the end time, status, counts and error given -- while the number of
    rows and the open runs of every other job stay as they were. *)
Theorem update_scheduler_run_closes_one (d : DB) (job : string) (t : Z) (st : string)
    (p u : Z) (err : option string) :
  reachable d ->
  (open_runs job d = 0%nat -> update_scheduler_run job t st p u err d = d) /\
  (open_runs job d <> 0%nat ->
   S (open_runs job (update_scheduler_run job t st p u err d)) = open_runs job d /\
   (exists row,
       In row (scheduler_runs (update_scheduler_run job t st p u err d)) /\
       job_id row = job /\ ended_at row = Some t /\ status row = st /\
       rates_processed row = p /\ rates_updated row = u /\ error_message row = err)) /\
  List.length (scheduler_runs (update_scheduler_run job t st p u err d))
  = List.length (scheduler_runs d) /\
  (forall job', job' <> job ->
                open_runs job' (update_scheduler_run job t st p u err d) = open_runs job' d).
Proof.
  intros R.
  assert (ND : NoDup (map run_id (scheduler_runs d))).
  { assert (N : numbered d)
      by (revert d R; apply reachable_ind; [exact numbered_empty | exact apply_op_numbered]).
    exact (proj1 (proj2 (proj2 (proj2 N)))). }
  unfold open_runs, update_scheduler_run.
  pose proof (latest_open_spec job (scheduler_runs d) None) as L.
  destruct (latest_open job None (scheduler_runs d)) as [target | ].
  - destruct L as [L | [Hin Ho]]; [discriminate | ].
    pose proof (is_open_job job target Ho) as Hj. cbn [scheduler_runs].
    set (closed := fun r => {| run_id := run_id r; job_id := job_id r;
                               started_at := started_at r; ended_at := Some t;
                               status := st; rates_processed := p;
                               rates_updated := u; error_message := err |}).
    assert (C : forall r, is_open job (closed r) = false).
    { intros r. unfold is_open. cbn. apply andb_false_r. }
    pose proof (close_one job target closed _ C ND Hin Ho) as One.
    split; [ | split; [ | split]].
    + intros Z0. exfalso. rewrite Z0 in One. discriminate.
    + intros _. split; [exact One | ].
      exists (closed target). split.
      * apply in_map_iff. exists target. rewrite Z.eqb_refl. split; [reflexivity | exact Hin].
      * cbn. repeat split. exact Hj.
    + apply length_map.
    + intros job' Other. f_equal.
      apply (other_jobs_untouched job job' target closed); auto.
  - destruct L as [_ L]. rewrite L. cbn.
    split; [reflexivity | ]. split; [intros F; now destruct F | ]. split; reflexivity.
Qed.

Lemma update_scheduler_run_closes_one_witness :
  open_runs "daily_rates"
    (run_ops [(10, OpLogSchedulerRun "daily_rates" "running");
              (20, OpLogSchedulerRun "daily_rates" "running")] empty_db) = 2%nat /\
  S (open_runs "daily_rates"
       (update_scheduler_run "daily_rates" 30 "completed" 4 4 None
          (run_ops [(10, OpLogSchedulerRun "daily_rates" "running");
                    (20, OpLogSchedulerRun "daily_rates" "running")] empty_db)))
  = 2%nat.
Proof.
  split; [reflexivity | ].
  refine (proj1 (proj1 (proj2 (update_scheduler_run_closes_one
                                 (run_ops [(10, OpLogSchedulerRun "daily_rates" "running");
                                           (20, OpLogSchedulerRun "daily_rates" "running")]
                                    empty_db)
                                 "daily_rates" 30 "completed" 4 4 None _)) _)).
  - eexists. reflexivity.
  - vm_compute. discriminate.
Defined.

End StoreProofs.

(* ================================================================== *)
(** * Further properties of the oracle updater *)
(* ================================================================== *)

Module UpdaterProofs.
Import Py PyFloat BcbClient Env BcbFetch OracleUpdater.

Ltac inv H := inversion H; subst; clear H.

(** ** Reading the chain *)

(** A read of the chain is one call; it changes neither the database nor
    the batches sent. *)
Lemma get_current_rate_frame (name : string) (o : Outside) (w : State) :
  tick (snd (get_current_rate name o w)) = S (tick w) /\
  db (snd (get_current_rate name o w)) = db w /\
  sent (snd (get_current_rate name o w)) = sent w.
Proof.
  unfold get_current_rate.
  destruct (getRate o (tick w) name) as [a t d | msg | e];
    [destruct (int_truediv a PRECISION) | | ]; repeat split.
Qed.

Lemma check_needs_update_unfold (rd : RateData) (o : Outside) (w : State) :
  check_needs_update rd o w
  = match get_current_rate (value (rate_type rd)) o w with
    | (inr current, w') => (inr (needs_update current rd), w')
    | (inl e, w') => (inl e, w')
    end.
Proof.
  unfold check_needs_update, mbind, mret.
  destruct (get_current_rate _ o w) as [[e | c] w']; reflexivity.
Qed.

(** A candidate that is not later than what the chain holds needs no
    update. *)
Lemma needs_update_not_later (cur : CurrentRate) (rd : RateData) :
  real_world_date rd <= cr_real_world_date cur ->
  fst (needs_update (Some cur) rd) = false.
Proof.
  intros H. unfold needs_update.
  destruct (Z.eqb_spec (cr_real_world_date cur) (real_world_date rd)); [reflexivity | ].
  destruct (Z.ltb_spec (real_world_date rd) (cr_real_world_date cur)); [reflexivity | lia].
Qed.

(** ** The pre-check *)

(** The pre-check sorts every rate into one of the two lists, reads the
    chain once per rate, and with [force] skips none. *)
Lemma precheck_partition (force : bool) (rates : list RateData) :
  forall tu ts o w tu' ts' w',
    precheck force rates tu ts o w = (inr (tu', ts'), w') ->
    len tu' + len ts' = len tu + len ts + len rates /\
    (force = true -> ts' = ts) /\
    tick w' = (tick w + List.length rates)%nat /\
    db w' = db w /\ sent w' = sent w.
Proof.
  unfold len.
  induction rates as [ | rd rates IH]; intros tu ts o w tu' ts' w'.
  - cbn. intros H. inv H. repeat split; lia.
  - cbn [precheck]. unfold mbind. rewrite check_needs_update_unfold.
    pose proof (get_current_rate_frame (value (rate_type rd)) o w) as [T [D S]].
    destruct (get_current_rate (value (rate_type rd)) o w) as [[e | cur] w1];
      [discriminate | ].
    cbn in T, D, S. destruct (needs_update cur rd) as [needed reason].
    destruct (needed || force) eqn:NF; intros H; apply IH in H;
      destruct H as [H1 [H2 [H3 [H4 H5]]]];
      refine (conj _ (conj _ (conj _ (conj _ _)))); try congruence.
    + rewrite H1, length_app. cbn [List.length]. lia.
    + exact H2.
    + rewrite H3, T. cbn [List.length]. lia.
    + rewrite H1, length_app. cbn [List.length]. lia.
    + intros F. rewrite F, orb_true_r in NF. discriminate.
    + rewrite H3, T. cbn [List.length]. lia.
Qed.

(** Whatever the pre-check does, it only reads. *)
Lemma precheck_reads (force : bool) (rates : list RateData) :
  forall tu ts o w,
    db (snd (precheck force rates tu ts o w)) = db w /\
    sent (snd (precheck force rates tu ts o w)) = sent w.
Proof.
  induction rates as [ | rd rates IH]; intros tu ts o w; [split; reflexivity | ].
  cbn [precheck]. unfold mbind. rewrite check_needs_update_unfold.
  pose proof (get_current_rate_frame (value (rate_type rd)) o w) as [_ [D S]].
  destruct (get_current_rate (value (rate_type rd)) o w) as [[e | cur] w1];
    cbn in D, S; [split; assumption | ].
  destruct (needs_update cur rd) as [needed reason].
  destruct (needed || force);
    match goal with
    | |- context [precheck ?f ?r ?a ?b o w1] => destruct (IH a b o w1) as [I1 I2]
    end; split; congruence.
Qed.

(** With every rate already on the chain, the pre-check skips them all. *)
Lemma precheck_all_current (rates : list RateData) (o : Outside) :
  (forall rd, In rd rates ->
     forall w, exists cur w',
       get_current_rate (value (rate_type rd)) o w = (inr (Some cur), w') /\
       real_world_date rd <= cr_real_world_date cur) ->
  forall tu ts w,
    exists ts' w',
      precheck false rates tu ts o w = (inr (tu, ts'), w').
Proof.
  induction rates as [ | rd rates IH]; intros Cur tu ts w.
  - exists ts, w. reflexivity.
  - cbn [precheck]. unfold mbind. rewrite check_needs_update_unfold.
    destruct (Cur rd (or_introl eq_refl) w) as [cur [w1 [G L]]]. rewrite G.
    pose proof (needs_update_not_later cur rd L) as N.
    destruct (needs_update (Some cur) rd) as [needed reason]. cbn in N. subst needed.
    cbn [orb]. apply IH. intros rd' Hin. apply Cur. now right.
Qed.

(** ** [sync_all_rates] *)

Lemma sync_all_rates_unfold (force : bool) (o : Outside) (s : State) :
  sync_all_rates force o s
  = match fetch_all_latest new_BCBClient o (tick s) with
    | (inl e, n') => (inl e, set_tick n' s)
    | (inr [], n') => (inr (failure "No rates fetched from BCB"), set_tick n' s)
    | (inr rates, n') =>
        match precheck force (dict_values rates) [] [] o (set_tick n' s) with
        | (inl e, w) => (inl e, w)
        | (inr ([], to_skip), w) =>
            (inr {| success := true; rates_updated := 0;
                    rates_skipped := len to_skip; tx_hash := None;
                    block := None; gas_used := None; error := None;
                    details := Some (DetailsSkipped (map fst to_skip)) |}, w)
        | (inr (to_update, to_skip), w) =>
            send_batch (dict_values rates) to_update to_skip o w
        end
    end.
Proof.
  unfold sync_all_rates, mbind at 1. unfold in_http, zoom.
  destruct (fetch_all_latest new_BCBClient o (tick s)) as [[e | [ | kv rates]] n'];
    try reflexivity.
  unfold mbind.
  destruct (precheck force (dict_values (kv :: rates)) [] [] o (set_tick n' s))
    as [[e | [[ | u tu] ts]] w]; reflexivity.
Qed.

Lemma dict_values_length (d : RateDict) : len (dict_values d) = len d.
Proof. unfold len, dict_values. now rewrite length_map. Qed.

(** X19.  The counts [sync_all_rates] reports add up.  Whatever it
    returns, [rates_updated] and [rates_skipped] are not negative and
    together at most the number of rates its fetch returned; in a
    successful result they are exactly that number; with [force] nothing
    counts as skipped; and when the fetch returned no rate at all the
    result is the failure "No rates fetched from BCB", the chain not having
    been called. *)
Theorem sync_all_rates_accounts (force : bool) (o : Outside) (s s' : State)
    (u : UpdateResult) :
  sync_all_rates force o s = (inr u, s') ->
  exists rates n',
    fetch_all_latest new_BCBClient o (tick s) = (inr rates, n') /\
    0 <= rates_updated u /\ 0 <= rates_skipped u /\
    rates_updated u + rates_skipped u <= len rates /\
    (success u = true -> rates_updated u + rates_skipped u = len rates) /\
    (force = true -> rates_skipped u = 0) /\
    (rates = [] -> u = failure "No rates fetched from BCB" /\ tick s' = n').
Proof.
  rewrite sync_all_rates_unfold.
  destruct (fetch_all_latest new_BCBClient o (tick s)) as [[e | rates] n'];
    [discriminate | ].
  intros H. exists rates, n'. split; [reflexivity | ].
  destruct rates as [ | kv rates].
  - inv H. cbn. repeat split; try lia; discriminate.
  - destruct (precheck force (dict_values (kv :: rates)) [] [] o (set_tick n' s))
      as [[e | [tu ts]] w] eqn:P; [destruct e; discriminate | ].
    apply precheck_partition in P. destruct P as [P1 [P2 _]].
    rewrite dict_values_length in P1.
    change (len (@nil RateData)) with 0 in P1.
    change (len (@nil (string * string))) with 0 in P1.
    assert (Lu : 0 <= len tu) by (unfold len; lia).
    assert (Ls : 0 <= len ts) by (unfold len; lia).
    assert (Skip0 : force = true -> len ts = 0) by (intros F; now rewrite (P2 F)).
    assert (Done : forall upd skp ok,
               0 <= upd -> 0 <= skp -> upd + skp <= len (kv :: rates) ->
               (ok = true -> upd + skp = len (kv :: rates)) ->
               (force = true -> skp = 0) ->
               0 <= upd /\ 0 <= skp /\ upd + skp <= len (kv :: rates) /\
               (ok = true -> upd + skp = len (kv :: rates)) /\
               (force = true -> skp = 0) /\
               (kv :: rates = [] ->
                u = failure "No rates fetched from BCB" /\ tick s' = n')).
    { intros. repeat split; try assumption. all: discriminate. }
    destruct tu as [ | x tu].
    + inv H. cbn [success rates_updated rates_skipped].
      change (len (@nil RateData)) with 0 in P1.
      apply Done; solve [lia | assumption | intros _; lia].
    + unfold send_batch in H.
      destruct (batch_tx o (tick w) _) as [e | h e | h receipt]; inv H;
        cbn [success rates_updated rates_skipped failure].
      * apply Done; solve [lia | discriminate | intros _; reflexivity].
      * apply Done; solve [lia | discriminate | intros _; reflexivity].
      * destruct (receipt_status receipt =? 1).
        -- apply Done; solve [lia | assumption | intros _; lia].
        -- apply Done; solve [lia | assumption | discriminate | intros _; lia].
Qed.

Lemma sync_all_rates_accounts_witness :
  exists u s',
    sync_all_rates false Fixtures.one_event_outside Fixtures.fresh_state = (inr u, s') /\
    success u = true /\ rates_updated u = 2 /\ rates_skipped u = 0 /\
    exists rates n',
      fetch_all_latest new_BCBClient Fixtures.one_event_outside 0%nat = (inr rates, n') /\
      rates_updated u + rates_skipped u = len rates.
Proof.
  do 2 eexists.
  match goal with
  | |- ?A /\ _ => assert (F : A) by (vm_compute; reflexivity)
  end.
  split; [exact F | ]. split; [reflexivity | ]. split; [reflexivity | ].
  split; [reflexivity | ].
  destruct (sync_all_rates_accounts _ _ _ _ _ F) as [rates [n' [Ff [_ [_ [_ [Sum _]]]]]]].
  exists rates, n'. split; [exact Ff | exact (Sum eq_refl)].
Defined.


(** X20.  A second synchronisation changes nothing.  When every rate the
    fetch returned is on the chain with a reference date that is not
    earlier, [sync_all_rates] without [force] succeeds with nothing updated
    and every rate skipped, names no transaction, and hands no batch to the
    chain. *)
Theorem sync_all_rates_up_to_date (o : Outside) (s : State) (rates : RateDict) (n' : nat) :
  fetch_all_latest new_BCBClient o (tick s) = (inr rates, n') ->
  rates <> [] ->
  (forall rd, In rd (dict_values rates) ->
     forall w, exists cur w',
       get_current_rate (value (rate_type rd)) o w = (inr (Some cur), w') /\
       real_world_date rd <= cr_real_world_date cur) ->
  exists u s',
    sync_all_rates false o s = (inr u, s') /\
    success u = true /\ rates_updated u = 0 /\ rates_skipped u = len rates /\
    tx_hash u = None /\ error u = None /\
    sent s' = sent s /\ db s' = db s.
Proof.
  intros F NE Cur. rewrite sync_all_rates_unfold, F.
  destruct rates as [ | kv rates]; [now elim NE | ].
  destruct (precheck_all_current _ o Cur [] [] (set_tick n' s)) as [ts [w P]].
  rewrite P.
  apply precheck_partition in P. destruct P as [P1 [_ [_ [Pd Ps]]]].
  rewrite dict_values_length in P1.
  change (len (@nil RateData)) with 0 in P1.
  change (len (@nil (string * string))) with 0 in P1.
  do 2 eexists. split; [reflexivity | ].
  cbn [success rates_updated rates_skipped tx_hash error].
  refine (conj eq_refl (conj eq_refl (conj _ (conj eq_refl (conj eq_refl (conj Ps Pd)))))).
  lia.
Qed.

Lemma sync_all_rates_up_to_date_witness :
  exists u s',
    sync_all_rates false Fixtures.synced_outside Fixtures.fresh_state = (inr u, s') /\
    success u = true /\ rates_updated u = 0 /\ rates_skipped u = 6 /\
    sent s' = [].
Proof.
  assert (F : exists rates,
             fetch_all_latest new_BCBClient Fixtures.synced_outside
               (tick Fixtures.fresh_state) = (inr rates, 6%nat) /\
             List.length rates = 6%nat /\
             forallb (fun rd => real_world_date rd <=? 20241126) (dict_values rates) = true)
    by (eexists; split; [vm_compute; reflexivity | split; vm_compute; reflexivity]).
  destruct F as [rates [F [L B]]].
  destruct (sync_all_rates_up_to_date Fixtures.synced_outside Fixtures.fresh_state rates 6 F)
    as [u [s' [R [A1 [A2 [A3 [_ [_ [A4 _]]]]]]]]].
  - intros E. rewrite E in L. discriminate L.
  - intros rd Hin w. unfold get_current_rate. cbn [getRate Fixtures.synced_outside].
    assert (V : exists vp, int_truediv 1090000000 PRECISION = inr vp)
      by (eexists; vm_compute; reflexivity).
    destruct V as [vp V]. rewrite V. do 2 eexists. split; [reflexivity | ].
    cbn [cr_real_world_date]. rewrite forallb_forall in B. apply B in Hin. lia.
  - exists u, s'. unfold len in A3. rewrite L in A3.
    repeat split; assumption.
Defined.

(** An exception of the pre-check is an exception of one of its reads of
    the chain. *)
Lemma precheck_raises (force : bool) (rates : list RateData) (o : Outside) (e : Exn) :
  forall tu ts w w',
    precheck force rates tu ts o w = (inl e, w') ->
    exists rd w0,
      In rd rates /\ fst (get_current_rate (value (rate_type rd)) o w0) = inl e.
Proof.
  induction rates as [ | rd rates IH]; intros tu ts w w'; [discriminate | ].
  cbn [precheck]. unfold mbind. rewrite check_needs_update_unfold.
  destruct (get_current_rate (value (rate_type rd)) o w) as [[e0 | cur] w1] eqn:G.
  - intros H. inv H. exists rd, w. split; [now left | now rewrite G].
  - destruct (needs_update cur rd) as [needed reason].
    destruct (needed || force); intros H; apply IH in H;
      destruct H as [rd' [w0 [Hin H]]]; exists rd', w0; (split; [now right | exact H]).
Qed.

(** X21.  An exception of [sync_all_rates] means that nothing was sent.
    With or without [force], when it raises, no batch has been handed to
    the chain and the database is as it was, and the exception is one that
    [fetch_all_latest] raised or one that reading the chain for a fetched
    rate raised: a transaction that cannot be sent, that is not mined or
    that reverts is never raised. *)
Theorem sync_all_rates_raises_unsent (force : bool) (o : Outside) (s s' : State) (e : Exn) :
  sync_all_rates force o s = (inl e, s') ->
  sent s' = sent s /\ db s' = db s /\
  (fst (fetch_all_latest new_BCBClient o (tick s)) = inl e \/
   exists rates n' rd w,
     fetch_all_latest new_BCBClient o (tick s) = (inr rates, n') /\
     In rd (dict_values rates) /\
     fst (get_current_rate (value (rate_type rd)) o w) = inl e).
Proof.
  rewrite sync_all_rates_unfold.
  destruct (fetch_all_latest new_BCBClient o (tick s)) as [[e0 | rates] n'].
  - intros H. inv H. repeat split. now left.
  - destruct rates as [ | kv rates]; [discriminate | ].
    pose proof (precheck_reads force (dict_values (kv :: rates)) [] [] o (set_tick n' s))
      as [Pd Ps].
    destruct (precheck force (dict_values (kv :: rates)) [] [] o (set_tick n' s))
      as [[e0 | [tu ts]] w] eqn:P.
    + intros H. inv H. cbn in Pd, Ps. refine (conj Ps (conj Pd _)). right.
      apply precheck_raises in P. destruct P as [rd [w0 [Hin G]]].
      exists (kv :: rates), n', rd, w0. repeat split; assumption.
    + destruct tu as [ | x tu]; [discriminate | ].
      unfold send_batch. destruct (batch_tx o (tick w) _); discriminate.
Qed.

Lemma sync_all_rates_raises_unsent_witness :
  exists e s',
    sync_all_rates true Fixtures.overflow_outside Fixtures.fresh_state = (inl e, s') /\
    exn_class e = OverflowError /\ sent s' = [] /\ db s' = DataStore.empty_db.
Proof.
  do 2 eexists.
  match goal with
  | |- ?A /\ _ => assert (F : A) by (vm_compute; reflexivity)
  end.
  split; [exact F | ]. split; [reflexivity | ].
  destruct (sync_all_rates_raises_unsent _ _ _ _ _ F) as [S [D _]].
  split; [exact S | exact D].
Defined.

(** ** [sync_rate] *)

Section SingleUpdateProofs.
Variable update_tx : nat -> string -> Z -> Z -> string -> TxOutcome.

Lemma sync_rate_unfold (rt : RateType) (force : bool) (o : Outside) (s : State) :
  sync_rate update_tx rt force o s
  = match fetch_latest new_BCBClient rt o (tick s) with
    | (inl e, n') => (inl e, set_tick n' s)
    | (inr rd, n') =>
        if force then _send_single_update update_tx rd o (set_tick n' s)
        else match get_current_rate (value (rate_type rd)) o (set_tick n' s) with
             | (inl e, w) => (inl e, w)
             | (inr current, w) =>
                 if fst (needs_update current rd)
                 then _send_single_update update_tx rd o w
                 else (inr (skipped_one (snd (needs_update current rd))), w)
             end
    end.
Proof.
  unfold sync_rate, mbind at 1. unfold in_http, zoom.
  destruct (fetch_latest new_BCBClient rt o (tick s)) as [[e | rd] n']; [reflexivity | ].
  destruct force; cbn [negb]; [reflexivity | ].
  unfold mbind. rewrite check_needs_update_unfold.
  destruct (get_current_rate (value (rate_type rd)) o (set_tick n' s)) as [[e | cur] w];
    [reflexivity | ].
  destruct (needs_update cur rd) as [[ | ] reason]; reflexivity.
Qed.

Lemma send_single_update_spec (rd : RateData) (o : Outside) (w : State) :
  exists u,
    _send_single_update update_tx rd o w = (inr u, next_tick w) /\
    rates_skipped u = 0 /\
    (success u = true /\ rates_updated u = 1 /\ (exists h, tx_hash u = Some h) \/
     success u = false /\ rates_updated u = 0).
Proof.
  unfold _send_single_update.
  destruct (update_tx _ _ _ _ _) as [e | h e | h receipt];
    eexists; (split; [reflexivity | ]); (split; [reflexivity | ]); cbn.
  - now right.
  - now right.
  - destruct (receipt_status receipt =? 1); [left | now right].
    repeat split. now exists h.
Qed.

(** X22.  [sync_rate] skips a rate the chain already holds.  Without
    [force], when the chain holds for the rate a reference date that is not
    earlier than that of the record just fetched, the result is a success
    with nothing updated and one rate skipped; no transaction is attempted,
    whatever the transaction would have given, and only the two reads (the
    API, then the chain) have taken place. *)
Theorem sync_rate_skips (rt : RateType) (o : Outside) (s w : State) (rd : RateData)
    (n' : nat) (cur : CurrentRate) :
  fetch_latest new_BCBClient rt o (tick s) = (inr rd, n') ->
  get_current_rate (value rt) o (set_tick n' s) = (inr (Some cur), w) ->
  real_world_date rd <= cr_real_world_date cur ->
  exists reason,
    sync_rate update_tx rt false o s = (inr (skipped_one reason), w) /\
    tick w = (tick s + 2)%nat /\ sent w = sent s /\ db w = db s.
Proof.
  intros F G L. rewrite sync_rate_unfold, F.
  pose proof (ResponseProofs.fetch_latest_tick new_BCBClient rt o (tick s)) as T.
  rewrite F in T. cbn in T. subst n'.
  destruct (ResponseProofs.fetch_latest_returns _ _ _ _ _ _ F) as [data [rs [_ P]]].
  destruct (ResponseProofs.process_response_all _ _ _ _ rd P (or_introl eq_refl))
    as [[RT _] _].
  rewrite RT, G. rewrite (needs_update_not_later cur rd L).
  pose proof (get_current_rate_frame (value rt) o (set_tick (S (tick s)) s)) as [T [D S]].
  rewrite G in T, D, S. cbn in T, D, S.
  eexists. split; [reflexivity | ]. repeat split; try assumption. rewrite T. lia.
Qed.

(** X23.  The counts [sync_rate] reports.  Whatever it returns, the one
    rate is counted at most once; it is counted as skipped only without
    [force], in a successful result that names no transaction; it is
    counted as updated only in a successful result that names a
    transaction; and a successful result counts it exactly once.  A
    transaction that fails gives a result, not an exception. *)
Theorem sync_rate_counts (rt : RateType) (force : bool) (o : Outside) (s s' : State)
    (u : UpdateResult) :
  sync_rate update_tx rt force o s = (inr u, s') ->
  (rates_updated u = 0 \/ rates_updated u = 1) /\
  (rates_skipped u = 0 \/ rates_skipped u = 1) /\
  (rates_skipped u = 1 ->
   force = false /\ rates_updated u = 0 /\ success u = true /\ tx_hash u = None) /\
  (rates_updated u = 1 ->
   rates_skipped u = 0 /\ success u = true /\ exists h, tx_hash u = Some h) /\
  (success u = true -> rates_updated u + rates_skipped u = 1).
Proof.
  rewrite sync_rate_unfold.
  destruct (fetch_latest new_BCBClient rt o (tick s)) as [[e | rd] n']; [discriminate | ].
  assert (Sent : forall w,
             _send_single_update update_tx rd o w = (inr u, s') ->
             (rates_updated u = 0 \/ rates_updated u = 1) /\
             (rates_skipped u = 0 \/ rates_skipped u = 1) /\
             (rates_skipped u = 1 ->
              force = false /\ rates_updated u = 0 /\ success u = true /\ tx_hash u = None) /\
             (rates_updated u = 1 ->
              rates_skipped u = 0 /\ success u = true /\ exists h, tx_hash u = Some h) /\
             (success u = true -> rates_updated u + rates_skipped u = 1)).
  { intros w H. destruct (send_single_update_spec rd o w) as [u0 [E [K C]]].
    rewrite E in H. inv H. rewrite K.
    destruct C as [[C1 [C2 C3]] | [C1 C2]]; rewrite ?C1, ?C2.
    - refine (conj (or_intror eq_refl) (conj (or_introl eq_refl) (conj _ (conj _ _)))).
      + discriminate.
      + intros _. repeat split. exact C3.
      + reflexivity.
    - refine (conj (or_introl eq_refl) (conj (or_introl eq_refl) (conj _ (conj _ _))));
        discriminate. }
  destruct force; [apply Sent | ].
  destruct (get_current_rate (value (rate_type rd)) o (set_tick n' s)) as [[e | cur] w];
    [discriminate | ].
  destruct (fst (needs_update cur rd)); [apply Sent | ].
  intros H. inv H. cbn.
  refine (conj (or_introl eq_refl) (conj (or_intror eq_refl) (conj _ (conj _ _)))).
  - intros _. repeat split.
  - discriminate.
  - reflexivity.
Qed.

End SingleUpdateProofs.

Lemma sync_rate_skips_witness :
  exists w,
    sync_rate Fixtures.mined_update CDI false Fixtures.synced_outside Fixtures.fresh_state
    = (inr (skipped_one "same_date:20241126"), w) /\
    tick w = 2%nat /\ sent w = [].
Proof.
  assert (F : exists rd, fetch_latest new_BCBClient CDI Fixtures.synced_outside
                           (tick Fixtures.fresh_state) = (inr rd, 1%nat) /\
                         real_world_date rd = 20241126).
  { eexists. split; vm_compute; reflexivity. }
  destruct F as [rd [F D]].
  assert (G : exists cur w,
             get_current_rate (value CDI) Fixtures.synced_outside
               (set_tick 1 Fixtures.fresh_state) = (inr (Some cur), w) /\
             cr_real_world_date cur = 20241126).
  { do 2 eexists. split; vm_compute; reflexivity. }
  destruct G as [cur [w [G C]]].
  destruct (sync_rate_skips Fixtures.mined_update CDI Fixtures.synced_outside
              Fixtures.fresh_state w rd 1 cur F G) as [reason [R [T [S _]]]]; [lia | ].
  exists w. split; [ | split; assumption].
  rewrite R.
  assert (E : sync_rate Fixtures.mined_update CDI false Fixtures.synced_outside
                Fixtures.fresh_state
              = (inr (skipped_one "same_date:20241126"),
                 snd (sync_rate Fixtures.mined_update CDI false Fixtures.synced_outside
                        Fixtures.fresh_state)))
    by (vm_compute; reflexivity).
  rewrite R in E. cbn [snd] in E. exact E.
Defined.

Lemma sync_rate_counts_witness :
  exists u s',
    sync_rate Fixtures.mined_update CDI false Fixtures.one_event_outside Fixtures.fresh_state
    = (inr u, s') /\
    success u = true /\ rates_updated u = 1 /\ rates_skipped u = 0 /\
    rates_updated u + rates_skipped u = 1.
Proof.
  do 2 eexists.
  match goal with
  | |- ?A /\ _ => assert (F : A) by (vm_compute; reflexivity)
  end.
  split; [exact F | ]. split; [reflexivity | ]. split; [reflexivity | ].
  split; [reflexivity | ].
  destruct (sync_rate_counts _ _ _ _ _ _ _ F) as [_ [_ [_ [_ Sum]]]].
  exact (Sum eq_refl).
Defined.

End UpdaterProofs.

(* ================================================================== *)
(** * Further properties of the oracle updater: reading all rates *)
(* ================================================================== *)

Module CurrentRatesProofs.
Import Py PyFloat BcbClient Env BcbFetch OracleUpdater.

Ltac inv H := inversion H; subst; clear H.

Lemma str_dict_set_fresh {A} (k : string) (v : A) (d : list (string * A)) :
  ~ In k (map fst d) -> str_dict_set k v d = d ++ [(k, v)].
Proof.
  induction d as [ | [k' v'] d IH]; simpl; intros NI; [reflexivity | ].
  destruct (String.eqb_spec k k') as [E | E].
  - subst. exfalso. apply NI. now left.
  - f_equal. apply IH. intros H. apply NI. now right.
Qed.

Lemma get_current_rate_next (name : string) (o : Outside) (w : State) :
  snd (get_current_rate name o w) = next_tick w.
Proof.
  unfold get_current_rate.
  destruct (getRate o (tick w) name) as [a t d | msg | e];
    [destruct (int_truediv a PRECISION) | | ]; reflexivity.
Qed.

Lemma set_tick_self (w : State) : set_tick (tick w) w = w.
Proof. now destruct w. Qed.

Lemma current_rates_loop_step (rt : RateType) (rest : list RateType)
    (acc : list (string * CurrentRate)) (o : Outside) (w : State) :
  current_rates_loop (rt :: rest) acc o w
  = match fst (get_current_rate (value rt) o w) with
    | inr (Some r) => current_rates_loop rest (str_dict_set (value rt) r acc) o (next_tick w)
    | inr None => current_rates_loop rest acc o (next_tick w)
    | inl e => (inl e, next_tick w)
    end.
Proof.
  cbn [current_rates_loop]. unfold mbind.
  pose proof (get_current_rate_next (value rt) o w) as N.
  destruct (get_current_rate (value rt) o w) as [[e | [r | ]] w1]; cbn in N; subst w1;
    reflexivity.
Qed.

Lemma current_rates_loop_entries (o : Outside) (todo : list RateType) :
  forall acc w d w',
    NoDup (map value todo) ->
    (forall k, In k (map fst acc) -> ~ In k (map value todo)) ->
    current_rates_loop todo acc o w = (inr d, w') ->
    w' = set_tick (tick w + List.length todo) w /\
    exists added,
      d = acc ++ added /\
      NoDup (map fst added) /\
      incl (map fst added) (map value todo) /\
      (forall name cur,
          In (name, cur) added <->
          exists i rt,
            nth_error todo i = Some rt /\ name = value rt /\
            fst (get_current_rate name o (set_tick (tick w + i) w)) = inr (Some cur)).
Proof.
  induction todo as [ | rt rest IH]; intros acc w d w' ND Fresh.
  - cbn. intros H. inv H. rewrite Nat.add_0_r, set_tick_self. split; [reflexivity | ].
    exists []. rewrite app_nil_r.
    split; [reflexivity | ]. split; [constructor | ]. split; [intros x [] | ].
    intros k v. split; [intros [] | intros [[ | i] [rt [H _]]]; discriminate].
  - cbn [map] in ND. apply NoDup_cons_iff in ND. destruct ND as [Hrt ND'].
    rewrite current_rates_loop_step.
    assert (Shift : forall i, set_tick (tick (next_tick w) + i) (next_tick w)
                              = set_tick (tick w + S i) w).
    { intros i. unfold set_tick, next_tick. cbn. f_equal. lia. }
    destruct (fst (get_current_rate (value rt) o w)) as [e | [r | ]] eqn:G;
      [discriminate | | ].
    + assert (NI : ~ In (value rt) (map fst acc))
        by (intros Hk; apply (Fresh _ Hk); now left).
      rewrite (str_dict_set_fresh _ r acc NI).
      intros H. apply IH in H; [ | exact ND' | ].
      * destruct H as [Hw [added [Hd [Hnd [Hincl Hchar]]]]].
        split; [rewrite Hw, (Shift (List.length rest)); reflexivity | ].
        exists ((value rt, r) :: added). split; [now rewrite Hd, <- app_assoc | ].
        split; [cbn; constructor; [intros Hin; apply Hrt; now apply Hincl | exact Hnd] | ].
        split; [intros x [<- | Hx]; [now left | right; now apply Hincl] | ].
        intros name cur. cbn [In]. rewrite Hchar. split.
        -- intros [E | [i [rt' [Hi [Hn Hf]]]]].
           ++ inv E. exists 0%nat, rt. split; [reflexivity | ]. split; [reflexivity | ].
              now rewrite Nat.add_0_r, set_tick_self, G.
           ++ exists (S i), rt'. split; [exact Hi | ]. split; [exact Hn | ].
              now rewrite <- Shift.
        -- intros [[ | i] [rt' [Hi [Hn Hf]]]].
           ++ cbn in Hi. inv Hi. rewrite Nat.add_0_r, set_tick_self, G in Hf.
              inv Hf. now left.
           ++ right. exists i, rt'. split; [exact Hi | ]. split; [exact Hn | ].
              now rewrite Shift.
      * intros k Hk Hin. rewrite map_app in Hk.
        apply in_app_or in Hk. destruct Hk as [Hk | [Hk | []]].
        -- apply (Fresh k Hk). now right.
        -- cbn in Hk. subst. now apply Hrt.
    + intros H. apply IH in H;
        [ | exact ND' | intros k Hk Hin; apply (Fresh k Hk); now right].
      destruct H as [Hw [added [Hd [Hnd [Hincl Hchar]]]]].
      split; [rewrite Hw, (Shift (List.length rest)); reflexivity | ].
      exists added. split; [exact Hd | ]. split; [exact Hnd | ].
      split; [intros x Hx; right; now apply Hincl | ].
      intros name cur. rewrite Hchar. split.
      * intros [i [rt' [Hi [Hn Hf]]]]. exists (S i), rt'.
        split; [exact Hi | ]. split; [exact Hn | ]. now rewrite <- Shift.
      * intros [[ | i] [rt' [Hi [Hn Hf]]]].
        -- cbn in Hi. inv Hi. rewrite Nat.add_0_r, set_tick_self, G in Hf. discriminate.
        -- exists i, rt'. split; [exact Hi | ]. split; [exact Hn | ]. now rewrite Shift.
Qed.

Lemma rate_names_NoDup : NoDup (map value all_rate_types).
Proof. repeat constructor; cbn; intuition discriminate. Qed.

(** X24.  When [get_all_current_rates] returns, it has read the chain six
    times, once per rate type in the order of their definition, and changed
    nothing else; each name is in the dictionary at most once; and a name
    is there, with a rate, exactly when the read for it returned that rate:
    a rate the contract does not hold is left out. *)
Theorem get_all_current_rates_entries (o : Outside) (s s' : State)
    (d : list (string * CurrentRate)) :
  get_all_current_rates o s = (inr d, s') ->
  s' = set_tick (tick s + 6) s /\
  NoDup (map fst d) /\
  (forall name cur,
      In (name, cur) d <->
      exists i rt,
        nth_error all_rate_types i = Some rt /\ name = value rt /\
        fst (get_current_rate name o (set_tick (tick s + i) s)) = inr (Some cur)).
Proof.
  unfold get_all_current_rates. intros H.
  apply current_rates_loop_entries in H; [ | exact rate_names_NoDup | intros k []].
  destruct H as [Hw [added [-> [ND [_ Char]]]]]. cbn [app].
  split; [exact Hw | ]. split; [exact ND | exact Char].
Qed.

Lemma get_all_current_rates_entries_witness :
  exists d s',
    get_all_current_rates Fixtures.synced_outside Fixtures.fresh_state = (inr d, s') /\
    map fst d = ["IPCA"; "CDI"; "SELIC"; "PTAX"; "IGPM"; "TR"] /\
    tick s' = 6%nat /\ NoDup (map fst d).
Proof.
  do 2 eexists.
  match goal with
  | |- ?A /\ _ => assert (F : A) by (vm_compute; reflexivity)
  end.
  split; [exact F | ]. split; [reflexivity | ]. split; [reflexivity | ].
  exact (proj1 (proj2 (get_all_current_rates_entries _ _ _ _ F))).
Defined.

End CurrentRatesProofs.

(* ================================================================== *)
(** * Further properties of the anomaly detector *)
(* ================================================================== *)

Module AnomalyProofs.
Import Py PyFloat AnomalyDetector.

Ltac inv H := inversion H; subst; clear H.

(** What [detect_value_anomaly] returns carries the value checked; it is
    labelled "value_spike" exactly when it is flagged; it is flagged only
    on a history of at least [min_history_size] values; and when flagged
    with a zero deviation its score is 999. *)
Lemma value_anomaly_labelled (self : AnomalyDetector) (current : float)
    (history : list float) (r : AnomalyResult) :
  detect_value_anomaly self current history = inr r ->
  anomaly_type r = (if is_anomaly r then Some "value_spike" else None) /\
  current_value r = current /\
  (is_anomaly r = true -> min_history_size self <= Z.of_nat (List.length history)) /\
  (is_anomaly r = true -> std_dev r = 0%float -> z_score r = 999%float).
Proof.
  unfold detect_value_anomaly.
  destruct (Z.ltb_spec (Z.of_nat (List.length history)) (min_history_size self)) as [L | L].
  - intros H. inv H. cbn. refine (conj eq_refl (conj eq_refl (conj _ _))); discriminate.
  - unfold bind, ret.
    destruct (Statistics.mean history) as [e | mu]; [discriminate | ].
    destruct (Statistics.stdev history) as [e | sd]; [discriminate | ].
    destruct (sd =? 0)%float eqn:Zero; intros H; inv H; cbn.
    + destruct (current =? mu)%float; cbn;
        refine (conj eq_refl (conj eq_refl (conj _ _)));
        solve [discriminate | intros _; exact L | intros _ _; reflexivity].
    + destruct (std_threshold self <? abs (current - mu) / sd)%float;
        refine (conj eq_refl (conj eq_refl (conj _ _)));
        try solve [discriminate | intros _; exact L].
      intros _ E. subst sd. discriminate Zero.
Qed.

(** X25.  A flagged result is always labelled.  What
    [detect_value_anomaly] returns has the type "value_spike" exactly when
    it is flagged, and what [detect_velocity_anomaly] returns has the type
    "velocity" exactly when it is flagged; an unflagged result has no type.
    The severity of a result is "normal" exactly when it is not flagged; a
    flagged departure from a constant history and a flagged change from
    zero are "critical". *)
Theorem anomaly_results_labelled (self : AnomalyDetector) :
  (forall current history r,
      detect_value_anomaly self current history = inr r ->
      anomaly_type r = (if is_anomaly r then Some "value_spike" else None) /\
      (is_anomaly r = true -> std_dev r = 0%float -> severity r = "critical")) /\
  (forall current previous hours,
      let r := detect_velocity_anomaly self current previous hours in
      anomaly_type r = (if is_anomaly r then Some "velocity" else None) /\
      ((previous =? 0)%float = true -> is_anomaly r = true -> severity r = "critical")) /\
  (forall r, severity r = "normal" <-> is_anomaly r = false).
Proof.
  refine (conj _ (conj _ _)).
  - intros current history r H.
    destruct (value_anomaly_labelled self current history r H) as [T [_ [_ Z999]]].
    split; [exact T | ]. intros A S0. unfold severity. rewrite A, (Z999 A S0). reflexivity.
  - intros current previous hours r. subst r. unfold detect_velocity_anomaly.
    destruct (previous =? 0)%float.
    + destruct (current =? 0)%float; cbn;
        split; solve [reflexivity | discriminate | intros _ _; reflexivity].
    + cbn. split; [reflexivity | discriminate].
  - intros r. unfold severity. destruct (is_anomaly r); cbn.
    + split; [ | discriminate].
      destruct (5 <? z_score r)%float; [discriminate | ].
      destruct (4 <? z_score r)%float; discriminate.
    + split; reflexivity.
Qed.

End AnomalyProofs.

(* ================================================================== *)
(** * Further properties of the scheduler's update routine *)
(* ================================================================== *)

Module RunProofs.
Import Py PyFloat BcbClient Env BcbFetch Scheduler.

Ltac inv H := inversion H; subst; clear H.

(** ** The fetch loop *)

Lemma fetching_refl (r : Run) : fetching r r.
Proof. repeat split. Qed.

Lemma fetching_trans (a b c : Run) : fetching a b -> fetching b c -> fetching a c.
Proof.
  unfold fetching.
  intros [A1 [A2 [A3 [A4 [A5 [A6 [A7 A8]]]]]]] [B1 [B2 [B3 [B4 [B5 [B6 [B7 B8]]]]]]].
  repeat split; congruence.
Qed.

(** A call of the HTTP client only advances the call counter. *)
Lemma fetching_http {A} (m : M nat A) : keeps fetching (in_world (in_http m)).
Proof.
  intros o r. unfold in_world, in_http, zoom.
  destruct (m o (tick (world r))) as [res n']. repeat split.
Qed.

Lemma fetch_loop_fetching (cls : ClientClass) (self : RateScheduler) (bcb : BCBClient)
    (todo : list RateType) :
  forall acc, keeps fetching (fetch_loop cls self bcb todo acc).
Proof.
  induction todo as [ | rt rest IH]; intros acc; cbn [fetch_loop].
  - apply SchedulerProofs.keeps_ret, fetching_refl.
  - apply SchedulerProofs.keeps_bind; [exact fetching_trans | | intros acc'; apply IH].
    apply SchedulerProofs.keeps_try; [exact fetching_trans | | intros e].
    + apply SchedulerProofs.keeps_bind; [exact fetching_trans | apply fetching_http | ].
      intros rd. apply SchedulerProofs.keeps_ret, fetching_refl.
    + apply SchedulerProofs.keeps_bind; [exact fetching_trans | | ].
      * apply SchedulerProofs.keeps_modify. intros r. repeat split.
      * intros _. apply SchedulerProofs.keeps_ret, fetching_refl.
Qed.

Lemma dict_set_nonempty (k : RateType) (v : RateData) (d : RateDict) : dict_set k v d <> [].
Proof.
  destruct d as [ | [k' v'] d]; cbn; [discriminate | ].
  destruct (RateType_eqb k k'); discriminate.
Qed.

(** The dictionary of the fetch loop only grows; when it ends empty, every
    round has counted a failure. *)
Lemma fetch_loop_nothing (cls : ClientClass) (self : RateScheduler) (bcb : BCBClient)
    (todo : list RateType) :
  forall acc o r r',
    fetch_loop cls self bcb todo acc o r = (inr [], r') ->
    acc = [] /\
    rates_failed (results r') = rates_failed (results r) + OracleUpdater.len todo.
Proof.
  unfold OracleUpdater.len.
  induction todo as [ | rt rest IH]; intros acc o r r'.
  - cbn. intros H. inv H. split; [reflexivity | lia].
  - cbn [fetch_loop]. unfold mbind at 1. unfold try_except, mbind at 1.
    unfold in_world, in_http, zoom.
    destruct (call_fetch_with_retry cls bcb rt _ _ _ o (tick (world r))) as [[e | rd] n'].
    + destruct (is_BCBClientError e); [ | discriminate].
      unfold mbind, update_results, modify, mret. intros H.
      apply IH in H. cbn in H. destruct H as [H1 H2].
      split; [exact H1 | ]. rewrite H2. cbn [List.length]. lia.
    + unfold mret. intros H. apply IH in H. destruct H as [H1 _].
      exfalso. exact (dict_set_nonempty _ _ _ H1).
Qed.

(** ** Closing the run *)

(** The row [log_scheduler_run] writes. *)
Lemma run_started_rows (update_type : string) (o : Outside) (s : State) :
  DataStore.scheduler_runs (db (world (run_started update_type o s)))
  = DataStore.scheduler_runs (db s)
    ++ [ {| DataStore.run_id := DataStore.scheduler_runs_seq (db s) + 1;
            DataStore.job_id := job_id_of update_type;
            DataStore.started_at := clock o (tick s);
            DataStore.ended_at := None;
            DataStore.status := "running";
            DataStore.rates_processed := 0;
            DataStore.rates_updated := 0;
            DataStore.error_message := None |} ].
Proof. reflexivity. Qed.

Lemma no_open_run (job : string) (l : list DataStore.SchedulerRun) :
  filter (DataStore.is_open job) l = [] -> DataStore.latest_open job None l = None.
Proof.
  intros E. pose proof (StoreProofs.latest_open_spec job l None) as Sp.
  destruct (DataStore.latest_open job None l) as [r | ]; [ | reflexivity].
  destruct Sp as [Sp | [Hin Ho]]; [discriminate | ].
  assert (In r (filter (DataStore.is_open job) l)) by (apply filter_In; now split).
  rewrite E in H. destruct H.
Qed.

(** With no other run of the job open, closing the run rewrites the row
    logged at the start, and only that row. *)
Lemma close_new_run (job : string) (old : list DataStore.SchedulerRun)
    (nid t0 t : Z) (st : string) (p u : Z) (err : option string) (d : DataStore.DB) :
  filter (DataStore.is_open job) old = [] ->
  ~ In nid (map DataStore.run_id old) ->
  DataStore.scheduler_runs d
  = old ++ [ {| DataStore.run_id := nid; DataStore.job_id := job;
                DataStore.started_at := t0; DataStore.ended_at := None;
                DataStore.status := "running"; DataStore.rates_processed := 0;
                DataStore.rates_updated := 0; DataStore.error_message := None |} ] ->
  DataStore.scheduler_runs (DataStore.update_scheduler_run job t st p u err d)
  = old ++ [ {| DataStore.run_id := nid; DataStore.job_id := job;
                DataStore.started_at := t0; DataStore.ended_at := Some t;
                DataStore.status := st; DataStore.rates_processed := p;
                DataStore.rates_updated := u; DataStore.error_message := err |} ].
Proof.
  intros NoOpen Fresh Rows. unfold DataStore.update_scheduler_run.
  rewrite Rows, SchedulerProofs.latest_open_app, (no_open_run job old NoOpen).
  cbn [DataStore.latest_open]. unfold DataStore.is_open at 1.
  cbn [DataStore.job_id DataStore.ended_at]. rewrite String.eqb_refl.
  cbn [andb DataStore.scheduler_runs DataStore.run_id].
  rewrite map_app, (StoreProofs.map_untouched nid _ old Fresh).
  cbn [map DataStore.run_id DataStore.job_id DataStore.started_at].
  now rewrite Z.eqb_refl.
Qed.

Lemma reachable_numbered (d : DataStore.DB) : DataStore.reachable d -> DataStore.numbered d.
Proof.
  revert d. apply StoreProofs.reachable_ind;
    [exact StoreProofs.numbered_empty | exact StoreProofs.apply_op_numbered].
Qed.

(** The body of the routine either raises before the run is closed, the
    scheduler runs and the success flag being as at the start, or returns
    after closing the run with the status and the error of [results]. *)
Lemma update_rates_body_outcome (cls : ClientClass) (self : RateScheduler)
    (rate_types : list RateType) (update_type : string) (o : Outside) (r0 r2 : Run)
    (res : result unit) :
  success (results r0) = false ->
  update_rates_body cls self rate_types update_type o r0 = (res, r2) ->
  (exists e,
      res = inl e /\
      DataStore.scheduler_runs (db (world r2)) = DataStore.scheduler_runs (db (world r0)) /\
      success (results r2) = false) \/
  (res = inr tt /\
   exists d t p u,
     DataStore.scheduler_runs d = DataStore.scheduler_runs (db (world r0)) /\
     db (world r2)
     = DataStore.update_scheduler_run (job_id_of update_type) t
         (if success (results r2) then "completed" else "failed") p u
         (error (results r2)) d).
Proof.
  intros S0. unfold update_rates_body, mbind at 1.
  pose proof (fetch_loop_fetching cls self new_BCBClient rate_types [] o r0) as F.
  destruct (fetch_loop cls self new_BCBClient rate_types [] o r0) as [[e | fetched] r1].
  - (* the fetch loop raised *)
    intros H. inv H. left. exists e. cbn in F. destruct F as [F1 [_ [F3 _]]].
    split; [reflexivity | ]. split; [now rewrite F1 | congruence].
  - cbn in F. destruct F as [F1 [_ [F3 _]]].
    destruct fetched as [ | kv fetched].
    + (* nothing was fetched *)
      unfold mbind, update_results, modify, in_world, zoom, db_call. cbn.
      intros H. inv H. right. split; [reflexivity | ]. cbn.
      rewrite F3, S0. do 4 eexists. split; [ | reflexivity]. now rewrite F1.
    + unfold mbind at 1.
      pose proof (SchedulerProofs.check_and_store_all_quiet self (kv :: fetched) o r1) as Q.
      destruct (check_and_store_all self (kv :: fetched) o r1) as [[e | []] r3];
        cbn in Q; destruct Q as [_ [Q2 [Q3 _]]].
      * (* the anomaly-and-store loop raised *)
        intros H. inv H. left. exists e. split; [reflexivity | ].
        split; [now rewrite Q3, F1 | congruence].
      * (* the oracle phase, then the closing of the run *)
        unfold mbind at 1.
        destruct (update_oracle (kv :: fetched) o r3) as [res4 r4] eqn:U.
        destruct (SchedulerProofs.update_oracle_spec _ _ _ _ _ U) as [-> [[_ S2] _]].
        unfold mbind, get, in_world, zoom, db_call. cbn.
        intros H. inv H. right. split; [reflexivity | ]. cbn.
        do 4 eexists. split; [ | reflexivity]. now rewrite S2, Q3, F1.
Qed.

(** X26.  Every run is closed.  On a database the store's writes have
    made, with no run of the job open, [_update_rates] -- whatever the
    client class, the rate types and the outside do, and whether its body
    returns or raises -- adds exactly one row to the scheduler runs and
    leaves the earlier rows as they were: the row logged at the start, now
    ended, with status "completed" exactly when the result's success flag
    is set and "failed" otherwise, and with the result's error as its error
    message.  No run of the job is left open. *)
Theorem update_rates_closes_run (cls : ClientClass) (self : RateScheduler)
    (rate_types : list RateType) (update_type : string) (o : Outside) (s s' : State)
    (r : Results) :
  DataStore.reachable (db s) ->
  DataStore.open_runs (job_id_of update_type) (db s) = 0%nat ->
  _update_rates cls self rate_types update_type o s = (r, s') ->
  exists row,
    DataStore.scheduler_runs (db s') = DataStore.scheduler_runs (db s) ++ [row] /\
    DataStore.run_id row = DataStore.scheduler_runs_seq (db s) + 1 /\
    DataStore.job_id row = job_id_of update_type /\
    DataStore.started_at row = clock o (tick s) /\
    DataStore.ended_at row <> None /\
    DataStore.status row = (if success r then "completed" else "failed") /\
    DataStore.error_message row = error r /\
    DataStore.open_runs (job_id_of update_type) (db s') = 0%nat.
Proof.
  intros Reach NoOpen Hrun.
  apply reachable_numbered in Reach. destruct Reach as [_ [_ [_ [_ Bound]]]].
  assert (Fresh : ~ In (DataStore.scheduler_runs_seq (db s) + 1)
                    (map DataStore.run_id (DataStore.scheduler_runs (db s)))).
  { rewrite in_map_iff. intros [x [E Hx]]. specialize (Bound x Hx). lia. }
  unfold DataStore.open_runs in NoOpen. apply length_zero_iff_nil in NoOpen.
  assert (Closed : forall d t st p u err,
             DataStore.scheduler_runs d
             = DataStore.scheduler_runs (db (world (run_started update_type o s))) ->
             exists row,
               DataStore.scheduler_runs
                 (DataStore.update_scheduler_run (job_id_of update_type) t st p u err d)
               = DataStore.scheduler_runs (db s) ++ [row] /\
               DataStore.run_id row = DataStore.scheduler_runs_seq (db s) + 1 /\
               DataStore.job_id row = job_id_of update_type /\
               DataStore.started_at row = clock o (tick s) /\
               DataStore.ended_at row <> None /\
               DataStore.status row = st /\
               DataStore.error_message row = err /\
               DataStore.open_runs (job_id_of update_type)
                 (DataStore.update_scheduler_run (job_id_of update_type) t st p u err d)
               = 0%nat).
  { intros d t st p u err Rows. rewrite run_started_rows in Rows.
    pose proof (close_new_run _ _ _ _ t st p u err d NoOpen Fresh Rows) as C.
    eexists. split; [exact C | ]. cbn.
    refine (conj eq_refl (conj eq_refl (conj eq_refl (conj _ (conj eq_refl (conj eq_refl _)))))).
    - discriminate.
    - unfold DataStore.open_runs. rewrite C, filter_app, NoOpen. cbn.
      unfold DataStore.is_open. cbn. now rewrite andb_false_r. }
  unfold _update_rates in Hrun. rewrite SchedulerProofs.update_rates_run_unfold in Hrun.
  unfold try_except in Hrun.
  destruct (update_rates_body cls self rate_types update_type o
              (run_started update_type o s)) as [res r2] eqn:B.
  apply update_rates_body_outcome in B; [ | reflexivity].
  destruct B as [[e [-> [Rows S2]]] | [-> [d [t [p [u [Rows Db]]]]]]].
  - unfold mbind, update_results, modify, in_world, zoom, db_call in Hrun.
    cbn in Hrun. inv Hrun. cbn. rewrite S2. apply Closed. exact Rows.
  - inv Hrun. rewrite Db. apply Closed. exact Rows.
Qed.

Lemma update_rates_closes_run_witness :
  map DataStore.status
    (DataStore.scheduler_runs
       (db (snd (_update_rates BCBClient_class Fixtures.default_scheduler DAILY_RATES "daily"
                   Fixtures.quiet_outside Fixtures.fresh_state))))
  = ["failed"] /\
  DataStore.open_runs "daily_rates"
    (db (snd (_update_rates BCBClient_class Fixtures.default_scheduler DAILY_RATES "daily"
                Fixtures.quiet_outside Fixtures.fresh_state))) = 0%nat.
Proof.
  split; [vm_compute; reflexivity | ].
  destruct (_update_rates BCBClient_class Fixtures.default_scheduler DAILY_RATES "daily"
              Fixtures.quiet_outside Fixtures.fresh_state) as [r s'] eqn:E.
  destruct (update_rates_closes_run BCBClient_class Fixtures.default_scheduler DAILY_RATES
              "daily" Fixtures.quiet_outside Fixtures.fresh_state s' r)
    as [row [_ [_ [_ [_ [_ [_ [_ Open]]]]]]]].
  - exists []. reflexivity.
  - reflexivity.
  - exact E.
  - exact Open.
Defined.

(** X27.  A run that fetches nothing stops there.  When the fetch loop
    ends with no rate -- each rate type of the list having failed with a
    client error, or the list being empty -- the result is unsuccessful
    with the error "No rates fetched from BCB" and counts every rate type
    as failed; nothing is stored, no anomaly and no oracle update is
    logged, the chain is not called and no batch is sent. *)
Theorem update_rates_nothing_fetched (cls : ClientClass) (self : RateScheduler)
    (rate_types : list RateType) (update_type : string) (o : Outside) (s s' : State)
    (r1 : Run) (r : Results) :
  fetch_loop cls self new_BCBClient rate_types [] o (run_started update_type o s)
    = (inr [], r1) ->
  _update_rates cls self rate_types update_type o s = (r, s') ->
  r = {| success := false; rates_updated := 0; rates_skipped := 0;
         rates_failed := OracleUpdater.len rate_types; anomalies_detected := 0;
         tx_hash := None; error := Some "No rates fetched from BCB" |} /\
  tick s' = tick (world r1) /\
  sent s' = sent s /\
  DataStore.rates (db s') = DataStore.rates (db s) /\
  DataStore.anomalies (db s') = DataStore.anomalies (db s) /\
  DataStore.oracle_updates (db s') = DataStore.oracle_updates (db s).
Proof.
  intros Hfetch Hrun.
  pose proof (fetch_loop_fetching cls self new_BCBClient rate_types [] o
                (run_started update_type o s)) as F.
  rewrite Hfetch in F. cbn [snd] in F.
  destruct F as [F1 [F2 [F3 [F4 [F5 [F6 [F7 F8]]]]]]].
  apply fetch_loop_nothing in Hfetch as N. destruct N as [_ N].
  unfold _update_rates in Hrun. rewrite SchedulerProofs.update_rates_run_unfold in Hrun.
  unfold try_except, update_rates_body, mbind at 1 in Hrun.
  rewrite Hfetch in Hrun.
  unfold mbind, update_results, modify, in_world, zoom, db_call in Hrun.
  cbn in Hrun. inv Hrun. cbn.
  split.
  - unfold set_error. cbn in *. f_equal; solve [assumption | rewrite N; cbn; lia].
  - split; [reflexivity | ]. split; [exact F2 | ].
    rewrite F1. unfold DataStore.update_scheduler_run.
    destruct (DataStore.latest_open _ None _); repeat split.
Qed.

Lemma update_rates_nothing_fetched_witness :
  exists r s',
    _update_rates Fixtures.single_attempt_class Fixtures.default_scheduler DAILY_RATES
      "daily" Fixtures.quiet_outside Fixtures.fresh_state = (r, s') /\
    rates_failed r = 4 /\ error r = Some "No rates fetched from BCB" /\
    tick s' = 4%nat /\ sent s' = [].
Proof.
  do 2 eexists.
  match goal with
  | |- ?A /\ _ => assert (F : A) by (vm_compute; reflexivity)
  end.
  split; [exact F | ].
  assert (L : exists r1,
             fetch_loop Fixtures.single_attempt_class Fixtures.default_scheduler
               new_BCBClient DAILY_RATES [] Fixtures.quiet_outside
               (run_started "daily" Fixtures.quiet_outside Fixtures.fresh_state)
             = (inr [], r1) /\ tick (world r1) = 4%nat)
    by (eexists; split; vm_compute; reflexivity).
  destruct L as [r1 [L T]].
  destruct (update_rates_nothing_fetched _ _ _ _ _ _ _ _ _ L F) as [R [Tk [Sn _]]].
  split; [reflexivity | ]. split; [reflexivity | ]. split; [ | exact Sn].
  now rewrite Tk.
Defined.

(** ** The anomaly check and the store *)

(** X28.  An anomaly never blocks the store.  When a round of the
    anomaly-and-store loop returns, the observation has been stored as by
    [store_rate], flagged or not; at most one anomaly has been logged and
    counted, one exactly when there is stored history for the rate and
    [detect_value_anomaly] flags the value against it, and that row carries
    the rate's name, the type "value_spike" and the value.  The round
    raises only what [detect_value_anomaly] raises, and then nothing has
    been stored or logged. *)
Theorem check_and_store_never_blocks (self : RateScheduler) (rt : RateType)
    (rd : RateData) (o : Outside) (r r' : Run) (res : result unit) :
  let now := clock o (tick (world r)) in
  let history := map DataStore.raw_value
                   (DataStore.get_rate_history (value rt)
                      (anomaly_lookback_days (settings self)) now (db (world r))) in
  let flagged := history <> [] /\
                 exists ar,
                   AnomalyDetector.detect_value_anomaly (anomaly_detector self)
                     (raw_value rd) history = inr ar /\
                   AnomalyDetector.is_anomaly ar = true in
  check_and_store self rt rd o r = (res, r') ->
  match res with
  | inr _ =>
      DataStore.rates (db (world r'))
      = DataStore.rates (fst (DataStore.store_rate rd now (db (world r)))) /\
      exists logged,
        DataStore.anomalies (db (world r')) = DataStore.anomalies (db (world r)) ++ logged /\
        anomalies_detected (results r')
        = anomalies_detected (results r) + OracleUpdater.len logged /\
        (logged = [] /\ ~ flagged \/
         flagged /\
         exists a, logged = [a] /\
                   DataStore.an_rate_type a = value rt /\
                   DataStore.anomaly_type a = "value_spike" /\
                   DataStore.current_value a = raw_value rd)
  | inl e =>
      history <> [] /\
      AnomalyDetector.detect_value_anomaly (anomaly_detector self) (raw_value rd) history
      = inl e /\
      r' = r
  end.
Proof.
  intros now history flagged. subst flagged.
  unfold check_and_store, mbind at 1. unfold in_world at 1, zoom, db_query.
  fold now. fold history.
  replace {| results := results r; world := world r |} with r by (now destruct r).
  destruct history as [ | h0 hs] eqn:Hist.
  - (* no history: the check is not made *)
    unfold mbind, mret, in_world, zoom, db_call. cbn. intros H. inv H. cbn.
    split; [reflexivity | ]. exists []. rewrite app_nil_r.
    split; [reflexivity | ]. split; [unfold OracleUpdater.len; cbn; lia | ].
    left. split; [reflexivity | ]. intros [NE _]. now apply NE.
  - unfold mbind at 1. unfold mbind at 1. unfold lift_result.
    destruct (AnomalyDetector.detect_value_anomaly (anomaly_detector self)
                (raw_value rd) (h0 :: hs)) as [e | ar] eqn:D.
    + (* the detector raised *)
      intros H. inv H. split; [discriminate | ]. split; reflexivity.
    + destruct (AnomalyProofs.value_anomaly_labelled _ _ _ _ D) as [T _].
      destruct (AnomalyDetector.is_anomaly ar) eqn:A.
      * (* flagged: logged, counted and stored *)
        rewrite T.
        unfold mbind, mret, update_results, modify, in_world, zoom, db_call. cbn.
        intros H. inv H. cbn.
        split; [reflexivity | ]. eexists. split; [reflexivity | ].
        split; [unfold OracleUpdater.len; cbn; lia | ].
        right. split.
        -- split; [discriminate | ]. exists ar. split; [reflexivity | exact A].
        -- eexists. split; [reflexivity | ]. repeat split.
      * (* not flagged: stored *)
        unfold mbind, mret, in_world, zoom, db_call. cbn. intros H. inv H. cbn.
        split; [reflexivity | ]. exists []. rewrite app_nil_r.
        split; [reflexivity | ]. split; [unfold OracleUpdater.len; cbn; lia | ].
        left. split; [reflexivity | ]. intros [_ [ar' [E A']]]. congruence.
Qed.

Lemma check_and_store_never_blocks_witness :
  exists r',
    check_and_store Fixtures.default_scheduler CDI Fixtures.cdi_candidate
      Fixtures.quiet_outside
      {| results := initial_results; world := Fixtures.week_state |} = (inr tt, r') /\
    List.length (DataStore.rates (db (world r'))) = 6%nat /\
    map DataStore.anomaly_type (DataStore.anomalies (db (world r'))) = ["value_spike"] /\
    anomalies_detected (results r') = 1.
Proof.
  eexists.
  match goal with
  | |- ?A /\ _ => assert (F : A) by (vm_compute; reflexivity)
  end.
  split; [exact F | ].
  pose proof (check_and_store_never_blocks _ _ _ _ _ _ _ F) as [R _].
  split; [rewrite R; vm_compute; reflexivity | ]. split; reflexivity.
Defined.

End RunProofs.
